(** * Parca Agent: profile conversion, VDSO cache and debuginfo manager

    A shallow embedding of [pkg/pprof/pprof.go], [pkg/vdso/vdso.go] and
    [pkg/debuginfo/manager.go], and the properties of the specification
    that are settled on it.

    Conventions.
    - Go's [uint64] and [int64] are [Z] with the wrap-around written out
      ([uint64], [int64] below).
    - A Go [map] is a [gmap]; a map used as a set is a [gset].
    - A Go multiple return [(v, err)] is a pair whose second component is
      an [option error] ([None] is [nil]); a pointer that may be [nil] is
      an [option].
    - A Mapping, Function or Location of the profile is created once and
      never assigned afterwards; what the source holds as a pointer to one
      is the record itself.
    - Logging and tracing have no effect on the values computed and are
      left out. *)

From stdpp Require Import gmap strings list fin_maps.
From Stdlib Require Import ZArith Lia.

Set Default Proof Using "Type".

(** ** Machine integers *)

Definition uint64 (z : Z) : Z := (z mod 2 ^ 64)%Z.

Definition int64 (z : Z) : Z := ((z + 2 ^ 63) mod 2 ^ 64 - 2 ^ 63)%Z.

(** Go's [len] returns an [int]. *)
Definition len {A} (l : list A) : Z := Z.of_nat (length l).

(** ** Errors *)

Module codes.
Inductive Code :=
| OK | Canceled | Unknown | InvalidArgument | DeadlineExceeded | NotFound
| AlreadyExists | PermissionDenied | ResourceExhausted | FailedPrecondition
| Aborted | OutOfRange | Unimplemented | Internal | Unavailable | DataLoss
| Unauthenticated.

Definition eqb (a b : Code) : bool :=
  match a, b with
  | OK, OK | Canceled, Canceled | Unknown, Unknown
  | InvalidArgument, InvalidArgument | DeadlineExceeded, DeadlineExceeded
  | NotFound, NotFound | AlreadyExists, AlreadyExists
  | PermissionDenied, PermissionDenied | ResourceExhausted, ResourceExhausted
  | FailedPrecondition, FailedPrecondition | Aborted, Aborted
  | OutOfRange, OutOfRange | Unimplemented, Unimplemented
  | Internal, Internal | Unavailable, Unavailable | DataLoss, DataLoss
  | Unauthenticated, Unauthenticated => true
  | _, _ => false
  end.
End codes.

(** A Go [error] value: a plain message, a gRPC status, or an error wrapped
    by [fmt.Errorf("...: %w", err)]. *)
Inductive error :=
| errorString (msg : string)
| statusError (code : codes.Code) (msg : string)
| wrapError (msg : string) (err : error)
| joinError (err1 err2 : error).

Module status.
(** [status.FromError]: the status carried by the error, if any. *)
Fixpoint FromError (err : error) : option codes.Code :=
  match err with
  | errorString _ => None
  | statusError c _ => Some c
  | wrapError _ e => FromError e
  | joinError _ _ => None
  end.
End status.

Module multierr.
(** [multierr.Append(left, right)] for a non-nil [right]. *)
Definition Append (left : option error) (right : error) : option error :=
  match left with
  | None => Some right
  | Some l => Some (joinError l right)
  end.
End multierr.

(** ** The monad of methods

    A method reads and updates its receiver, of type [S], and may stop in
    a run-time panic (an index out of range, a nil dereference): [None] is
    the panic. *)

Definition M (S A : Type) : Type := S → option (A * S).

Definition ret {S A} (a : A) : M S A := λ s, Some (a, s).

Definition bind {S A B} (m : M S A) (k : A → M S B) : M S B :=
  λ s, match m s with
       | Some (a, s') => k a s'
       | None => None
       end.

Definition get {S} : M S S := λ s, Some (s, s).

Definition modify {S} (f : S → S) : M S unit := λ s, Some (tt, f s).

Definition panic {S A} : M S A := λ _, None.

Notation "'let*' x ':=' m 'in' k" := (bind m (λ x, k))
  (at level 10, x binder, m at level 100, k at level 200, only parsing).

(** [for _, x := range xs { acc = body(acc, x) }]. *)
Fixpoint forRange {S A B} (xs : list A) (body : B → A → M S B) (acc : B) : M S B :=
  match xs with
  | [] => ret acc
  | x :: xs' => let* acc' := body acc x in forRange xs' body acc'
  end.

(** [xs[i]] for an [int] index, with Go's bounds check. *)
Definition index {S A} (xs : list A) (i : Z) : M S A :=
  if (i <? 0)%Z then panic
  else match xs !! Z.to_nat i with
       | Some x => ret x
       | None => panic
       end.

Definition nonnil {A} (o : option A) : bool :=
  match o with Some _ => true | None => false end.

(** ** Strings *)

Module strings.
(** [strings.HasSuffix(s, suffix)]:
    [len(s) >= len(suffix) && s[len(s)-len(suffix):] == suffix]. *)
Definition HasSuffix (s suffix : string) : bool :=
  (String.length suffix <=? String.length s)%nat &&
  String.eqb
    (String.substring (String.length s - String.length suffix)
                      (String.length suffix) s)
    suffix.
End strings.

(** ** Collaborators outside the converter *)

Module process.
(** Modelled from the spec: [pkg/process] is not among the sources; the
    data model gives a process mapping as [start], [limit], [offset],
    [file] and [build_id]. *)
Record Mapping := {
  Start : Z;
  Limit : Z;
  Offset : Z;
  File : string;
  BuildID : string;
}.
End process.

Module pprofprofile.
Module Mapping.
Record t := {
  ID : Z;
  Start : Z;
  Limit : Z;
  Offset : Z;
  File : string;
  BuildID : string;
}.
End Mapping.

Module Function.
Record t := {
  ID : Z;
  Name : string;
}.
End Function.

Module Line.
Record t := {
  Function : Function.t;
}.
End Line.

Module Location.
Record t := {
  ID : Z;
  Mapping : Mapping.t;
  Address : Z;
  Line : list Line.t;
}.
End Location.

Module Sample.
Record t := {
  Location : list Location.t;
  Value : list Z;
}.
End Sample.

Module ValueType.
Record t := {
  Type_ : string;
  Unit : string;
}.
End ValueType.

Module Profile.
Record t := {
  SampleType : list ValueType.t;
  Sample : list Sample.t;
  Mapping : list Mapping.t;
  Location : list Location.t;
  Function : list Function.t;
  TimeNanos : Z;
  DurationNanos : Z;
  PeriodType : option ValueType.t;
  Period : Z;
}.
End Profile.
End pprofprofile.

Module profile.
Record RawSample := {
  UserStack : list Z;
  KernelStack : list Z;
  Value : Z;
}.
End profile.

Module ksym.
(** The kernel-symbol resolver, by its one method. *)
Record Ksym := {
  Resolve : gset Z → gmap Z string * option error;
}.
End ksym.

Module perf.
(** A perf map, by its [Lookup] method. *)
Record Map := {
  Lookup : Z → string * option error;
}.

Record PerfMapCache := {
  PerfMapForPID : Z → option Map * option error;
}.

Record JitdumpCache := {
  JitdumpForPID : Z → string → option Map * option error;
}.
End perf.

Module profiler.
Record AddressNormalizer := {
  Normalize : process.Mapping → Z → Z * option error;
}.
End profiler.

Module time.
(** A [time.Time] is taken as its Unix time in nanoseconds; a [Duration]
    is an [int64] of nanoseconds and [Sub] saturates. *)
Definition Time := Z.

Definition UnixNano (t : Time) : Z := int64 t.

Definition Sub (t u : Time) : Z :=
  if (t - u <? - 2 ^ 63)%Z then (- 2 ^ 63)%Z
  else if (2 ^ 63 - 1 <? t - u)%Z then (2 ^ 63 - 1)%Z
  else (t - u)%Z.

(** [t.Unix()]: the seconds since the epoch. *)
Definition Unix (t : Time) : Z := int64 (t / 1000000000).

(** [time.Since(t)] with the clock reading [now]. *)
Definition Since (now t : Time) : Z := Sub now t.
End time.

(** ** The profile converter ([pkg/pprof/pprof.go]) *)

Module pprof.
Import pprofprofile.

(** The [VDSOSymbolizer] interface. *)
Record VDSOSymbolizer := {
  Resolve : Z → process.Mapping → string * option error;
}.

(** The frame-drop counter vector of [ConverterMetrics], by label. *)
Record ConverterMetrics := {
  frameDrop : gmap string nat;
}.

(** Modelled from the spec: the label constant is declared in a file
    that is not among the sources; the spec names the counter
    [mapping_nil]. *)
Definition labelFrameDropReasonMappingNil : string := "mapping_nil".

(** [CounterVec.WithLabelValues(label).Inc()]. *)
Definition Inc (label : string) (m : ConverterMetrics) : ConverterMetrics :=
  {| frameDrop := <[label := S (default 0 (frameDrop m !! label))]> (frameDrop m) |}.

Record Converter := {
  addressNormalizer : profiler.AddressNormalizer;
  ksym : ksym.Ksym;
  vdsoSymbolizer : VDSOSymbolizer;
  metrics : ConverterMetrics;
  perfMapCache : perf.PerfMapCache;
  jitdumpCache : perf.JitdumpCache;
  disableJITSymbolization : bool;

  cachedPerfMap : option perf.Map;
  cachedPerfMapErr : option error;

  cachedJitdump : gmap string (option perf.Map);
  cachedJitdumpErr : gmap string (option error);

  functionIndex : gmap string Function.t;
  addrLocationIndex : gmap Z Location.t;
  perfmapLocationIndex : gmap string Location.t;
  jitdumpLocationIndex : gmap string Location.t;
  kernelLocationIndex : gmap string Location.t;
  vdsoLocationIndex : gmap string Location.t;

  pid : Z;
  mappings : list process.Mapping;
  kernelMapping : Mapping.t;

  result : Profile.t;
}.

(** *** Field updates *)

Definition set_metrics (f : ConverterMetrics → ConverterMetrics) (c : Converter) : Converter :=
  {| addressNormalizer := addressNormalizer c; ksym := ksym c;
     vdsoSymbolizer := vdsoSymbolizer c; metrics := f (metrics c);
     perfMapCache := perfMapCache c; jitdumpCache := jitdumpCache c;
     disableJITSymbolization := disableJITSymbolization c;
     cachedPerfMap := cachedPerfMap c; cachedPerfMapErr := cachedPerfMapErr c;
     cachedJitdump := cachedJitdump c; cachedJitdumpErr := cachedJitdumpErr c;
     functionIndex := functionIndex c; addrLocationIndex := addrLocationIndex c;
     perfmapLocationIndex := perfmapLocationIndex c;
     jitdumpLocationIndex := jitdumpLocationIndex c;
     kernelLocationIndex := kernelLocationIndex c;
     vdsoLocationIndex := vdsoLocationIndex c;
     pid := pid c; mappings := mappings c; kernelMapping := kernelMapping c;
     result := result c |}.

Definition set_cachedPerfMap (v : option perf.Map * option error) (c : Converter) : Converter :=
  {| addressNormalizer := addressNormalizer c; ksym := ksym c;
     vdsoSymbolizer := vdsoSymbolizer c; metrics := metrics c;
     perfMapCache := perfMapCache c; jitdumpCache := jitdumpCache c;
     disableJITSymbolization := disableJITSymbolization c;
     cachedPerfMap := v.1; cachedPerfMapErr := v.2;
     cachedJitdump := cachedJitdump c; cachedJitdumpErr := cachedJitdumpErr c;
     functionIndex := functionIndex c; addrLocationIndex := addrLocationIndex c;
     perfmapLocationIndex := perfmapLocationIndex c;
     jitdumpLocationIndex := jitdumpLocationIndex c;
     kernelLocationIndex := kernelLocationIndex c;
     vdsoLocationIndex := vdsoLocationIndex c;
     pid := pid c; mappings := mappings c; kernelMapping := kernelMapping c;
     result := result c |}.

Definition set_cachedJitdump (path : string) (v : option perf.Map * option error)
    (c : Converter) : Converter :=
  {| addressNormalizer := addressNormalizer c; ksym := ksym c;
     vdsoSymbolizer := vdsoSymbolizer c; metrics := metrics c;
     perfMapCache := perfMapCache c; jitdumpCache := jitdumpCache c;
     disableJITSymbolization := disableJITSymbolization c;
     cachedPerfMap := cachedPerfMap c; cachedPerfMapErr := cachedPerfMapErr c;
     cachedJitdump := <[path := v.1]> (cachedJitdump c);
     cachedJitdumpErr := <[path := v.2]> (cachedJitdumpErr c);
     functionIndex := functionIndex c; addrLocationIndex := addrLocationIndex c;
     perfmapLocationIndex := perfmapLocationIndex c;
     jitdumpLocationIndex := jitdumpLocationIndex c;
     kernelLocationIndex := kernelLocationIndex c;
     vdsoLocationIndex := vdsoLocationIndex c;
     pid := pid c; mappings := mappings c; kernelMapping := kernelMapping c;
     result := result c |}.

Definition set_functionIndex (f : gmap string Function.t → gmap string Function.t)
    (c : Converter) : Converter :=
  {| addressNormalizer := addressNormalizer c; ksym := ksym c;
     vdsoSymbolizer := vdsoSymbolizer c; metrics := metrics c;
     perfMapCache := perfMapCache c; jitdumpCache := jitdumpCache c;
     disableJITSymbolization := disableJITSymbolization c;
     cachedPerfMap := cachedPerfMap c; cachedPerfMapErr := cachedPerfMapErr c;
     cachedJitdump := cachedJitdump c; cachedJitdumpErr := cachedJitdumpErr c;
     functionIndex := f (functionIndex c); addrLocationIndex := addrLocationIndex c;
     perfmapLocationIndex := perfmapLocationIndex c;
     jitdumpLocationIndex := jitdumpLocationIndex c;
     kernelLocationIndex := kernelLocationIndex c;
     vdsoLocationIndex := vdsoLocationIndex c;
     pid := pid c; mappings := mappings c; kernelMapping := kernelMapping c;
     result := result c |}.

Definition set_addrLocationIndex (f : gmap Z Location.t → gmap Z Location.t)
    (c : Converter) : Converter :=
  {| addressNormalizer := addressNormalizer c; ksym := ksym c;
     vdsoSymbolizer := vdsoSymbolizer c; metrics := metrics c;
     perfMapCache := perfMapCache c; jitdumpCache := jitdumpCache c;
     disableJITSymbolization := disableJITSymbolization c;
     cachedPerfMap := cachedPerfMap c; cachedPerfMapErr := cachedPerfMapErr c;
     cachedJitdump := cachedJitdump c; cachedJitdumpErr := cachedJitdumpErr c;
     functionIndex := functionIndex c; addrLocationIndex := f (addrLocationIndex c);
     perfmapLocationIndex := perfmapLocationIndex c;
     jitdumpLocationIndex := jitdumpLocationIndex c;
     kernelLocationIndex := kernelLocationIndex c;
     vdsoLocationIndex := vdsoLocationIndex c;
     pid := pid c; mappings := mappings c; kernelMapping := kernelMapping c;
     result := result c |}.

Definition set_perfmapLocationIndex (f : gmap string Location.t → gmap string Location.t)
    (c : Converter) : Converter :=
  {| addressNormalizer := addressNormalizer c; ksym := ksym c;
     vdsoSymbolizer := vdsoSymbolizer c; metrics := metrics c;
     perfMapCache := perfMapCache c; jitdumpCache := jitdumpCache c;
     disableJITSymbolization := disableJITSymbolization c;
     cachedPerfMap := cachedPerfMap c; cachedPerfMapErr := cachedPerfMapErr c;
     cachedJitdump := cachedJitdump c; cachedJitdumpErr := cachedJitdumpErr c;
     functionIndex := functionIndex c; addrLocationIndex := addrLocationIndex c;
     perfmapLocationIndex := f (perfmapLocationIndex c);
     jitdumpLocationIndex := jitdumpLocationIndex c;
     kernelLocationIndex := kernelLocationIndex c;
     vdsoLocationIndex := vdsoLocationIndex c;
     pid := pid c; mappings := mappings c; kernelMapping := kernelMapping c;
     result := result c |}.

Definition set_jitdumpLocationIndex (f : gmap string Location.t → gmap string Location.t)
    (c : Converter) : Converter :=
  {| addressNormalizer := addressNormalizer c; ksym := ksym c;
     vdsoSymbolizer := vdsoSymbolizer c; metrics := metrics c;
     perfMapCache := perfMapCache c; jitdumpCache := jitdumpCache c;
     disableJITSymbolization := disableJITSymbolization c;
     cachedPerfMap := cachedPerfMap c; cachedPerfMapErr := cachedPerfMapErr c;
     cachedJitdump := cachedJitdump c; cachedJitdumpErr := cachedJitdumpErr c;
     functionIndex := functionIndex c; addrLocationIndex := addrLocationIndex c;
     perfmapLocationIndex := perfmapLocationIndex c;
     jitdumpLocationIndex := f (jitdumpLocationIndex c);
     kernelLocationIndex := kernelLocationIndex c;
     vdsoLocationIndex := vdsoLocationIndex c;
     pid := pid c; mappings := mappings c; kernelMapping := kernelMapping c;
     result := result c |}.

Definition set_kernelLocationIndex (f : gmap string Location.t → gmap string Location.t)
    (c : Converter) : Converter :=
  {| addressNormalizer := addressNormalizer c; ksym := ksym c;
     vdsoSymbolizer := vdsoSymbolizer c; metrics := metrics c;
     perfMapCache := perfMapCache c; jitdumpCache := jitdumpCache c;
     disableJITSymbolization := disableJITSymbolization c;
     cachedPerfMap := cachedPerfMap c; cachedPerfMapErr := cachedPerfMapErr c;
     cachedJitdump := cachedJitdump c; cachedJitdumpErr := cachedJitdumpErr c;
     functionIndex := functionIndex c; addrLocationIndex := addrLocationIndex c;
     perfmapLocationIndex := perfmapLocationIndex c;
     jitdumpLocationIndex := jitdumpLocationIndex c;
     kernelLocationIndex := f (kernelLocationIndex c);
     vdsoLocationIndex := vdsoLocationIndex c;
     pid := pid c; mappings := mappings c; kernelMapping := kernelMapping c;
     result := result c |}.

Definition set_vdsoLocationIndex (f : gmap string Location.t → gmap string Location.t)
    (c : Converter) : Converter :=
  {| addressNormalizer := addressNormalizer c; ksym := ksym c;
     vdsoSymbolizer := vdsoSymbolizer c; metrics := metrics c;
     perfMapCache := perfMapCache c; jitdumpCache := jitdumpCache c;
     disableJITSymbolization := disableJITSymbolization c;
     cachedPerfMap := cachedPerfMap c; cachedPerfMapErr := cachedPerfMapErr c;
     cachedJitdump := cachedJitdump c; cachedJitdumpErr := cachedJitdumpErr c;
     functionIndex := functionIndex c; addrLocationIndex := addrLocationIndex c;
     perfmapLocationIndex := perfmapLocationIndex c;
     jitdumpLocationIndex := jitdumpLocationIndex c;
     kernelLocationIndex := kernelLocationIndex c;
     vdsoLocationIndex := f (vdsoLocationIndex c);
     pid := pid c; mappings := mappings c; kernelMapping := kernelMapping c;
     result := result c |}.

Definition set_result (f : Profile.t → Profile.t) (c : Converter) : Converter :=
  {| addressNormalizer := addressNormalizer c; ksym := ksym c;
     vdsoSymbolizer := vdsoSymbolizer c; metrics := metrics c;
     perfMapCache := perfMapCache c; jitdumpCache := jitdumpCache c;
     disableJITSymbolization := disableJITSymbolization c;
     cachedPerfMap := cachedPerfMap c; cachedPerfMapErr := cachedPerfMapErr c;
     cachedJitdump := cachedJitdump c; cachedJitdumpErr := cachedJitdumpErr c;
     functionIndex := functionIndex c; addrLocationIndex := addrLocationIndex c;
     perfmapLocationIndex := perfmapLocationIndex c;
     jitdumpLocationIndex := jitdumpLocationIndex c;
     kernelLocationIndex := kernelLocationIndex c;
     vdsoLocationIndex := vdsoLocationIndex c;
     pid := pid c; mappings := mappings c; kernelMapping := kernelMapping c;
     result := f (result c) |}.

(** [c.result.X = append(c.result.X, x)] for the three tables that
    [Convert] grows. *)
Definition append_Function (f : Function.t) (p : Profile.t) : Profile.t :=
  {| Profile.SampleType := Profile.SampleType p; Profile.Sample := Profile.Sample p;
     Profile.Mapping := Profile.Mapping p; Profile.Location := Profile.Location p;
     Profile.Function := Profile.Function p ++ [f];
     Profile.TimeNanos := Profile.TimeNanos p;
     Profile.DurationNanos := Profile.DurationNanos p;
     Profile.PeriodType := Profile.PeriodType p; Profile.Period := Profile.Period p |}.

Definition append_Location (l : Location.t) (p : Profile.t) : Profile.t :=
  {| Profile.SampleType := Profile.SampleType p; Profile.Sample := Profile.Sample p;
     Profile.Mapping := Profile.Mapping p; Profile.Location := Profile.Location p ++ [l];
     Profile.Function := Profile.Function p;
     Profile.TimeNanos := Profile.TimeNanos p;
     Profile.DurationNanos := Profile.DurationNanos p;
     Profile.PeriodType := Profile.PeriodType p; Profile.Period := Profile.Period p |}.

Definition append_Sample (s : Sample.t) (p : Profile.t) : Profile.t :=
  {| Profile.SampleType := Profile.SampleType p; Profile.Sample := Profile.Sample p ++ [s];
     Profile.Mapping := Profile.Mapping p; Profile.Location := Profile.Location p;
     Profile.Function := Profile.Function p;
     Profile.TimeNanos := Profile.TimeNanos p;
     Profile.DurationNanos := Profile.DurationNanos p;
     Profile.PeriodType := Profile.PeriodType p; Profile.Period := Profile.Period p |}.

(** *** [NewConverter] *)

(** Modelled from the spec: [process.Mappings.ConvertToPprof] is not
    among the sources.  The profile mappings mirror the process mappings
    in order, field by field, with 1-based ids. *)
Definition ConvertToPprof (ms : list process.Mapping) : list Mapping.t :=
  imap (λ i m, {| Mapping.ID := uint64 (Z.of_nat i + 1);
                  Mapping.Start := process.Start m;
                  Mapping.Limit := process.Limit m;
                  Mapping.Offset := process.Offset m;
                  Mapping.File := process.File m;
                  Mapping.BuildID := process.BuildID m |}) ms.

(** [now] is the reading of the clock when [time.Since] is evaluated. *)
Definition NewConverter
    (addressNormalizer : profiler.AddressNormalizer)
    (ksym : ksym.Ksym)
    (vdsoSymbolizer : VDSOSymbolizer)
    (perfMapCache : perf.PerfMapCache)
    (jitdumpCache : perf.JitdumpCache)
    (metrics : ConverterMetrics)
    (disableJITSymbolization : bool)
    (pid : Z)
    (mappings : list process.Mapping)
    (captureTime : time.Time)
    (periodNS : Z)
    (now : time.Time) : Converter :=
  let pprofMappings := ConvertToPprof mappings in
  let kernelMapping :=
    {| Mapping.ID := uint64 (uint64 (len pprofMappings) + 1);
       Mapping.Start := 0; Mapping.Limit := 0; Mapping.Offset := 0;
       Mapping.File := "[kernel.kallsyms]"; Mapping.BuildID := "" |} in
  let pprofMappings := pprofMappings ++ [kernelMapping] in
  {| pprof.addressNormalizer := addressNormalizer;
     pprof.ksym := ksym;
     pprof.vdsoSymbolizer := vdsoSymbolizer;
     pprof.perfMapCache := perfMapCache;
     pprof.jitdumpCache := jitdumpCache;
     pprof.metrics := metrics;
     pprof.disableJITSymbolization := disableJITSymbolization;

     cachedPerfMap := None;
     cachedPerfMapErr := None;
     cachedJitdump := ∅;
     cachedJitdumpErr := ∅;

     functionIndex := ∅;
     addrLocationIndex := ∅;
     perfmapLocationIndex := ∅;
     jitdumpLocationIndex := ∅;
     kernelLocationIndex := ∅;
     vdsoLocationIndex := ∅;

     pprof.pid := pid;
     pprof.mappings := mappings;
     pprof.kernelMapping := kernelMapping;

     result :=
       {| Profile.TimeNanos := time.UnixNano captureTime;
          Profile.DurationNanos := int64 (time.Since now captureTime);
          Profile.Period := periodNS;
          Profile.SampleType :=
            [ {| ValueType.Type_ := "samples"; ValueType.Unit := "count" |} ];
          Profile.PeriodType :=
            Some {| ValueType.Type_ := "cpu"; ValueType.Unit := "nanoseconds" |};
          Profile.Mapping := pprofMappings;
          Profile.Sample := [];
          Profile.Location := [];
          Profile.Function := [] |} |}.

(** *** [mappingForAddr] *)

Fixpoint mappingForAddr_from (i : Z) (mappings : list Mapping.t) (addr : Z) : Z :=
  match mappings with
  | [] => -1
  | m :: ms =>
      if (Mapping.Start m <=? addr)%Z && (addr <? Mapping.Limit m)%Z then i
      else mappingForAddr_from (i + 1) ms addr
  end.

Definition mappingForAddr (mappings : list Mapping.t) (addr : Z) : Z :=
  mappingForAddr_from 0 mappings addr.

(** *** [addFunction] and the [add...Location] methods *)

Definition addFunction (name : string) : M Converter Function.t :=
  let* c := get in
  match functionIndex c !! name with
  | Some f => ret f
  | None =>
      let f := {| Function.ID := uint64 (len (Profile.Function (result c)) + 1);
                  Function.Name := name |} in
      let* _ := modify (set_functionIndex (insert name f)) in
      let* _ := modify (set_result (append_Function f)) in
      ret f
  end.

Definition addKernelLocation (m : Mapping.t) (kernelSymbols : gmap Z string)
    (addr : Z) : M Converter Location.t :=
  let kernelSymbol :=
    match kernelSymbols !! addr with
    | Some s => s
    | None => "not found"
    end in
  let* c := get in
  match kernelLocationIndex c !! kernelSymbol with
  | Some l => ret l
  | None =>
      let id := uint64 (uint64 (len (Profile.Location (result c))) + 1) in
      let* f := addFunction kernelSymbol in
      let l := {| Location.ID := id; Location.Mapping := m; Location.Address := 0;
                  Location.Line := [ {| Line.Function := f |} ] |} in
      let* _ := modify (set_kernelLocationIndex (insert kernelSymbol l)) in
      let* _ := modify (set_result (append_Location l)) in
      ret l
  end.

Definition addVDSOLocation (processMapping : process.Mapping) (m : Mapping.t)
    (addr : Z) : M Converter Location.t :=
  let* c := get in
  let '(functionName, err) := Resolve (vdsoSymbolizer c) addr processMapping in
  let functionName := if nonnil err then "unknown" else functionName in
  match vdsoLocationIndex c !! functionName with
  | Some l => ret l
  | None =>
      let id := uint64 (uint64 (len (Profile.Location (result c))) + 1) in
      let* f := addFunction functionName in
      let l := {| Location.ID := id; Location.Mapping := m; Location.Address := 0;
                  Location.Line := [ {| Line.Function := f |} ] |} in
      let* _ := modify (set_vdsoLocationIndex (insert functionName l)) in
      let* _ := modify (set_result (append_Location l)) in
      ret l
  end.

Definition addAddrLocationNoNormalization (m : Mapping.t) (addr : Z) : M Converter Location.t :=
  let* c := get in
  match addrLocationIndex c !! addr with
  | Some l => ret l
  | None =>
      let l := {| Location.ID := uint64 (uint64 (len (Profile.Location (result c))) + 1);
                  Location.Mapping := m; Location.Address := addr;
                  Location.Line := [] |} in
      let* _ := modify (set_addrLocationIndex (insert addr l)) in
      let* _ := modify (set_result (append_Location l)) in
      ret l
  end.

Definition addAddrLocation (processMapping : process.Mapping) (m : Mapping.t)
    (addr : Z) : M Converter Location.t :=
  let* c := get in
  let '(normalizedAddress, err) :=
    profiler.Normalize (addressNormalizer c) processMapping addr in
  let normalizedAddress := if nonnil err then addr else normalizedAddress in
  addAddrLocationNoNormalization m normalizedAddress.

Definition perfMap : M Converter (option perf.Map * option error) :=
  let* c := get in
  if nonnil (cachedPerfMap c) || nonnil (cachedPerfMapErr c) then
    ret (cachedPerfMap c, cachedPerfMapErr c)
  else
    let* _ := modify (set_cachedPerfMap (perf.PerfMapForPID (perfMapCache c) (pid c))) in
    let* c := get in
    ret (cachedPerfMap c, cachedPerfMapErr c).

Definition addPerfMapLocation (m : Mapping.t) (addr : Z) : M Converter Location.t :=
  let* c := get in
  if disableJITSymbolization c then addAddrLocationNoNormalization m addr
  else
    let* '(perfMap, _) := perfMap in
    match perfMap with
    | None => addAddrLocationNoNormalization m addr
    | Some perfMap =>
        let '(symbol, err) := perf.Lookup perfMap addr in
        if nonnil err then addAddrLocationNoNormalization m addr
        else
          let* c := get in
          match perfmapLocationIndex c !! symbol with
          | Some l => ret l
          | None =>
              let id := uint64 (uint64 (len (Profile.Location (result c))) + 1) in
              let* f := addFunction symbol in
              let l := {| Location.ID := id; Location.Mapping := m;
                          Location.Address := 0;
                          Location.Line := [ {| Line.Function := f |} ] |} in
              let* _ := modify (set_perfmapLocationIndex (insert symbol l)) in
              let* _ := modify (set_result (append_Location l)) in
              ret l
          end
    end.

Definition jitdump (path : string) : M Converter (option perf.Map * option error) :=
  let* c := get in
  let jitdump := default None (cachedJitdump c !! path) in
  let jitdumpExists := nonnil (cachedJitdump c !! path) in
  let jitdumpErr := default None (cachedJitdumpErr c !! path) in
  let jitdumpErrExists := nonnil (cachedJitdumpErr c !! path) in
  if jitdumpExists || jitdumpErrExists then ret (jitdump, jitdumpErr)
  else
    let '(jitdump, err) := perf.JitdumpForPID (jitdumpCache c) (pid c) path in
    let* _ := modify (set_cachedJitdump path (jitdump, err)) in
    ret (jitdump, err).

Definition addJITDumpLocation (m : Mapping.t) (addr : Z) (path : string) : M Converter Location.t :=
  let* c := get in
  if disableJITSymbolization c then addAddrLocationNoNormalization m addr
  else
    let* '(jitdump, _) := jitdump path in
    match jitdump with
    | None => addAddrLocationNoNormalization m addr
    | Some jitdump =>
        let '(symbol, err) := perf.Lookup jitdump addr in
        if nonnil err then addAddrLocationNoNormalization m addr
        else
          let* c := get in
          match jitdumpLocationIndex c !! symbol with
          | Some l => ret l
          | None =>
              let id := uint64 (uint64 (len (Profile.Location (result c))) + 1) in
              let* f := addFunction symbol in
              let l := {| Location.ID := id; Location.Mapping := m;
                          Location.Address := 0;
                          Location.Line := [ {| Line.Function := f |} ] |} in
              let* _ := modify (set_jitdumpLocationIndex (insert symbol l)) in
              let* _ := modify (set_result (append_Location l)) in
              ret l
          end
    end.

(** *** [Convert] *)

(** The set of all kernel-stack addresses of the raw samples. *)
Definition kernelAddressesOf (rawData : list profile.RawSample) : gset Z :=
  foldl (λ acc sample,
           foldl (λ acc addr, acc ∪ {[addr]}) acc (profile.KernelStack sample))
        ∅ rawData.

(** The body of the loop over [sample.UserStack]; [locs] is
    [pprofSample.Location]. *)
Definition convertUserFrame (locs : list Location.t) (addr : Z) : M Converter (list Location.t) :=
  let* c := get in
  let mappingIndex := mappingForAddr (Profile.Mapping (result c)) addr in
  if (mappingIndex =? -1)%Z then
    let* _ := modify (set_metrics (Inc labelFrameDropReasonMappingNil)) in
    ret locs
  else
    let* processMapping := index (mappings c) mappingIndex in
    let* pprofMapping := index (Profile.Mapping (result c)) mappingIndex in
    if String.eqb (Mapping.File pprofMapping) "[vdso]" then
      let* l := addVDSOLocation processMapping pprofMapping addr in
      ret (locs ++ [l])
    else if String.eqb (Mapping.File pprofMapping) "jit" then
      let* l := addPerfMapLocation pprofMapping addr in
      ret (locs ++ [l])
    else if strings.HasSuffix (Mapping.File pprofMapping) ".dump" then
      let* l := addJITDumpLocation pprofMapping addr (Mapping.File pprofMapping) in
      ret (locs ++ [l])
    else
      let* l := addAddrLocation processMapping pprofMapping addr in
      ret (locs ++ [l]).

(** The body of the loop over [sample.KernelStack]. *)
Definition convertKernelFrame (kernelSymbols : gmap Z string) (locs : list Location.t)
    (addr : Z) : M Converter (list Location.t) :=
  let* c := get in
  let* l := addKernelLocation (kernelMapping c) kernelSymbols addr in
  ret (locs ++ [l]).

(** The body of the loop over [rawData]. *)
Definition convertSample (kernelSymbols : gmap Z string) (sample : profile.RawSample)
    : M Converter unit :=
  let value := [int64 (profile.Value sample)] in
  let* locs :=
    forRange (profile.KernelStack sample) (convertKernelFrame kernelSymbols) [] in
  let* locs := forRange (profile.UserStack sample) convertUserFrame locs in
  modify (set_result (append_Sample {| Sample.Value := value; Sample.Location := locs |})).

Definition Convert (rawData : list profile.RawSample) : M Converter (Profile.t * option error) :=
  let kernelAddresses := kernelAddressesOf rawData in
  let* c := get in
  let '(kernelSymbols, err) := ksym.Resolve (ksym c) kernelAddresses in
  let kernelSymbols := if nonnil err then ∅ else kernelSymbols in
  let* _ := forRange rawData (λ _ sample, convertSample kernelSymbols sample) tt in
  let* c := get in
  ret (result c, None).
End pprof.

(** ** The VDSO symbol cache ([pkg/vdso/vdso.go]) *)

Module vdso.
(** [NoopCache.Resolve]. *)
Definition NoopCache : pprof.VDSOSymbolizer :=
  {| pprof.Resolve := λ _ _, ("", None) |}.

(** An [elf.Symbol], as far as the symbol searcher uses it. *)
Record Symbol := {
  Name : string;
  Value : Z;
  Size : Z;
}.

(** An opened ELF file, by the outcome of [DynamicSymbols]. *)
Record ElfFile := {
  DynamicSymbols : list Symbol * option error;
}.

(** An object file of the pool, by the outcome of [ELF]; the file
    returned with an error is not looked at. *)
Record ObjectFile := {
  ELF : ElfFile * option error;
}.

(** What [NewCache] finds on the machine: the outcome of
    [metadata.KernelRelease] and of [objFilePool.Open] on each path. *)
Record Host := {
  KernelRelease : string * option error;
  Open : string → option ObjectFile * option error;
}.

Record Cache := {
  searcher : list Symbol;
  f : string;
}.

(** [fmt.Sprintf("/usr/lib/modules/%s/vdso/%s", kernelVersion, vdso)]. *)
Definition vdsoPath (kernelVersion vdso : string) : string :=
  "/usr/lib/modules/" +:+ kernelVersion +:+ "/vdso/" +:+ vdso.

(** The local variables of [NewCache] that its loop assigns, and the
    paths passed to [objFilePool.Open] so far. *)
Record probe := {
  obj : option ObjectFile;
  merr : option error;
  path : string;
  opened : list string;
}.

(** The loop over the candidate names; [break] ends it. *)
Fixpoint probeLoop (h : Host) (kernelVersion : string) (candidates : list string)
    (st : probe) : probe :=
  match candidates with
  | [] => st
  | vdso :: rest =>
      let path := vdsoPath kernelVersion vdso in
      let '(obj, err) := Open h path in
      match err with
      | Some err =>
          probeLoop h kernelVersion rest
            {| obj := obj;
               merr := multierr.Append (merr st)
                         (wrapError ("failed to open elf file: " +:+ path +:+ ", err: ") err);
               path := path;
               opened := opened st ++ [path] |}
      | None =>
          {| obj := obj; merr := merr st; path := path; opened := opened st ++ [path] |}
      end
  end.

(** [NewCache] returns the cache and the error; the third component is
    the list of paths it passed to [objFilePool.Open], in order. *)
Definition NewCache (h : Host) : option Cache * option error * list string :=
  let '(kernelVersion, err) := KernelRelease h in
  match err with
  | Some err => (None, Some err, [])
  | None =>
      let st := probeLoop h kernelVersion ["vdso.so"; "vdso64.so"]
                  {| obj := None; merr := None; path := ""; opened := [] |} in
      match obj st with
      | None => (None, merr st, opened st)
      | Some o =>
          let '(ef, err) := ELF o in
          match err with
          | Some err =>
              (None,
               Some (wrapError ("failed to get elf file: " +:+ path st +:+ ", err: ") err),
               opened st)
          | None =>
              let '(syms, err) := DynamicSymbols ef in
              match err with
              | Some err => (None, Some err, opened st)
              | None => (Some {| searcher := syms; f := path st |}, None, opened st)
              end
          end
      end
  end.
End vdso.

(** ** The caches of the debuginfo manager *)

Module burrow.
(** The [burrow.Cache] interface as the manager uses it
    ([GetIfPresent], [Put]), with its two implementations: the no-op
    cache of [cache.NewNoopCache] and the local cache of [burrow.New]
    with one expiry option.  An entry of the local cache is expired when
    its write (or access) time is more than the configured duration
    before the clock reading; a duration that is not positive never
    expires. *)
Inductive Policy :=
| ExpireAfterWrite (d : Z)
| ExpireAfterAccess (d : Z).

Record entry (V : Type) := {
  value : V;
  accessTime : Z;
  writeTime : Z;
}.
Arguments value {V}.
Arguments accessTime {V}.
Arguments writeTime {V}.

Inductive Cache (K V : Type) `{Countable K} :=
| NoopCache
| LocalCache (policy : Policy) (entries : gmap K (entry V)).
Arguments NoopCache {K V _ _}.
Arguments LocalCache {K V _ _}.

Definition New {K V} `{Countable K} (policy : Policy) : Cache K V :=
  LocalCache policy ∅.

Definition isExpired {V} (policy : Policy) (en : entry V) (now : Z) : bool :=
  match policy with
  | ExpireAfterWrite d => (0 <? d)%Z && (writeTime en <? now - d)%Z
  | ExpireAfterAccess d => (0 <? d)%Z && (accessTime en <? now - d)%Z
  end.

Definition GetIfPresent {K V} `{Countable K} (now : Z) (c : Cache K V) (k : K)
    : option V * Cache K V :=
  match c with
  | NoopCache => (None, c)
  | LocalCache policy entries =>
      match entries !! k with
      | None => (None, c)
      | Some en =>
          if isExpired policy en now then (None, LocalCache policy (delete k entries))
          else (Some (value en),
                LocalCache policy
                  (<[k := {| value := value en; accessTime := now;
                             writeTime := writeTime en |}]> entries))
      end
  end.

Definition Put {K V} `{Countable K} (now : Z) (c : Cache K V) (k : K) (v : V)
    : Cache K V :=
  match c with
  | NoopCache => c
  | LocalCache policy entries =>
      LocalCache policy
        (<[k := {| value := v; accessTime := now; writeTime := now |}]> entries)
  end.
End burrow.

(** ** The debuginfo manager ([pkg/debuginfo/manager.go])

    The methods are modelled as one goroutine runs them; what the other
    goroutines do shows in the answers of [env]: the semaphore gives its
    token or the error of the context, and a single-flight group has a
    flight in progress for the key, whose result the caller shares
    without running its function, or has none.  The goroutine that
    [Upload] starts runs up to its send on [errCh] before [Upload]
    returns; its deferred calls run after the send and are left to
    [Upload_deferred].  Spans, logs and duration histograms are left out.
    The state of the manager carries, besides its fields, the clock, the
    list of the calls made to the backend and the number of upload
    goroutines whose deferred calls are still to run. *)

Module debuginfo.
(** An [objectfile.ObjectFile], by the fields the manager reads. *)
#[local] Unset Elimination Schemes.
Inductive ObjectFile := mkObjectFile {
  Path : string;
  BuildID : string;
  Modtime : time.Time;
  Size : Z;
  DebugFile : option ObjectFile;
}.
#[local] Set Elimination Schemes.

(** [src.DebugFile = dbg]. *)
Definition set_DebugFile (dbg : option ObjectFile) (src : ObjectFile) : ObjectFile :=
  {| Path := Path src; BuildID := BuildID src; Modtime := Modtime src;
     Size := Size src; DebugFile := dbg |}.

Inductive UploadStrategy :=
| UPLOAD_STRATEGY_UNSPECIFIED
| UPLOAD_STRATEGY_GRPC
| UPLOAD_STRATEGY_SIGNED_URL
| UPLOAD_STRATEGY_other (n : Z).

Record UploadInstructions := {
  BuildId : string;
  UploadId : string;
  UploadStrategy_ : UploadStrategy;
  SignedUrl : string;
}.

(** The exchanges with the backend, as they are issued. *)
Inductive Call :=
| ShouldInitiateUploadCall (buildID : string)
| InitiateUploadCall (buildID hash : string) (size : Z)
| UploadCall (instructions : UploadInstructions) (body : string)
| HTTPPutCall (url : string) (size : Z) (body : string)
| MarkUploadFinishedCall (buildID uploadID : string).

(** Whether a call transfers the body of a debuginfo file. *)
Definition transfersBody (c : Call) : bool :=
  match c with
  | UploadCall _ _ | HTTPPutCall _ _ _ => true
  | _ => false
  end.

(** The debuginfo service and the HTTP endpoint of signed URLs.  Every
    method takes the calls made before, on which its answer may depend,
    and then the fields of its request.  [InitiateUpload] answers with the
    [UploadInstructions] pointer of its response; [Upload_] is the
    streaming upload of [NewGrpcUploadClient]; [http_Do] is
    [http.DefaultClient.Do] on a [PUT] request and answers with the status
    code and the body; [latency] is the time a call takes. *)
Record DebuginfoServiceClient := {
  ShouldInitiateUpload : list Call → string → bool * option error;
  InitiateUpload : list Call → string → string → Z → option UploadInstructions * option error;
  MarkUploadFinished : list Call → string → string → option error;
  Upload_ : list Call → UploadInstructions → string → option error;
  http_Do : list Call → string → Z → string → (Z * string) * option error;
  latency : list Call → Call → Z;
}.

Record ElfFile := {
  Section_ : string → option unit;
}.

(** The file system, the object-file pool, the finder, the extractor, the
    upload semaphore and the two single-flight groups, by the outcomes of
    the operations on them.  A reader is the content it yields, a file is
    its name; [Acquire] is [uploadTaskTokens.Acquire(ctx, 1)].  For a
    single-flight group and a key, [...Flight] is the flight in progress
    when [Do] is called, by the result it delivers ([None] when there is
    no flight in progress), and [...Dups] tells whether other callers
    join the flight that the caller starts. *)
Record Env := {
  Reader : ObjectFile → string * option error;
  ELF : ObjectFile → ElfFile * option error;
  hash_Reader : string → string * option error;
  Finder_Find : string → ObjectFile → string * option error;
  Pool_Open : string → option ObjectFile * option error;
  Pool_NewFile : string → option ObjectFile * option error;
  Extractor_Extract : string → string → option error;
  os_MkdirAll : string → option error;
  os_CreateTemp : string → string → string * option error;
  Seek : string → option error;
  http_NewRequest : string → option error;
  Acquire : option error;
  extractFlight : string → option (option ObjectFile * option error);
  extractDups : string → bool;
  uploadFlight : string → option (option error);
  uploadDups : string → bool;
}.

Definition hashCacheKey : Type := string * Z.

Record Manager := {
  env : Env;
  metrics : gmap (string * string) Z;
  debuginfoClient : DebuginfoServiceClient;
  stripDebuginfos : bool;
  tempDir : string;
  shouldInitiateCache : burrow.Cache string unit;
  hashCache : burrow.Cache hashCacheKey string;
  uploadTimeoutDuration : Z;
  (** the clock and the calls made to the backend so far *)
  clock : Z;
  calls : list Call;
  (** the goroutines of [Upload] that have sent their result on [errCh]
      and have their deferred calls still to run *)
  finishing : nat;
}.

Definition set_metrics (f : gmap (string * string) Z → gmap (string * string) Z)
    (di : Manager) : Manager :=
  {| env := env di; metrics := f (metrics di); debuginfoClient := debuginfoClient di;
     stripDebuginfos := stripDebuginfos di; tempDir := tempDir di;
     shouldInitiateCache := shouldInitiateCache di; hashCache := hashCache di;
     uploadTimeoutDuration := uploadTimeoutDuration di;
     clock := clock di; calls := calls di; finishing := finishing di |}.

Definition set_shouldInitiateCache (c : burrow.Cache string unit) (di : Manager) : Manager :=
  {| env := env di; metrics := metrics di; debuginfoClient := debuginfoClient di;
     stripDebuginfos := stripDebuginfos di; tempDir := tempDir di;
     shouldInitiateCache := c; hashCache := hashCache di;
     uploadTimeoutDuration := uploadTimeoutDuration di;
     clock := clock di; calls := calls di; finishing := finishing di |}.

Definition set_hashCache (c : burrow.Cache hashCacheKey string) (di : Manager) : Manager :=
  {| env := env di; metrics := metrics di; debuginfoClient := debuginfoClient di;
     stripDebuginfos := stripDebuginfos di; tempDir := tempDir di;
     shouldInitiateCache := shouldInitiateCache di; hashCache := c;
     uploadTimeoutDuration := uploadTimeoutDuration di;
     clock := clock di; calls := calls di; finishing := finishing di |}.

(** A call to the backend is logged and takes its time. *)
Definition issue (c : Call) (di : Manager) : Manager :=
  {| env := env di; metrics := metrics di; debuginfoClient := debuginfoClient di;
     stripDebuginfos := stripDebuginfos di; tempDir := tempDir di;
     shouldInitiateCache := shouldInitiateCache di; hashCache := hashCache di;
     uploadTimeoutDuration := uploadTimeoutDuration di;
     clock := (clock di + Z.max 0 (latency (debuginfoClient di) (calls di) c))%Z;
     calls := calls di ++ [c]; finishing := finishing di |}.

Definition set_finishing (n : nat) (di : Manager) : Manager :=
  {| env := env di; metrics := metrics di; debuginfoClient := debuginfoClient di;
     stripDebuginfos := stripDebuginfos di; tempDir := tempDir di;
     shouldInitiateCache := shouldInitiateCache di; hashCache := hashCache di;
     uploadTimeoutDuration := uploadTimeoutDuration di;
     clock := clock di; calls := calls di; finishing := n |}.

(** [metric.WithLabelValues(label).Add(n)]; [Inc] and [Dec] add 1 and -1.
    A metric without labels has the label [""]. *)
Definition Add (metric label : string) (n : Z) : M Manager unit :=
  modify (set_metrics (λ m, <[(metric, label) := (default 0 (m !! (metric, label)) + n)%Z]> m)).

(** Modelled from the spec: the label values are declared in a file that
    is not among the sources; the spec writes
    [ensure_uploaded_requests{shared}], [uploaded{success}],
    [extracted{result=fail}]. *)
Definition lvShared : string := "shared".
Definition lvFail : string := "fail".
Definition lvSuccess : string := "success".
Definition lvExtractOrFind : string := "extract_or_find".
Definition lvUpload : string := "upload".

(** *** [New] *)

Definition Minute : Z := 60 * 1000000000.

(** The logger, the tracer, the registry, the pool, the debug directories
    of the finder and [uploadMaxParallel], which sizes the semaphore, are
    behind [env]; [now] is the clock at construction. *)

Definition New (env : Env) (debuginfoClient : DebuginfoServiceClient)
    (uploadTimeout : Z) (cacheDisabled : bool) (cacheTTL : Z)
    (stripDebuginfos : bool) (tempDir : string) (now : Z) : Manager :=
  let shouldInitiateCache :=
    if negb cacheDisabled then burrow.New (burrow.ExpireAfterWrite cacheTTL)
    else burrow.NoopCache in
  let hashCache :=
    if negb cacheDisabled then burrow.New (burrow.ExpireAfterAccess (5 * Minute))
    else burrow.NoopCache in
  {| debuginfo.env := env; metrics := ∅;
     debuginfo.debuginfoClient := debuginfoClient;
     debuginfo.stripDebuginfos := stripDebuginfos;
     debuginfo.tempDir := tempDir;
     shouldInitiateCache := shouldInitiateCache;
     hashCache := hashCache;
     uploadTimeoutDuration := uploadTimeout;
     clock := now; calls := []; finishing := 0 |}.

(** *** [shouldInitiate] *)

Definition shouldInitiate (buildID filepath : string) : M Manager bool :=
  let* di := get in
  let '(v, cache) := burrow.GetIfPresent (clock di) (shouldInitiateCache di) buildID in
  let* _ := modify (set_shouldInitiateCache cache) in
  if nonnil v then ret false
  else
    let '(shouldInitiateResp, err) :=
      ShouldInitiateUpload (debuginfoClient di) (calls di) buildID in
    let* _ := modify (issue (ShouldInitiateUploadCall buildID)) in
    if nonnil err then ret true
    else if negb shouldInitiateResp then
      let* di := get in
      let* _ := modify (set_shouldInitiateCache
                          (burrow.Put (clock di) (shouldInitiateCache di) buildID tt)) in
      ret false
    else ret true.

(** *** [ExtractOrFind], [Extract], [extract] *)

(** [singleflight.Group.Do(key, fn)].  When a flight is in progress for
    the key, the caller waits for it and shares its result: [fn] does not
    run and [shared] is true.  Otherwise the caller starts a flight and
    runs [fn]; [shared] tells whether other callers joined.  [flight] and
    [dups] are the answers of the group for the key.  [Forget] only
    changes what later callers meet. *)
Definition singleflight_Do {A} (flight : option A) (dups : bool) (fn : M Manager A)
    : M Manager (A * bool) :=
  match flight with
  | Some r => ret (r, true)
  | None => let* r := fn in ret (r, dups)
  end.

Definition hasTextSection (ef : ElfFile) : bool := nonnil (Section_ ef ".text").

(** The body of [extract], before its deferred metric update. *)
Definition extract_body (di : Manager) (buildID : string) (src : ObjectFile)
    : option ObjectFile * option error :=
  match os_MkdirAll (env di) (tempDir di) with
  | Some err => (None, Some (wrapError "failed to create temp dir: " err))
  | None =>
      let '(f, err) := os_CreateTemp (env di) (tempDir di) buildID in
      match err with
      | Some err => (None, Some (wrapError "failed to create temp file: " err))
      | None =>
          let '(r, err) := Reader (env di) src in
          match err with
          | Some err =>
              (None, Some (wrapError "failed to obtain reader for object file: " err))
          | None =>
              match Extractor_Extract (env di) f r with
              | Some err =>
                  (None, Some (wrapError "failed to extract debug information: " err))
              | None =>
                  match Seek (env di) f with
                  | Some err =>
                      (None,
                       Some (wrapError "failed to seek to the beginning of the file: " err))
                  | None =>
                      let '(debuginfoFile, err) := Pool_NewFile (env di) f in
                      match err with
                      | Some err =>
                          (None, Some (wrapError "failed to open debuginfo file: " err))
                      | None => (debuginfoFile, None)
                      end
                  end
              end
          end
      end
  end.

Definition extract (buildID : string) (src : ObjectFile)
    : M Manager (option ObjectFile * option error) :=
  let* di := get in
  let '(dbg, err) := extract_body di buildID src in
  let* _ := Add "extracted" (if nonnil err then lvFail else lvSuccess) 1 in
  ret (dbg, err).

(** Every flight of [extractSingleflight] is an [extract], whose value is
    an [*objectfile.ObjectFile]: the type assertion on [val] holds. *)
Definition Extract (src : ObjectFile) : M Manager (option ObjectFile * option error) :=
  let buildID := BuildID src in
  let* di := get in
  let '(ef, err) := ELF (env di) src in
  match err with
  | Some err => ret (None, Some (wrapError "failed to get ELF file: " err))
  | None =>
      let binaryHasTextSection := hasTextSection ef in
      if stripDebuginfos di && binaryHasTextSection then
        let* '((val, err), shared) :=
          singleflight_Do (extractFlight (env di) buildID) (extractDups (env di) buildID)
            (extract buildID src) in
        match err with
        | Some err => ret (None, Some err)
        | None => ret (val, None)
        end
      else ret (Some src, None)
  end.

Definition ExtractOrFind (root : string) (src : ObjectFile)
    : M Manager (option ObjectFile * option error) :=
  let* di := get in
  let '(dbgInfoPath, err) := Finder_Find (env di) root src in
  let* found :=
    if negb (nonnil err) && negb (String.eqb dbgInfoPath "") then
      let* _ := Add "found" lvSuccess 1 in
      let '(dbgInfoFile, err) := Pool_Open (env di) dbgInfoPath in
      if negb (nonnil err) then ret (Some dbgInfoFile) else ret None
    else
      let* _ := Add "found" lvFail 1 in
      ret None in
  match found with
  | Some dbgInfoFile => ret (dbgInfoFile, None)
  | None =>
      let* '(dbgInfoFile, err) := Extract src in
      match err with
      | Some err => ret (None, Some (wrapError "failed to strip debuginfo: " err))
      | None => ret (dbgInfoFile, None)
      end
  end.

(** *** [Upload], [upload], [uploadFile] *)

Definition uploadViaGRPC (uploadInstructions : UploadInstructions) (r : string)
    : M Manager (option error) :=
  let* di := get in
  let err := Upload_ (debuginfoClient di) (calls di) uploadInstructions r in
  let* _ := modify (issue (UploadCall uploadInstructions r)) in
  ret err.

Definition uploadViaSignedURL (url : string) (r : string) (size : Z)
    : M Manager (option error) :=
  let* di := get in
  match http_NewRequest (env di) url with
  | Some err => ret (Some (wrapError "create request: " err))
  | None =>
      let '((StatusCode, data), err) := http_Do (debuginfoClient di) (calls di) url size r in
      let* _ := modify (issue (HTTPPutCall url size r)) in
      match err with
      | Some err => ret (Some (wrapError "do upload request: " err))
      | None =>
          if negb (StatusCode ÷ 100 =? 2)%Z then
            (* the message of the source also prints the status code *)
            ret (Some (errorString ("unexpected status code, msg: " +:+ data)))
          else ret None
      end
  end.

(** A nil [uploadInstructions] is dereferenced: a panic. *)
Definition uploadFile (uploadInstructions : option UploadInstructions) (r : string)
    (size : Z) : M Manager (option error) :=
  match uploadInstructions with
  | None => panic
  | Some uploadInstructions =>
      match UploadStrategy_ uploadInstructions with
      | UPLOAD_STRATEGY_GRPC => uploadViaGRPC uploadInstructions r
      | UPLOAD_STRATEGY_SIGNED_URL =>
          uploadViaSignedURL (SignedUrl uploadInstructions) r size
      | UPLOAD_STRATEGY_UNSPECIFIED =>
          ret (Some (errorString
            "upload strategy unspecified, must set one of UPLOAD_STRATEGY_GRPC or UPLOAD_STRATEGY_SIGNED_URL"))
      | UPLOAD_STRATEGY_other _ => ret (Some (errorString "unknown upload strategy"))
      end
  end.

(** The hash of the debuginfo file, from the hash cache or computed and
    stored there: the [if v, ok := di.hashCache.GetIfPresent(key)] block
    of [upload]. *)
Definition hashOf (dbg : ObjectFile) : M Manager (string * option error) :=
  let key : hashCacheKey := (BuildID dbg, time.Unix (Modtime dbg)) in
  let* di := get in
  let '(v, cache) := burrow.GetIfPresent (clock di) (hashCache di) key in
  let* _ := modify (set_hashCache cache) in
  match v with
  | Some h => ret (h, None)
  | None =>
      let '(r, err) := Reader (env di) dbg in
      match err with
      | Some err => ret ("", Some (wrapError "failed to obtain reader for object file: " err))
      | None =>
          let '(h, err) := hash_Reader (env di) r in
          match err with
          | Some err => ret ("", Some (wrapError "hash debuginfos: " err))
          | None =>
              let* di := get in
              let* _ := modify (set_hashCache (burrow.Put (clock di) (hashCache di) key h)) in
              ret (h, None)
          end
      end
  end.

Definition upload (dbg : ObjectFile) : M Manager (option error) :=
  let buildID := BuildID dbg in
  let* shouldInitiateUpload := shouldInitiate buildID (Path dbg) in
  if negb shouldInitiateUpload then ret None
  else
    let* _ := Add "uploadAttempts" "" 1 in
    let size := Size dbg in
    let* '(h, err) := hashOf dbg in
    match err with
    | Some err => ret (Some err)
    | None =>
        let* di := get in
        let '(initiateResp, err) :=
          InitiateUpload (debuginfoClient di) (calls di) buildID h size in
        let* _ := modify (issue (InitiateUploadCall buildID h size)) in
        match err with
        | Some err =>
            match status.FromError err with
            | Some code =>
                if codes.eqb code codes.AlreadyExists then
                  let* di := get in
                  let* _ := modify (set_shouldInitiateCache
                              (burrow.Put (clock di) (shouldInitiateCache di) buildID tt)) in
                  ret None
                else ret (Some (wrapError "initiate upload: " err))
            | None => ret (Some (wrapError "initiate upload: " err))
            end
        | None =>
            let* di := get in
            let '(r, err) := Reader (env di) dbg in
            match err with
            | Some err =>
                ret (Some (wrapError "failed to obtain reader for object file: " err))
            | None =>
                let* err := uploadFile initiateResp r size in
                match err with
                | Some err => ret (Some (wrapError "upload debuginfo: " err))
                | None =>
                    match initiateResp with
                    | None => panic
                    | Some uploadInstructions =>
                        let* di := get in
                        let err := MarkUploadFinished (debuginfoClient di) (calls di)
                                     buildID (UploadId uploadInstructions) in
                        let* _ := modify (issue (MarkUploadFinishedCall buildID
                                                   (UploadId uploadInstructions))) in
                        match err with
                        | Some err => ret (Some (wrapError "mark upload finished: " err))
                        | None => ret None
                        end
                    end
                end
            end
        end
    end.

(** [Upload] returns what its goroutine sends on [errCh].  The calls
    that the goroutine defers after it has its token,
    [uploadTaskTokens.Release(1)] and [uploadInflight.Dec()], run after
    the send: when [Upload] returns they are still to run, and the
    goroutine is counted in [finishing]. *)
Definition Upload (dbg : ObjectFile) : M Manager (option error) :=
  let* _ := Add "uploadRequests" "" 1 in
  let buildID := BuildID dbg in
  let* di := get in
  match Acquire (env di) with
  | Some err => ret (Some (wrapError "failed to acquire upload task token: " err))
  | None =>
      let* _ := Add "uploadInflight" "" 1 in
      let* '(err, shared) :=
        singleflight_Do (uploadFlight (env di) buildID) (uploadDups (env di) buildID)
          (upload dbg) in
      let* _ := if shared : bool then Add "uploaded" lvShared 1 else ret tt in
      let* _ := Add "uploaded" (if nonnil err then lvFail else lvSuccess) 1 in
      let* di := get in
      let* _ := modify (set_finishing (S (finishing di))) in
      ret err
  end.


(** *** [EnsureUploaded]

    The method returns the error and, as it assigns [src.DebugFile], the
    object file [src] as it leaves it. *)
Definition EnsureUploaded (root : string) (src : ObjectFile)
    : M Manager (option error * ObjectFile) :=
  let* shouldInitiateUpload := shouldInitiate (BuildID src) (Path src) in
  if negb shouldInitiateUpload then
    let* _ := Add "ensureUploadedRequests" lvShared 1 in
    ret (None, src)
  else
    let* '(err, src) :=
      let* '(dbg, err, src) :=
        match DebugFile src with
        | Some dbg => ret (Some dbg, None, src)
        | None =>
            let* '(dbg, err) := ExtractOrFind root src in
            match err with
            | Some err =>
                let* _ := Add "ensureUploadedErrors" lvExtractOrFind 1 in
                ret (None, Some err, src)
            | None => ret (dbg, None, set_DebugFile dbg src)
            end
        end in
      match err, dbg with
      | Some err, _ => ret (Some err, src)
      | None, None => panic
      | None, Some dbg =>
          let* err := Upload dbg in
          match err with
          | Some err =>
              let* _ := Add "ensureUploadedErrors" lvUpload 1 in
              ret (Some err, src)
          | None => ret (None, src)
          end
      end in
    let* _ := Add "ensureUploadedRequests" (if nonnil err then lvFail else lvSuccess) 1 in
    ret (err, src).
End debuginfo.

(** ** Vocabulary of the statements about [Convert] *)

Module ConvertSpec.
Import pprofprofile pprof.

Definition locs (c : Converter) : list Location.t := Profile.Location (result c).
Definition funcs (c : Converter) : list Function.t := Profile.Function (result c).

(** The dedup classes of the data model and their keys. *)
Inductive DedupKey :=
| KernelKey (symbol : string)
| VDSOKey (functionName : string)
| PerfMapKey (symbol : string)
| JITDumpKey (symbol : string)
| AddrKey (addr : Z).

(** The index of the converter that a key is looked up in. *)
Definition indexOf (c : Converter) (k : DedupKey) : option Location.t :=
  match k with
  | KernelKey s => kernelLocationIndex c !! s
  | VDSOKey s => vdsoLocationIndex c !! s
  | PerfMapKey s => perfmapLocationIndex c !! s
  | JITDumpKey s => jitdumpLocationIndex c !! s
  | AddrKey a => addrLocationIndex c !! a
  end.

(** [c.xIndex[key] = l] for the index of the key's class. *)
Definition insertIndex (k : DedupKey) (l : Location.t) : Converter → Converter :=
  match k with
  | KernelKey s => set_kernelLocationIndex (insert s l)
  | VDSOKey s => set_vdsoLocationIndex (insert s l)
  | PerfMapKey s => set_perfmapLocationIndex (insert s l)
  | JITDumpKey s => set_jitdumpLocationIndex (insert s l)
  | AddrKey a => set_addrLocationIndex (insert a l)
  end.

(** The class and key of a Location, read off the Location: without a
    line it is address-only; with a line it belongs to the path that the
    file of its mapping selects in [Convert], and to the kernel path when
    the file selects none (the file of the kernel mapping). *)
Definition keyOf (l : Location.t) : DedupKey :=
  match Location.Line l with
  | [] => AddrKey (Location.Address l)
  | ln :: _ =>
      let name := Function.Name (Line.Function ln) in
      let file := Mapping.File (Location.Mapping l) in
      if String.eqb file "[vdso]" then VDSOKey name
      else if String.eqb file "jit" then PerfMapKey name
      else if strings.HasSuffix file ".dump" then JITDumpKey name
      else KernelKey name
  end.

(** The symbols that [Convert] works with: the answer of the resolver,
    or the empty map when it fails. *)
Definition kernelSymbolsOf (c : Converter) (rawData : list profile.RawSample)
    : gmap Z string :=
  let '(kernelSymbols, err) := ksym.Resolve (ksym c) (kernelAddressesOf rawData) in
  if nonnil err then ∅ else kernelSymbols.

(** The symbol of a kernel address, as [addKernelLocation] picks it. *)
Definition kernelSymbolOf (kernelSymbols : gmap Z string) (addr : Z) : string :=
  default "not found" (kernelSymbols !! addr).

(** A mapping contains the address in its half-open range. *)
Definition contains (m : Mapping.t) (addr : Z) : bool :=
  (Mapping.Start m <=? addr)%Z && (addr <? Mapping.Limit m)%Z.

(** Some mapping of the table contains the address. *)
Definition mapped (ms : list Mapping.t) (addr : Z) : bool :=
  existsb (λ m, contains m addr) ms.

(** The number of addresses of a stack that no mapping contains. *)
Definition unmapped (ms : list Mapping.t) (stack : list Z) : nat :=
  length (filter (λ a, mapped ms a = false) stack).

(** The number of frames of the raw samples. *)
Definition frames (rawData : list profile.RawSample) : nat :=
  sum_list_with (λ s, length (profile.KernelStack s) + length (profile.UserStack s)) rawData.

(** The value of a counter of the frame-drop vector. *)
Definition frameDropOf (c : Converter) (label : string) : nat :=
  default 0 (frameDrop (metrics c) !! label).

(** The ids of a table are 1, 2, 3, ... in the order of the table. *)
Definition dense {A} (id : A → Z) (table : list A) : Prop :=
  ∀ i x, table !! i = Some x → id x = (Z.of_nat i + 1)%Z.

(** The invariant of the converter's tables and indexes. *)
Record Inv (c : Converter) : Prop := {
  inv_func_ids : ∀ i f, funcs c !! i = Some f → Function.ID f = uint64 (Z.of_nat i + 1);
  inv_func_index : ∀ n f, functionIndex c !! n = Some f → f ∈ funcs c ∧ Function.Name f = n;
  inv_loc_ids : ∀ i l,
    locs c !! i = Some l → Location.ID l = uint64 (uint64 (Z.of_nat i) + 1);
  inv_index_sound : ∀ k l, indexOf c k = Some l → l ∈ locs c ∧ keyOf l = k;
  inv_index_complete : ∀ l, l ∈ locs c → indexOf c (keyOf l) = Some l;
  inv_keys_nodup : NoDup (keyOf <$> locs c);
  inv_loc_mapping : ∀ l, l ∈ locs c → Location.Mapping l ∈ Profile.Mapping (result c);
  inv_loc_funcs : ∀ l ln,
    l ∈ locs c → ln ∈ Location.Line l → Line.Function ln ∈ funcs c;
  inv_loc_line : ∀ l, l ∈ locs c → length (Location.Line l) ≤ 1;
  inv_kernel : ∀ l s,
    l ∈ locs c → keyOf l = KernelKey s → Location.Mapping l = kernelMapping c;
  inv_samples : ∀ s l,
    s ∈ Profile.Sample (result c) → l ∈ Sample.Location s → l ∈ locs c;
}.

(** What [NewConverter] sets up and [Convert] never changes. *)
Record Config (c : Converter) : Prop := {
  cfg_mapping : Profile.Mapping (result c) = ConvertToPprof (mappings c) ++ [kernelMapping c];
  cfg_kernel_file : Mapping.File (kernelMapping c) = "[kernel.kallsyms]";
  cfg_kernel_start : Mapping.Start (kernelMapping c) = 0%Z;
  cfg_kernel_limit : Mapping.Limit (kernelMapping c) = 0%Z;
}.

(** [c'] is [c] after some steps of [Convert]: the collaborators and the
    fixed part of the profile are those of [c], the tables and the
    indexes have grown. *)
Record ext (c c' : Converter) : Prop := {
  ext_addressNormalizer : addressNormalizer c' = addressNormalizer c;
  ext_ksym : ksym c' = ksym c;
  ext_vdsoSymbolizer : vdsoSymbolizer c' = vdsoSymbolizer c;
  ext_perfMapCache : perfMapCache c' = perfMapCache c;
  ext_jitdumpCache : jitdumpCache c' = jitdumpCache c;
  ext_disableJIT : disableJITSymbolization c' = disableJITSymbolization c;
  ext_pid : pid c' = pid c;
  ext_mappings : mappings c' = mappings c;
  ext_kernelMapping : kernelMapping c' = kernelMapping c;
  ext_Mapping : Profile.Mapping (result c') = Profile.Mapping (result c);
  ext_TimeNanos : Profile.TimeNanos (result c') = Profile.TimeNanos (result c);
  ext_DurationNanos : Profile.DurationNanos (result c') = Profile.DurationNanos (result c);
  ext_Period : Profile.Period (result c') = Profile.Period (result c);
  ext_SampleType : Profile.SampleType (result c') = Profile.SampleType (result c);
  ext_PeriodType : Profile.PeriodType (result c') = Profile.PeriodType (result c);
  ext_locs : locs c `prefix_of` locs c';
  ext_funcs : funcs c `prefix_of` funcs c';
  ext_samples : Profile.Sample (result c) `prefix_of` Profile.Sample (result c');
  ext_index : ∀ k l, indexOf c k = Some l → indexOf c' k = Some l;
}.

(** One frame: [ext], with no sample added, no counter touched, and at
    most one Location and one Function added. *)
Record frame (c c' : Converter) : Prop := {
  frame_ext : ext c c';
  frame_metrics : metrics c' = metrics c;
  frame_Sample : Profile.Sample (result c') = Profile.Sample (result c);
  frame_locs : length (locs c') ≤ S (length (locs c));
  frame_funcs : length (funcs c') ≤ S (length (funcs c));
}.

(** [n] frames: [ext], with at most [n] Locations and [n] Functions added. *)
Definition run (n : nat) (c c' : Converter) : Prop :=
  ext c c' ∧ length (locs c') ≤ length (locs c) + n ∧
  length (funcs c') ≤ length (funcs c) + n.

(** A Location with one line, as the four symbolizing paths build it. *)
Definition symbolized (id : Z) (m : Mapping.t) (f : Function.t) : Location.t :=
  {| Location.ID := id; Location.Mapping := m; Location.Address := 0;
     Location.Line := [ {| Line.Function := f |} ] |}.

(** What every [add...Location] method guarantees for a user frame: it
    returns, keeps the invariant, and its Location is the entry of some
    key. *)
Definition added (c : Converter) (m : M Converter Location.t) : Prop :=
  ∃ l c', m c = Some (l, c') ∧ Inv c' ∧ frame c c' ∧ ∃ k, indexOf c' k = Some l.

(** A memo ([perfMap], [jitdump]) returns and changes neither the tables
    nor the indexes. *)
Definition memo {A} (c : Converter) (m : M Converter A) : Prop :=
  ∃ a c', m c = Some (a, c') ∧ (Inv c → Inv c') ∧ frame c c' ∧
          disableJITSymbolization c' = disableJITSymbolization c ∧
          Profile.Mapping (result c') = Profile.Mapping (result c) ∧
          locs c' = locs c ∧ funcs c' = funcs c.

(** How a sample of the profile relates to its raw sample, in a
    converter state [c]: the value; one Location per kernel frame, the
    entry of the frame's symbol; one Location per user frame that a
    mapping of [ms] contains. *)
Definition SampleOK (c : Converter) (kernelSymbols : gmap Z string) (ms : list Mapping.t)
    (raw : profile.RawSample) (s : Sample.t) : Prop :=
  Sample.Value s = [int64 (profile.Value raw)] ∧
  ∃ kls uls, Sample.Location s = kls ++ uls ∧
    Forall2 (λ a l, indexOf c (KernelKey (kernelSymbolOf kernelSymbols a)) = Some l)
            (profile.KernelStack raw) kls ∧
    length uls + unmapped ms (profile.UserStack raw) = length (profile.UserStack raw) ∧
    Forall (λ l, ∃ k, indexOf c k = Some l) uls.

(** A kernel Location for a symbol: backed by the kernel mapping [km],
    with one line whose function has the symbol as its name. *)
Definition kernelLocationFor (km : Mapping.t) (symbol : string) (l : Location.t) : Prop :=
  Location.Mapping l = km ∧
  ∃ f, Location.Line l = [ {| Line.Function := f |} ] ∧ Function.Name f = symbol.

#[global] Instance DedupKey_eq_dec : EqDecision DedupKey.
Proof. solve_decision. Defined.

#[global] Instance Mapping_eq_dec : EqDecision Mapping.t.
Proof. solve_decision. Defined.

#[global] Instance Function_eq_dec : EqDecision Function.t.
Proof. solve_decision. Defined.

#[global] Instance Line_eq_dec : EqDecision Line.t.
Proof. solve_decision. Defined.

#[global] Instance kernelLocationFor_dec km symbol l :
  Decision (kernelLocationFor km symbol l).
Proof.
  unfold kernelLocationFor.
  destruct (Location.Line l) as [|[f] [|]].
  - right. by intros (_ & f & ? & _).
  - destruct (decide (Location.Mapping l = km)) as [Hm|Hm];
      [|right; by intros [? _]].
    destruct (decide (Function.Name f = symbol)) as [Hf|Hf].
    + left. split; [done|]. by exists f.
    + right. intros (_ & f' & [= <-] & ?). done.
  - right. by intros (_ & f' & ? & _).
Defined.
End ConvertSpec.

(** ** A conversion to run the statements on

    A process with a native, a VDSO, a JIT and a jitdump mapping; the
    resolver knows one kernel symbol.  The first sample has a user frame
    outside every mapping; the second has a value above 2^63. *)

Module Scenario.
Import pprofprofile pprof.

Definition addressNormalizer : profiler.AddressNormalizer :=
  {| profiler.Normalize := λ m addr,
       if (process.Start m <=? addr)%Z && (addr <? process.Limit m)%Z
       then (uint64 (addr - process.Start m + process.Offset m), None)
       else (0%Z, Some (errorString "address out of range")) |}.

Definition ksym : ksym.Ksym :=
  {| ksym.Resolve := λ _, ({[ 0xffffffff81000000%Z := "do_syscall_64" ]}, None) |}.

Definition failingKsym : ksym.Ksym :=
  {| ksym.Resolve := λ _, (∅, Some (errorString "kallsyms unreadable")) |}.

Definition vdsoSymbolizer : VDSOSymbolizer :=
  {| Resolve := λ addr m,
       if (addr - process.Start m <? 0x100)%Z then ("__vdso_clock_gettime", None)
       else ("", Some (errorString "not found")) |}.

Definition perfMap : perf.Map :=
  {| perf.Lookup := λ addr,
       if (addr <? 0x600800)%Z then ("jitted_loop", None)
       else ("", Some (errorString "no symbol found")) |}.

Definition perfMapCache : perf.PerfMapCache :=
  {| perf.PerfMapForPID := λ _, (Some perfMap, None) |}.

Definition jitdumpCache : perf.JitdumpCache :=
  {| perf.JitdumpForPID := λ _ _, (None, Some (errorString "no jitdump")) |}.

Definition metrics : ConverterMetrics := {| frameDrop := ∅ |}.

Definition mappings : list process.Mapping :=
  [ {| process.Start := 0x400000; process.Limit := 0x500000; process.Offset := 0;
       process.File := "/usr/bin/app"; process.BuildID := "2d3a" |};
    {| process.Start := 0x600000; process.Limit := 0x601000; process.Offset := 0;
       process.File := "jit"; process.BuildID := "" |};
    {| process.Start := 0x700000; process.Limit := 0x701000; process.Offset := 0;
       process.File := "/tmp/jit-7.dump"; process.BuildID := "" |};
    {| process.Start := 0x7f0000000000; process.Limit := 0x7f0000100000;
       process.Offset := 0; process.File := "[vdso]"; process.BuildID := "" |} ].

Definition rawData : list profile.RawSample :=
  [ {| profile.UserStack := [0x401234; 0xdeadbeef; 0x7f0000000010; 0x600010; 0x700010];
       profile.KernelStack := [0xffffffff81000000; 0xffffffff81000040];
       profile.Value := 1 |};
    {| profile.UserStack := [0x401234; 0x600900];
       profile.KernelStack := [0xffffffff81000000];
       profile.Value := 2 ^ 64 - 1 |} ]%Z.

(** The capture ended at 1000 ns and the converter is built at 1500 ns. *)
Definition converter : Converter :=
  NewConverter addressNormalizer ksym vdsoSymbolizer perfMapCache jitdumpCache metrics
    false 42 mappings 1000%Z 10000000 1500%Z.

(** The same process with a resolver that fails and JIT symbolization
    disabled. *)
Definition degradedConverter : Converter :=
  NewConverter addressNormalizer failingKsym vdsoSymbolizer perfMapCache jitdumpCache metrics
    true 42 mappings 1000%Z 10000000 1500%Z.

(** What a run of [Convert] produced: per sample the ids of its Locations
    and its value; per Location its id, the id of its mapping and its
    key; the names of the functions; the [mapping_nil] counter; whether
    an error was returned. *)
Definition summary (r : option (Profile.t * option error * Converter)) :=
  (λ '(p, err, c'),
     ((λ s, (Location.ID <$> Sample.Location s, Sample.Value s)) <$> Profile.Sample p,
      (λ l, (Location.ID l, Mapping.ID (Location.Mapping l), ConvertSpec.keyOf l))
        <$> Profile.Location p,
      Function.Name <$> Profile.Function p,
      ConvertSpec.frameDropOf c' labelFrameDropReasonMappingNil,
      nonnil err)) <$> r.
End Scenario.

(** ** Vocabulary of the statements about [vdso.NewCache] *)

Module VdsoSpec.
Import vdso.

(** The first of the two candidate paths that opens, with its object
    file: the second is tried only when opening the first fails. *)
Definition firstThatOpens (h : Host) (p1 p2 : string) : option (string * ObjectFile) :=
  match Open h p1 with
  | (o, None) => (λ o, (p1, o)) <$> o
  | (_, Some _) =>
      match Open h p2 with
      | (o, None) => (λ o, (p2, o)) <$> o
      | (_, Some _) => None
      end
  end.
End VdsoSpec.

(** ** Three machines to run [vdso.NewCache] on

    On [host0] the VDSO files lie directly under the modules directory of
    the release; on [host1] only [vdso64.so] is installed, in the [vdso]
    directory; on [host2] [vdso.so] is installed there and has no readable
    dynamic symbols. *)

Module VdsoScenario.
Import vdso.

Definition host0 : Host :=
  {| KernelRelease := ("6.1.0-13-amd64", None);
     Open := λ path,
       if String.eqb path "/usr/lib/modules/6.1.0-13-amd64/vdso.so"
          || String.eqb path "/usr/lib/modules/6.1.0-13-amd64/vdso64.so"
       then (Some {| ELF := ({| DynamicSymbols := ([], None) |}, None) |}, None)
       else (None, Some (errorString "no such file or directory")) |}.

Definition host1 : Host :=
  {| KernelRelease := ("6.1.0-13-amd64", None);
     Open := λ path,
       if String.eqb path "/usr/lib/modules/6.1.0-13-amd64/vdso/vdso64.so"
       then (Some {| ELF := ({| DynamicSymbols :=
                                  ([{| Name := "__vdso_clock_gettime"; Value := 0x700;
                                       Size := 1389 |}], None) |}, None) |}, None)
       else (None, Some (errorString "no such file or directory")) |}.

Definition host2 : Host :=
  {| KernelRelease := ("6.1.0-13-amd64", None);
     Open := λ path,
       if String.eqb path "/usr/lib/modules/6.1.0-13-amd64/vdso/vdso.so"
       then (Some {| ELF := ({| DynamicSymbols := ([], Some (errorString "no symbol section")) |},
                             None) |}, None)
       else (None, Some (errorString "no such file or directory")) |}.
End VdsoScenario.

(** ** Vocabulary of the statements about the debuginfo manager *)

Module DebuginfoSpec.
Import debuginfo.

(** The should-initiate cache keeps its implementation and its expiry
    policy. *)
Definition samePolicy (c c' : burrow.Cache string unit) : Prop :=
  match c with
  | burrow.NoopCache => c' = burrow.NoopCache
  | burrow.LocalCache policy _ => ∃ entries', c' = burrow.LocalCache policy entries'
  end.
End DebuginfoSpec.

(** ** A manager to run the statements on

    The backend answers that the upload should be initiated and then
    refuses [InitiateUpload] with [AlreadyExists]; every call takes a
    millisecond; the cache is enabled with a TTL of five minutes; the
    semaphore has a token and no flight is in progress. *)

Module UploadScenario.
Import debuginfo.

Definition env : Env :=
  {| Reader := λ _, ("ELF", None);
     ELF := λ _, ({| Section_ := λ name, if String.eqb name ".text" then Some tt else None |},
                  None);
     hash_Reader := λ _, ("5f1d7a", None);
     Finder_Find := λ _ _, ("", Some (errorString "not found"));
     Pool_Open := λ _, (None, Some (errorString "no such file or directory"));
     Pool_NewFile := λ f,
  (Some {| Path := f; BuildID := "2d3a"; Modtime := 1700000000000000000%Z;
           Size := 4096; DebugFile := None |}, None);
     Extractor_Extract := λ _ _, None;
     os_MkdirAll := λ _, None;
     os_CreateTemp := λ dir pattern, (dir +:+ "/" +:+ pattern, None);
     Seek := λ _, None;
     http_NewRequest := λ _, None;
     Acquire := None;
     extractFlight := λ _, None;
     extractDups := λ _, false;
     uploadFlight := λ _, None;
     uploadDups := λ _, false |}.

Definition client : DebuginfoServiceClient :=
  {| ShouldInitiateUpload := λ _ _, (true, None);
     InitiateUpload := λ _ _ _ _,
       (None, Some (statusError codes.AlreadyExists "debuginfo already exists"));
     MarkUploadFinished := λ _ _ _, None;
     Upload_ := λ _ _ _, None;
     http_Do := λ _ _ _ _, ((200%Z, ""), None);
     latency := λ _ _, 1000000%Z |}.

Definition manager : Manager :=
  New env client (30 * 1000000000) false (5 * Minute) true "/tmp" 0.

Definition dbg : ObjectFile :=
  {| Path := "/usr/lib/debug/usr/bin/app.debug"; BuildID := "2d3a";
     Modtime := 1700000000000000000%Z; Size := 4096; DebugFile := None |}.

Definition src : ObjectFile :=
  {| Path := "/usr/bin/app"; BuildID := "2d3a";
     Modtime := 1700000000000000000%Z; Size := 8192; DebugFile := None |}.
End UploadScenario.

(** ** Vocabulary of the statements about methods *)

Module MethodSpec.
(** A method keeps a property of its receiver whenever it returns. *)
Definition preserves {S A} (P : S → Prop) (m : M S A) : Prop :=
  ∀ s a s', P s → m s = Some (a, s') → P s'.

(** A method takes its receiver to a state related to it whenever it
    returns. *)
Definition tracks {S A} (R : S → S → Prop) (m : M S A) : Prop :=
  ∀ s a s', m s = Some (a, s') → R s s'.
End MethodSpec.

(** ** Vocabulary of the statements about the routing of user frames *)

Module RouteSpec.
Import pprofprofile pprof ConvertSpec.

(** The process mapping and the profile mapping that [Convert] selects
    for a user address: those at the index that [mappingForAddr] returns,
    and none when it returns -1. *)
Definition userMapping (c : Converter) (addr : Z) : option (process.Mapping * Mapping.t) :=
  let mappingIndex := mappingForAddr (Profile.Mapping (result c)) addr in
  if (mappingIndex =? -1)%Z then None
  else
    match mappings c !! Z.to_nat mappingIndex,
          Profile.Mapping (result c) !! Z.to_nat mappingIndex with
    | Some processMapping, Some pprofMapping => Some (processMapping, pprofMapping)
    | _, _ => None
    end.

(** The key that a JIT frame resolves to, from the answer of the perf-map
    or jitdump cache: the symbol of the address, and the address itself
    when there is no map or the lookup fails.  The error that comes with
    a map is not looked at. *)
Definition jitKey (answer : option perf.Map * option error) (addr : Z)
    (symbolKey : string → DedupKey) : DedupKey :=
  match answer.1 with
  | None => AddrKey addr
  | Some m =>
      let '(symbol, err) := perf.Lookup m addr in
      if nonnil err then AddrKey addr else symbolKey symbol
  end.

(** The key that a user frame of a mapping resolves to: the dispatch of
    [Convert] on the file of the mapping, followed through the four
    [add...Location] methods, as a function of the collaborators. *)
Definition keyFor (c : Converter) (processMapping : process.Mapping) (m : Mapping.t)
    (addr : Z) : DedupKey :=
  let file := Mapping.File m in
  if String.eqb file "[vdso]" then
    let '(functionName, err) := Resolve (vdsoSymbolizer c) addr processMapping in
    VDSOKey (if nonnil err then "unknown" else functionName)
  else if String.eqb file "jit" then
    if disableJITSymbolization c then AddrKey addr
    else jitKey (perf.PerfMapForPID (perfMapCache c) (pid c)) addr PerfMapKey
  else if strings.HasSuffix file ".dump" then
    if disableJITSymbolization c then AddrKey addr
    else jitKey (perf.JitdumpForPID (jitdumpCache c) (pid c) file) addr JITDumpKey
  else
    let '(normalizedAddress, err) :=
      profiler.Normalize (addressNormalizer c) processMapping addr in
    AddrKey (if nonnil err then addr else normalizedAddress).

(** The key of a user frame, and [None] for a frame that is dropped. *)
Definition routeKey (c : Converter) (addr : Z) : option DedupKey :=
  (λ '(processMapping, m), keyFor c processMapping m addr) <$> userMapping c addr.

(** The keys of the frames of a raw sample, in the order in which
    [Convert] walks them: the kernel stack, then the user stack without
    the dropped frames. *)
Definition keysOf (c : Converter) (kernelSymbols : gmap Z string)
    (raw : profile.RawSample) : list DedupKey :=
  ((λ a, KernelKey (kernelSymbolOf kernelSymbols a)) <$> profile.KernelStack raw) ++
  omap (routeKey c) (profile.UserStack raw).

(** The memos hold nothing, or what the caches answer. *)
Record MemoInv (c : Converter) : Prop := {
  memo_perfMap :
    (cachedPerfMap c, cachedPerfMapErr c) = (None, None) ∨
    (cachedPerfMap c, cachedPerfMapErr c) = perf.PerfMapForPID (perfMapCache c) (pid c);
  memo_jitdump : ∀ path,
    (cachedJitdump c !! path = None ∧ cachedJitdumpErr c !! path = None) ∨
    (cachedJitdump c !! path = Some (perf.JitdumpForPID (jitdumpCache c) (pid c) path).1 ∧
     cachedJitdumpErr c !! path = Some (perf.JitdumpForPID (jitdumpCache c) (pid c) path).2);
}.

(** The function table has one entry per name, and the index knows each
    of them. *)
Record FuncInv (c : Converter) : Prop := {
  func_names_nodup : NoDup (Function.Name <$> funcs c);
  func_indexed : ∀ f, f ∈ funcs c → functionIndex c !! Function.Name f = Some f;
}.

(** The name that a key gives to the function of its Location; an
    address-only Location has no function. *)
Definition nameOf (k : DedupKey) : option string :=
  match k with
  | KernelKey s | VDSOKey s | PerfMapKey s | JITDumpKey s => Some s
  | AddrKey _ => None
  end.

(** [xs] with [x] appended unless it is there already, and the distinct
    elements of a list in the order of their first occurrence. *)
Definition addNew {A} `{EqDecision A} (xs : list A) (x : A) : list A :=
  if decide (x ∈ xs) then xs else xs ++ [x].

Definition distinct {A} `{EqDecision A} (xs : list A) : list A := foldl addNew [] xs.

(** What a frame with key [k] does to the tables, from [c] to [c'], when
    [l] is the Location of the frame: [l] is the entry of [k]; a key that
    had an entry changes nothing; a key that had none appends [l], and
    the function of its name unless a function of that name exists. *)
Record keyed (k : DedupKey) (c : Converter) (l : Location.t) (c' : Converter) : Prop := {
  keyed_index : indexOf c' k = Some l;
  keyed_locs :
    locs c' = match indexOf c k with Some _ => locs c | None => locs c ++ [l] end;
  keyed_funcs :
    Function.Name <$> funcs c' =
    match indexOf c k, nameOf k with
    | None, Some name => addNew (Function.Name <$> funcs c) name
    | _, _ => Function.Name <$> funcs c
    end;
}.

(** The function table follows from the Location table: the distinct
    names of its keys, in their order. *)
Definition TableInv (c : Converter) : Prop :=
  Function.Name <$> funcs c = distinct (omap nameOf (keyOf <$> locs c)).

(** A memo leaves the tables and the indexes alone. *)
Record memoized (c c' : Converter) : Prop := {
  memoized_index : ∀ k, indexOf c' k = indexOf c k;
  memoized_locs : locs c' = locs c;
  memoized_funcs : funcs c' = funcs c;
  memoized_Inv : Inv c → Inv c';
  memoized_FuncInv : FuncInv c → FuncInv c';
}.

(** The invariants that [NewConverter] establishes and every frame
    keeps. *)
Record Ready (c : Converter) : Prop := {
  ready_Inv : Inv c;
  ready_Config : Config c;
  ready_MemoInv : MemoInv c;
  ready_FuncInv : FuncInv c;
  ready_TableInv : TableInv c;
}.

(** [c'] is [c] after the frames with the keys [ks], whose Locations are
    [ls]: each Location is the entry of its key, and the Location table
    has grown by the keys that were new. *)
Record routed (c : Converter) (ks : list DedupKey) (ls : list Location.t)
    (c' : Converter) : Prop := {
  routed_Ready : Ready c';
  routed_ext : ext c c';
  routed_metrics_Sample : Profile.Sample (result c') = Profile.Sample (result c);
  routed_entries : Forall2 (λ k l, indexOf c' k = Some l) ks ls;
  routed_table : keyOf <$> locs c' = foldl addNew (keyOf <$> locs c) ks;
}.

End RouteSpec.

(** ** Vocabulary of the statements about the mapping of a Location *)

Module AttributionSpec.
Import pprofprofile pprof ConvertSpec RouteSpec.

(** Every Location that [c'] has and [c] had not is backed by [m]. *)
Definition backedBy (m : Mapping.t) (c c' : Converter) : Prop :=
  ∀ l, l ∈ locs c' → l ∈ locs c ∨ Location.Mapping l = m.

(** [l] is the Location of a user frame of the raw samples: some frame
    has the key of [l], and the mapping that [Convert] selects for the
    address of that frame is the mapping of [l]. *)
Definition attributed (c : Converter) (rawData : list profile.RawSample)
    (l : Location.t) : Prop :=
  ∃ raw addr processMapping m,
    raw ∈ rawData ∧ addr ∈ profile.UserStack raw ∧
    userMapping c addr = Some (processMapping, m) ∧
    keyOf l = keyFor c processMapping m addr ∧ Location.Mapping l = m.

(** Every Location of the table of [c] is a kernel Location or the
    Location of a user frame of the raw samples, converted with the
    collaborators of [c0]. *)
Definition MappingInv (c0 : Converter) (rawData : list profile.RawSample)
    (c : Converter) : Prop :=
  ∀ l, l ∈ locs c → (∃ symbol, keyOf l = KernelKey symbol) ∨ attributed c0 rawData l.
End AttributionSpec.

(** ** A conversion with a perf map and a jitdump that know the same
    symbol

    The process of the scenario above, with a jitdump cache that answers:
    the frame in the [jit] mapping and the frame in the [.dump] mapping
    both resolve to the symbol [jitted_loop]. *)

Module JitScenario.
Import pprofprofile pprof.

Definition jitdump : perf.Map :=
  {| perf.Lookup := λ _, ("jitted_loop", None) |}.

Definition jitdumpCache : perf.JitdumpCache :=
  {| perf.JitdumpForPID := λ _ _, (Some jitdump, None) |}.

Definition rawData : list profile.RawSample :=
  [ {| profile.UserStack := [0x600010; 0x700010]; profile.KernelStack := [];
       profile.Value := 1 |} ]%Z.

Definition converter : Converter :=
  NewConverter Scenario.addressNormalizer Scenario.ksym Scenario.vdsoSymbolizer
    Scenario.perfMapCache jitdumpCache Scenario.metrics false 42 Scenario.mappings
    1000%Z 10000000 1500%Z.
End JitScenario.

(** ** [Cache.Resolve] of the VDSO cache ([pkg/vdso/vdso.go]) *)

Module vdso_Cache.
Definition lvError : string := "error".
Definition lvSuccess : string := "success".

Definition lvErrNotFound : string := "not_found".
Definition lvErrMappingNil : string := "mapping_nil".
Definition lvErrMappingEmpty : string := "mapping_empty".
Definition lvErrAddrOutOfRange : string := "addr_out_of_range".
Definition lvErrBaseCalculation : string := "base_calculation".
Definition lvErrUnknown : string := "unknown".

(** The two counter vectors, by label; the receiver of [Resolve] reads
    and updates them. *)
Record metrics := {
  lookup : gmap string nat;
  lookupErrors : gmap string nat;
}.

(** [WithLabelValues(label)] creates the series of the label, at zero. *)
Definition WithLabelValues (label : string) (v : gmap string nat) : gmap string nat :=
  <[label := default 0 (v !! label)]> v.

(** [newMetrics] on a fresh registry. *)
Definition newMetrics : metrics :=
  {| lookup := WithLabelValues lvSuccess ∅;
     lookupErrors := WithLabelValues lvErrNotFound ∅ |}.

(** [WithLabelValues(label).Inc()]. *)
Definition Inc (label : string) (v : gmap string nat) : gmap string nat :=
  <[label := S (default 0 (v !! label))]> v.

Definition lookup_Inc (label : string) : M metrics unit :=
  modify (λ ms, {| lookup := Inc label (lookup ms); lookupErrors := lookupErrors ms |}).

Definition lookupErrors_Inc (label : string) : M metrics unit :=
  modify (λ ms, {| lookup := lookup ms; lookupErrors := Inc label (lookupErrors ms) |}).

(** What [Resolve] calls outside its file: [process.Mapping.Normalize];
    [errors.As] for [*process.AddressOutOfRangeError] and [errors.Is] for
    [process.ErrBaseAddressCannotCalculated]; the [Search] of the symbol
    searcher built from the dynamic symbols. *)
Record Deps := {
  Normalize : process.Mapping → Z → Z * option error;
  isAddressOutOfRangeError : error → bool;
  isErrBaseAddressCannotCalculated : error → bool;
  Search : list vdso.Symbol → Z → string * option error;
}.

(** [c] and [m] are pointers: [None] is nil. *)
Definition Resolve (deps : Deps) (c : option vdso.Cache) (addr : Z)
    (m : option process.Mapping) : M metrics (string * option error) :=
  match c with
  | None => ret ("", None)
  | Some c =>
      match m with
      | None =>
          let* _ := lookupErrors_Inc lvError in
          ret ("", Some (errorString "mapping is nil"))
      | Some m =>
          let '(addr, err) := Normalize deps m addr in
          match err with
          | Some err =>
              let* _ := lookupErrors_Inc lvError in
              let* _ :=
                if isAddressOutOfRangeError deps err then lookupErrors_Inc lvErrAddrOutOfRange
                else if isErrBaseAddressCannotCalculated deps err
                     then lookupErrors_Inc lvErrBaseCalculation
                else lookupErrors_Inc lvErrUnknown in
              ret ("", Some err)
          | None =>
              let '(sym, err) := Search deps (vdso.searcher c) addr in
              match err with
              | Some err =>
                  let* _ := lookupErrors_Inc lvError in
                  let* _ := lookupErrors_Inc lvErrNotFound in
                  ret ("", Some err)
              | None =>
                  let* _ := lookup_Inc lvSuccess in
                  ret (sym, None)
              end
          end
      end
  end.
End vdso_Cache.

(** ** Vocabulary of the statements about [Cache.Resolve] *)

Module ResolveSpec.
Import vdso_Cache.

(** The value of a counter. *)
Definition count (v : gmap string nat) (label : string) : nat := default 0 (v !! label).

(** The sum of the counters of [lookupErrors] that tell why a lookup
    failed. *)
Definition reasons (ms : metrics) : nat :=
  count (lookupErrors ms) lvErrNotFound + count (lookupErrors ms) lvErrAddrOutOfRange +
  count (lookupErrors ms) lvErrBaseCalculation + count (lookupErrors ms) lvErrUnknown.

(** One [Resolve] per query, in order, on the same cache; the results
    are collected. *)
Definition resolveAll (deps : Deps) (c : option vdso.Cache)
    (queries : list (Z * option process.Mapping)) : M metrics (list (string * option error)) :=
  forRange queries
    (λ results q, let* r := Resolve deps c q.1 q.2 in ret (results ++ [r])) [].

(** The numbers of results without and with an error, and of the failed
    queries that had a mapping. *)
Definition succeeded (results : list (string * option error)) : nat :=
  length (filter (λ r, r.2 = None) results).

Definition failed (results : list (string * option error)) : nat :=
  length (filter (λ r, r.2 ≠ None) results).

Definition failedWithMapping (queries : list (Z * option process.Mapping))
    (results : list (string * option error)) : nat :=
  length (filter (λ qr, qr.1.2 ≠ None ∧ qr.2.2 ≠ None) (zip queries results)).
End ResolveSpec.

(** ** Vocabulary of the statements about uploads *)

Module ManagerSpec.
Import debuginfo.

(** The value of a counter of the manager's metrics. *)
Definition counter (di : Manager) (metric label : string) : Z :=
  default 0%Z (metrics di !! (metric, label)).

(** Every counter of [di] outside the metrics [names] has its value in
    [di']. *)
Definition metricsExcept (names : list string) (di di' : Manager) : Prop :=
  ∀ metric label, metric ∉ names → metrics di' !! (metric, label) = metrics di !! (metric, label).

(** The collaborators and the configuration of [di] are those of [di'],
    and every call made in [di] is made in [di'], in the same order. *)
Record evolves (di di' : Manager) : Prop := {
  evolves_env : env di' = env di;
  evolves_client : debuginfoClient di' = debuginfoClient di;
  evolves_strip : stripDebuginfos di' = stripDebuginfos di;
  evolves_tempDir : tempDir di' = tempDir di;
  evolves_timeout : uploadTimeoutDuration di' = uploadTimeoutDuration di;
  evolves_clock : (clock di ≤ clock di')%Z;
  evolves_calls : calls di `prefix_of` calls di';
}.

(** The result of an upload for the build ID is shared: the caller joins
    a flight in progress, or other callers join the flight it starts. *)
Definition sharedFlight (e : Env) (buildID : string) : bool :=
  nonnil (uploadFlight e buildID) || uploadDups e buildID.

(** No upload goroutine has finished or started finishing. *)
Definition sameFinishing (di di' : Manager) : Prop := finishing di' = finishing di.

(** The transfer of a body, issued after the calls [before], was
    answered without an error: by the streaming upload, or by the HTTP
    endpoint with a status of the 200s. *)
Definition transferred (client : DebuginfoServiceClient) (before : list Call)
    (body : Call) : Prop :=
  match body with
  | UploadCall uploadInstructions r => Upload_ client before uploadInstructions r = None
  | HTTPPutCall url size r =>
      ∃ StatusCode data,
        http_Do client before url size r = ((StatusCode, data), None) ∧
        (200 ≤ StatusCode ≤ 299)%Z
  | _ => False
  end.

(** The calls of one [upload] for a build ID, in the order of the
    protocol; [err] is what [upload] returns and [before] are the calls
    made before it. *)
Inductive uploadTrace (client : DebuginfoServiceClient) (before : list Call)
    (buildID : string) (size : Z) : option error → list Call → Prop :=
| trace_cached :
    uploadTrace client before buildID size None []
| trace_asked err :
    uploadTrace client before buildID size err [ShouldInitiateUploadCall buildID]
| trace_initiated err h :
    uploadTrace client before buildID size err
      [ShouldInitiateUploadCall buildID; InitiateUploadCall buildID h size]
| trace_transfer_failed err h body :
    transfersBody body = true →
    ¬ transferred client
        (before ++ [ShouldInitiateUploadCall buildID; InitiateUploadCall buildID h size]) body →
    uploadTrace client before buildID size (Some err)
      [ShouldInitiateUploadCall buildID; InitiateUploadCall buildID h size; body]
| trace_finished err h body uploadID :
    transfersBody body = true →
    transferred client
        (before ++ [ShouldInitiateUploadCall buildID; InitiateUploadCall buildID h size]) body →
    uploadTrace client before buildID size err
      [ShouldInitiateUploadCall buildID; InitiateUploadCall buildID h size; body;
       MarkUploadFinishedCall buildID uploadID].
End ManagerSpec.

(** ** Vocabulary of the statements about [EnsureUploaded] *)

Module EnsureSpec.
Import debuginfo ManagerSpec.

(** The metrics that [ExtractOrFind] counts in. *)
Definition findMetrics : list string := ["found"; "extracted"].

(** The metrics that [Upload] counts in. *)
Definition uploadMetrics : list string :=
  ["uploadRequests"; "uploadInflight"; "uploaded"; "uploadAttempts"].

End EnsureSpec.

Module RecheckSpec.
Import debuginfo.

(** The calls and the should-initiate cache of [di] are those of [di']. *)
Definition sameBackend (di di' : Manager) : Prop :=
  calls di' = calls di ∧ shouldInitiateCache di' = shouldInitiateCache di.

(** The should-initiate cache has no entry for the build ID, at any
    time. *)
Definition misses (di : Manager) (buildID : string) : Prop :=
  ∀ now, (burrow.GetIfPresent now (shouldInitiateCache di) buildID).1 = None.
End RecheckSpec.

Module PolicySpec.
Import debuginfo.

(** The expiry policy of a cache; the no-op cache has none. *)
Definition policyOf {K V} `{Countable K} (c : burrow.Cache K V) : option burrow.Policy :=
  match c with
  | burrow.NoopCache => None
  | burrow.LocalCache policy _ => Some policy
  end.

(** The caches of [di'] have the policies of those of [di]. *)
Definition samePolicies (di di' : Manager) : Prop :=
  policyOf (shouldInitiateCache di') = policyOf (shouldInitiateCache di) ∧
  policyOf (hashCache di') = policyOf (hashCache di).
End PolicySpec.

(** * Properties of the converter *)

Import pprofprofile pprof ConvertSpec.

(** ** The invariant is kept *)

Lemma ext_refl c : ext c c.
Proof. by split. Qed.

Lemma ext_trans c1 c2 c3 : ext c1 c2 → ext c2 c3 → ext c1 c3.
Proof.
  intros [] []; split; try congruence; try (etrans; eassumption); eauto.
Qed.

Lemma frame_refl c : frame c c.
Proof. split; auto using ext_refl. Qed.


Lemma indexOf_set_functionIndex g c k : indexOf (set_functionIndex g c) k = indexOf c k.
Proof. by destruct k. Qed.

Lemma indexOf_set_result g c k : indexOf (set_result g c) k = indexOf c k.
Proof. by destruct k. Qed.

Lemma indexOf_set_metrics g c k : indexOf (set_metrics g c) k = indexOf c k.
Proof. by destruct k. Qed.

Lemma addFunction_spec name c :
  Inv c →
  ∃ f c', addFunction name c = Some (f, c') ∧ Inv c' ∧ frame c c' ∧
          locs c' = locs c ∧ (∀ k, indexOf c' k = indexOf c k) ∧
          f ∈ funcs c' ∧ Function.Name f = name.
Proof.
  intros HI. unfold addFunction, bind, get.
  destruct (functionIndex c !! name) as [f|] eqn:Hidx.
  - exists f, c. destruct (inv_func_index c HI _ _ Hidx).
    split_and!; auto using frame_refl.
  - eexists _, _. split; [reflexivity|].
    set (f := {| Function.ID := _ |}).
    set (c' := set_result _ _).
    assert (Hl : locs c' = locs c) by reflexivity.
    assert (Hf : funcs c' = funcs c ++ [f]) by reflexivity.
    assert (Hk : ∀ k, indexOf c' k = indexOf c k) by (by intros []).
    split_and!; auto.
    + destruct HI as [H1 H2 H3 H4 H5 H6 H7 H8 H9 H10 H11].
      split; rewrite ?Hl, ?Hf; try assumption.
      * intros i g Hg. apply lookup_app_Some in Hg as [Hg|[Hle Hg]]; [by auto|].
        apply list_lookup_singleton_Some in Hg as [Hi Hx].
        rewrite <- Hx; simpl. unfold len, funcs in *. f_equal. lia.
      * intros n g. simpl. rewrite lookup_insert. case_decide as Hn.
        -- intros [= <-]. subst n. split; [|done]. apply elem_of_app; right. by apply list_elem_of_singleton.
        -- intros Hg. destruct (H2 _ _ Hg). split; [|done]. apply elem_of_app; by left.
      * intros l ln Hin Hln. apply elem_of_app; left; eauto.
    + split; [split| | | |]; try reflexivity; rewrite ?Hl, ?Hf;
        try done; try (by apply prefix_app_r);
        rewrite ?length_app; simpl; lia.
    + rewrite Hf. apply elem_of_app; right. by apply list_elem_of_singleton.
Qed.


Lemma indexOf_insertIndex k l c k' :
  indexOf (insertIndex k l c) k' = if decide (k = k') then Some l else indexOf c k'.
Proof.
  destruct k, k'; cbn; try (rewrite decide_False by congruence; reflexivity);
    rewrite lookup_insert; repeat case_decide; congruence.
Qed.

Lemma Inv_new_location c k l :
  Inv c → indexOf c k = None → keyOf l = k →
  Location.ID l = uint64 (uint64 (len (locs c)) + 1) →
  Location.Mapping l ∈ Profile.Mapping (result c) →
  (∀ ln, ln ∈ Location.Line l → Line.Function ln ∈ funcs c) →
  length (Location.Line l) ≤ 1 →
  (∀ s, k = KernelKey s → Location.Mapping l = kernelMapping c) →
  let c' := set_result (append_Location l) (insertIndex k l c) in
  Inv c' ∧ frame c c' ∧ indexOf c' k = Some l ∧ funcs c' = funcs c.
Proof.
  intros [H1 H2 H3 H4 H5 H6 H7 H8 H9 H10 H11] Hnone Hkey Hid Hmap Hfun Hline Hker c'.
  assert (Hl : locs c' = locs c ++ [l]) by (by destruct k).
  assert (Hf : funcs c' = funcs c) by (by destruct k).
  assert (Hfi : functionIndex c' = functionIndex c) by (by destruct k).
  assert (Hm : Profile.Mapping (result c') = Profile.Mapping (result c)) by (by destruct k).
  assert (Hs : Profile.Sample (result c') = Profile.Sample (result c)) by (by destruct k).
  assert (Hkm : kernelMapping c' = kernelMapping c) by (by destruct k).
  assert (Hk : ∀ k', indexOf c' k' = if decide (k = k') then Some l else indexOf c k').
  { intros k'. unfold c'. rewrite indexOf_set_result. apply indexOf_insertIndex. }
  assert (Hfresh : ∀ l', l' ∈ locs c → keyOf l' ≠ k).
  { intros l' Hin Heq. apply H5 in Hin. congruence. }
  split_and!.
  - split; rewrite ?Hl, ?Hf, ?Hfi, ?Hm, ?Hs, ?Hkm; try assumption.
    + intros i x Hx. apply lookup_app_Some in Hx as [Hx|[Hle Hx]]; [by auto|].
      apply list_lookup_singleton_Some in Hx as [Hi <-].
      rewrite Hid. unfold len. do 3 f_equal. lia.
    + intros k' x. rewrite Hk. case_decide as Hd.
      * intros [= <-]. split; [|congruence]. apply elem_of_app; right.
        by apply list_elem_of_singleton.
      * intros Hx. destruct (H4 _ _ Hx). split; [|done]. apply elem_of_app; by left.
    + intros x Hx. rewrite Hk. apply elem_of_app in Hx as [Hx|Hx].
      * rewrite decide_False; [by auto|]. intros Heq. by apply (Hfresh x).
      * apply list_elem_of_singleton in Hx as ->. by rewrite decide_True.
    + rewrite fmap_app. apply NoDup_app. split_and!; [done| |apply NoDup_singleton].
      intros k' Hin Hin'. apply list_elem_of_singleton in Hin'. subst k'.
      apply list_elem_of_fmap in Hin as (l' & Heq & Hl').
      apply (Hfresh l' Hl'). congruence.
    + intros x Hx. apply elem_of_app in Hx as [Hx|Hx]; [by auto|].
      by apply list_elem_of_singleton in Hx as ->.
    + intros x ln Hx. apply elem_of_app in Hx as [Hx|Hx]; [by eauto|].
      apply list_elem_of_singleton in Hx as ->. auto.
    + intros x Hx. apply elem_of_app in Hx as [Hx|Hx]; [by auto|].
      by apply list_elem_of_singleton in Hx as ->.
    + intros x s Hx. apply elem_of_app in Hx as [Hx|Hx]; [by eauto|].
      apply list_elem_of_singleton in Hx as ->. intros Hs'. apply (Hker s). congruence.
    + intros s x Hs' Hx. apply elem_of_app; left; eauto.
  - split; [split| | | |]; rewrite ?Hl, ?Hf, ?Hs; try done; try (by destruct k);
      try (by apply prefix_app_r).
    + intros k' x Hx. rewrite Hk. case_decide; [congruence|done].
    + rewrite length_app; simpl; lia.
    + lia.
  - rewrite Hk. by rewrite decide_True.
  - done.
Qed.

Lemma frame_after_addFunction c c1 c' :
  frame c c1 → locs c1 = locs c → frame c1 c' → funcs c' = funcs c1 → frame c c'.
Proof.
  intros [He Hm Hs Hl Hf] Hlocs [He' Hm' Hs' Hl' Hf'] Hfuncs.
  split; [by eapply ext_trans|congruence|congruence| |]; [rewrite <- Hlocs|rewrite Hfuncs]; done.
Qed.


Lemma new_symbolized_location c k m name :
  Inv c → indexOf c k = None →
  m ∈ Profile.Mapping (result c) →
  (∀ id f, Function.Name f = name → keyOf (symbolized id m f) = k) →
  (∀ s, k = KernelKey s → m = kernelMapping c) →
  ∃ f c1, addFunction name c = Some (f, c1) ∧
    let l := symbolized (uint64 (uint64 (len (Profile.Location (result c))) + 1)) m f in
    let c' := set_result (append_Location l) (insertIndex k l c1) in
    Inv c' ∧ frame c c' ∧ indexOf c' k = Some l.
Proof.
  intros HI Hnone Hm Hkey Hker.
  destruct (addFunction_spec name c HI) as (f & c1 & Hadd & HI1 & Hfr & Hl & Hk & Hf & Hn).
  exists f, c1. split; [done|]. intros l c'.
  destruct (Inv_new_location c1 k l) as (HI' & Hfr' & Hidx & Hfuncs).
  - done.
  - by rewrite Hk.
  - by apply Hkey.
  - unfold l; simpl. unfold locs in *. by rewrite Hl.
  - by rewrite (ext_Mapping _ _ (frame_ext _ _ Hfr)).
  - intros ln Hln. apply list_elem_of_singleton in Hln as ->. done.
  - simpl; lia.
  - intros s Hs. rewrite (ext_kernelMapping _ _ (frame_ext _ _ Hfr)). eauto.
  - split_and!; try done. by eapply frame_after_addFunction.
Qed.

Lemma addKernelLocation_spec c kernelSymbols addr :
  Inv c → Config c →
  ∃ l c', addKernelLocation (kernelMapping c) kernelSymbols addr c = Some (l, c') ∧
          Inv c' ∧ frame c c' ∧
          indexOf c' (KernelKey (kernelSymbolOf kernelSymbols addr)) = Some l.
Proof.
  intros HI HC. unfold addKernelLocation, kernelSymbolOf, default.
  set (kernelSymbol := match kernelSymbols !! addr with Some s => s | None => _ end).
  unfold bind at 1, get.
  destruct (kernelLocationIndex c !! kernelSymbol) as [l|] eqn:Hidx.
  - exists l, c. split_and!; auto using frame_refl.
  - destruct (new_symbolized_location c (KernelKey kernelSymbol) (kernelMapping c) kernelSymbol)
      as (f & c1 & Hadd & HI' & Hfr & Hk); auto.
    + rewrite (cfg_mapping c HC). apply elem_of_app; right. by apply list_elem_of_singleton.
    + intros id f Hf. unfold keyOf; simpl. rewrite (cfg_kernel_file c HC). simpl. by rewrite Hf.
    + unfold bind. rewrite Hadd. eexists _, _. split; [reflexivity|]. done.
Qed.


Lemma addAddrLocationNoNormalization_spec c m addr :
  Inv c → m ∈ Profile.Mapping (result c) →
  ∃ l c', addAddrLocationNoNormalization m addr c = Some (l, c') ∧
          Inv c' ∧ frame c c' ∧ indexOf c' (AddrKey addr) = Some l.
Proof.
  intros HI Hm. unfold addAddrLocationNoNormalization, bind, get.
  destruct (addrLocationIndex c !! addr) as [l|] eqn:Hidx.
  - exists l, c. split_and!; auto using frame_refl.
  - eexists _, _. split; [reflexivity|].
    set (l := {| Location.ID := _ |}).
    destruct (Inv_new_location c (AddrKey addr) l) as (HI' & Hfr & Hk & _); try done.
    + intros ln Hln. by apply elem_of_nil in Hln.
    + simpl; lia.
Qed.

Lemma addAddrLocationNoNormalization_added c m addr :
  Inv c → m ∈ Profile.Mapping (result c) →
  added c (addAddrLocationNoNormalization m addr).
Proof.
  intros HI Hm.
  destruct (addAddrLocationNoNormalization_spec c m addr HI Hm) as (l & c' & ? & ? & ? & ?).
  exists l, c'. eauto.
Qed.

Lemma addAddrLocation_added c processMapping m addr :
  Inv c → m ∈ Profile.Mapping (result c) →
  added c (addAddrLocation processMapping m addr).
Proof.
  intros HI Hm. unfold added, addAddrLocation, bind, get.
  destruct (profiler.Normalize _ _ _) as [normalizedAddress err].
  by apply addAddrLocationNoNormalization_added.
Qed.

Lemma addVDSOLocation_added c processMapping m addr :
  Inv c → m ∈ Profile.Mapping (result c) → Mapping.File m = "[vdso]" →
  added c (addVDSOLocation processMapping m addr).
Proof.
  intros HI Hm Hfile. unfold added, addVDSOLocation. unfold bind at 1, get.
  destruct (Resolve _ _ _) as [functionName0 err].
  set (functionName := if nonnil err then _ else _).
  destruct (vdsoLocationIndex c !! functionName) as [l|] eqn:Hidx.
  - exists l, c. split_and!; auto using frame_refl. by exists (VDSOKey functionName).
  - destruct (new_symbolized_location c (VDSOKey functionName) m functionName)
      as (f & c1 & Hadd & HI' & Hfr & Hk); try done.
    + intros id f Hf. unfold keyOf; simpl. rewrite Hfile. simpl. by rewrite Hf.
    + unfold bind. rewrite Hadd. eexists _, _. split; [reflexivity|]. eauto.
Qed.

Lemma Inv_set_cachedPerfMap v c : Inv c → Inv (set_cachedPerfMap v c).
Proof. intros []; by split. Qed.

Lemma frame_set_cachedPerfMap v c : frame c (set_cachedPerfMap v c).
Proof. split; [split| | | |]; try done; try (by intros []); unfold locs, funcs; simpl; lia. Qed.

Lemma Inv_set_cachedJitdump p v c : Inv c → Inv (set_cachedJitdump p v c).
Proof. intros []; by split. Qed.

Lemma frame_set_cachedJitdump p v c : frame c (set_cachedJitdump p v c).
Proof. split; [split| | | |]; try done; try (by intros []); unfold locs, funcs; simpl; lia. Qed.


Lemma perfMap_memo c : memo c perfMap.
Proof.
  unfold memo, perfMap, bind, get.
  destruct (nonnil (cachedPerfMap c) || nonnil (cachedPerfMapErr c)).
  - eexists _, c. split_and!; auto using frame_refl.
  - eexists _, _. split; [reflexivity|].
    split_and!; auto using Inv_set_cachedPerfMap, frame_set_cachedPerfMap.
Qed.

Lemma jitdump_memo c path : memo c (jitdump path).
Proof.
  unfold memo, jitdump, bind, get.
  destruct (nonnil (cachedJitdump c !! path) || nonnil (cachedJitdumpErr c !! path)).
  - eexists _, c. split_and!; auto using frame_refl.
  - destruct (perf.JitdumpForPID _ _ _) as [jd err].
    eexists _, _. split; [reflexivity|].
    split_and!; auto using Inv_set_cachedJitdump, frame_set_cachedJitdump.
Qed.

Lemma frame_after_memo c c1 c' :
  frame c c1 → locs c1 = locs c → funcs c1 = funcs c → frame c1 c' → frame c c'.
Proof.
  intros [He Hm Hs Hl Hf] Hlocs Hfuncs [He' Hm' Hs' Hl' Hf'].
  split; [by eapply ext_trans|congruence|congruence| |];
    [rewrite <- Hlocs|rewrite <- Hfuncs]; done.
Qed.

Lemma added_after_memo c c1 (m : M Converter Location.t) :
  frame c c1 → locs c1 = locs c → funcs c1 = funcs c → added c1 m →
  ∃ l c', m c1 = Some (l, c') ∧ Inv c' ∧ frame c c' ∧ ∃ k, indexOf c' k = Some l.
Proof.
  intros Hfr Hl Hf (l & c' & Hm & HI & Hfr' & Hk).
  exists l, c'. split_and!; try done. by eapply frame_after_memo.
Qed.

Lemma addPerfMapLocation_added c m addr :
  Inv c → m ∈ Profile.Mapping (result c) →
  String.eqb (Mapping.File m) "[vdso]" = false →
  String.eqb (Mapping.File m) "jit" = true →
  added c (addPerfMapLocation m addr).
Proof.
  intros HI Hm Hv Hj. unfold added, addPerfMapLocation. unfold bind at 1, get.
  destruct (disableJITSymbolization c).
  { by apply addAddrLocationNoNormalization_added. }
  destruct (perfMap_memo c) as ([pm e] & c1 & Hpm & HI1 & Hfr1 & _ & Hm1 & Hl1 & Hf1).
  unfold bind at 1. rewrite Hpm.
  assert (Hfallback : ∃ l c', addAddrLocationNoNormalization m addr c1 = Some (l, c') ∧
                              Inv c' ∧ frame c c' ∧ ∃ k, indexOf c' k = Some l).
  { apply added_after_memo; try done.
    apply addAddrLocationNoNormalization_added; [auto|by rewrite Hm1]. }
  destruct pm as [pm|]; [|done].
  destruct (perf.Lookup pm addr) as [symbol err].
  destruct (nonnil err); [done|].
  unfold bind at 1, get.
  destruct (perfmapLocationIndex c1 !! symbol) as [l|] eqn:Hidx.
  - exists l, c1. split_and!; auto. by exists (PerfMapKey symbol).
  - destruct (new_symbolized_location c1 (PerfMapKey symbol) m symbol)
      as (f & c2 & Hadd & HI' & Hfr & Hk); try done.
    + auto.
    + by rewrite Hm1.
    + intros id f Hf. unfold keyOf; simpl. rewrite Hv, Hj. by rewrite Hf.
    + unfold bind. rewrite Hadd. eexists _, _. split; [reflexivity|].
      split_and!; eauto. by eapply frame_after_memo.
Qed.

Lemma addJITDumpLocation_added c m addr path :
  Inv c → m ∈ Profile.Mapping (result c) →
  String.eqb (Mapping.File m) "[vdso]" = false →
  String.eqb (Mapping.File m) "jit" = false →
  strings.HasSuffix (Mapping.File m) ".dump" = true →
  added c (addJITDumpLocation m addr path).
Proof.
  intros HI Hm Hv Hj Hd. unfold added, addJITDumpLocation. unfold bind at 1, get.
  destruct (disableJITSymbolization c).
  { by apply addAddrLocationNoNormalization_added. }
  destruct (jitdump_memo c path) as ([jd e] & c1 & Hjd & HI1 & Hfr1 & _ & Hm1 & Hl1 & Hf1).
  unfold bind at 1. rewrite Hjd.
  assert (Hfallback : ∃ l c', addAddrLocationNoNormalization m addr c1 = Some (l, c') ∧
                              Inv c' ∧ frame c c' ∧ ∃ k, indexOf c' k = Some l).
  { apply added_after_memo; try done.
    apply addAddrLocationNoNormalization_added; [auto|by rewrite Hm1]. }
  destruct jd as [jd|]; [|done].
  destruct (perf.Lookup jd addr) as [symbol err].
  destruct (nonnil err); [done|].
  unfold bind at 1, get.
  destruct (jitdumpLocationIndex c1 !! symbol) as [l|] eqn:Hidx.
  - exists l, c1. split_and!; auto. by exists (JITDumpKey symbol).
  - destruct (new_symbolized_location c1 (JITDumpKey symbol) m symbol)
      as (f & c2 & Hadd & HI' & Hfr & Hk); try done.
    + auto.
    + by rewrite Hm1.
    + intros id f Hf. unfold keyOf; simpl. rewrite Hv, Hj, Hd. by rewrite Hf.
    + unfold bind. rewrite Hadd. eexists _, _. split; [reflexivity|].
      split_and!; eauto. by eapply frame_after_memo.
Qed.

Lemma Config_ext c c' : ext c c' → Config c → Config c'.
Proof.
  intros He [H1 H2 H3 H4].
  split; rewrite ?(ext_Mapping _ _ He), ?(ext_mappings _ _ He), ?(ext_kernelMapping _ _ He);
    done.
Qed.

(** *** [mappingForAddr] *)

Lemma mappingForAddr_from_spec i ms addr :
  (mappingForAddr_from i ms addr = -1 ∧ mapped ms addr = false)%Z ∨
  ∃ n m, mappingForAddr_from i ms addr = (i + Z.of_nat n)%Z ∧
         ms !! n = Some m ∧ contains m addr = true ∧
         ∀ j m', j < n → ms !! j = Some m' → contains m' addr = false.
Proof.
  revert i. induction ms as [|m ms IH]; intros i; simpl.
  - by left.
  - fold (contains m addr). destruct (contains m addr) eqn:Hc; simpl.
    + right. exists 0, m. split_and!; [lia|done|done|lia].
    + destruct (IH (i + 1)%Z) as [[H1 H2]|(n & m' & H1 & H2 & H3 & H4)].
      * by left.
      * right. exists (S n), m'. split_and!; [lia|done|done|].
        intros [|j] m'' Hj; simpl; [by intros [= <-]|]. apply H4. lia.
Qed.

Lemma mappingForAddr_spec ms addr :
  (mappingForAddr ms addr = -1 ∧ mapped ms addr = false)%Z ∨
  ∃ n m, mappingForAddr ms addr = Z.of_nat n ∧
         ms !! n = Some m ∧ contains m addr = true ∧ mapped ms addr = true ∧
         ∀ j m', j < n → ms !! j = Some m' → contains m' addr = false.
Proof.
  unfold mappingForAddr.
  destruct (mappingForAddr_from_spec 0 ms addr) as [?|(n & m & H1 & H2 & H3 & H4)]; [by left|].
  right. exists n, m. split_and!; try done.
  unfold mapped. apply existsb_exists. exists m. split; [|done].
  apply list_elem_of_In. by eapply list_elem_of_lookup_2.
Qed.

Lemma Inv_set_metrics g c : Inv c → Inv (set_metrics g c).
Proof. intros []; by split. Qed.

Lemma ext_set_metrics g c : ext c (set_metrics g c).
Proof. split; done. Qed.

Lemma kernelMapping_contains c addr :
  Config c → contains (kernelMapping c) addr = false.
Proof.
  intros HC. unfold contains. rewrite (cfg_kernel_start c HC), (cfg_kernel_limit c HC).
  destruct (0 <=? addr)%Z eqn:H1, (addr <? 0)%Z eqn:H2; try done; lia.
Qed.

Lemma length_ConvertToPprof ms : length (ConvertToPprof ms) = length ms.
Proof. unfold ConvertToPprof. apply length_imap. Qed.

(** The index that [mappingForAddr] returns is an index of the process
    mappings too: the appended kernel mapping contains no address. *)
Lemma mapped_index c addr n m :
  Config c → Profile.Mapping (result c) !! n = Some m → contains m addr = true →
  m ∈ Profile.Mapping (result c) ∧ ∃ pm, mappings c !! n = Some pm.
Proof.
  intros HC Hn Hc. split; [by eapply list_elem_of_lookup_2|].
  rewrite (cfg_mapping c HC) in Hn.
  apply lookup_app_Some in Hn as [Hn|[Hle Hn]].
  - apply lookup_lt_Some in Hn. rewrite length_ConvertToPprof in Hn.
    by apply lookup_lt_is_Some_2.
  - apply list_lookup_singleton_Some in Hn as [_ <-].
    by rewrite (kernelMapping_contains c addr HC) in Hc.
Qed.

Lemma index_Some {S A} (xs : list A) n x (s : S) :
  xs !! n = Some x → index xs (Z.of_nat n) s = Some (x, s).
Proof.
  intros Hx. unfold index. destruct (Z.of_nat n <? 0)%Z eqn:Hn; [apply Z.ltb_lt in Hn; lia|].
  by rewrite Nat2Z.id, Hx.
Qed.

Lemma convertUserFrame_spec c locs0 addr :
  Inv c → Config c →
  ∃ locs' c', convertUserFrame locs0 addr c = Some (locs', c') ∧ Inv c' ∧ ext c c' ∧
    Profile.Sample (result c') = Profile.Sample (result c) ∧
    length (locs c') ≤ S (length (locs c)) ∧ length (funcs c') ≤ S (length (funcs c)) ∧
    if mapped (Profile.Mapping (result c)) addr
    then metrics c' = metrics c ∧ ∃ l, locs' = locs0 ++ [l] ∧ ∃ k, indexOf c' k = Some l
    else locs' = locs0 ∧ metrics c' = Inc labelFrameDropReasonMappingNil (metrics c).
Proof.
  intros HI HC. unfold convertUserFrame. unfold bind at 1, get.
  destruct (mappingForAddr_spec (Profile.Mapping (result c)) addr)
    as [[-> ->]|(n & m & -> & Hn & Hc & -> & _)].
  - simpl. eexists _, _. split; [reflexivity|].
    split_and!; auto using Inv_set_metrics, ext_set_metrics.
  - destruct (mapped_index c addr n m HC Hn Hc) as [Hm [pm Hpm]].
    destruct (Z.of_nat n =? -1)%Z eqn:Hneg; [apply Z.eqb_eq in Hneg; lia|].
    unfold bind at 1. rewrite (index_Some _ _ _ _ Hpm).
    unfold bind at 1. rewrite (index_Some _ _ _ _ Hn).
    assert (Hadded : ∀ a : M Converter Location.t, added c a →
      ∃ locs' c', bind a (λ l, ret (locs0 ++ [l])) c = Some (locs', c') ∧ Inv c' ∧ ext c c' ∧
        Profile.Sample (result c') = Profile.Sample (result c) ∧
        length (locs c') ≤ S (length (locs c)) ∧ length (funcs c') ≤ S (length (funcs c)) ∧
        metrics c' = metrics c ∧ ∃ l, locs' = locs0 ++ [l] ∧ ∃ k, indexOf c' k = Some l).
    { intros a (l & c' & Ha & HI' & [] & Hk). unfold bind. rewrite Ha.
      eexists _, _. split; [reflexivity|]. split_and!; eauto. }
    destruct (String.eqb (Mapping.File m) "[vdso]") eqn:Hv.
    { apply Hadded, addVDSOLocation_added; auto. by apply String.eqb_eq. }
    destruct (String.eqb (Mapping.File m) "jit") eqn:Hj.
    { apply Hadded, addPerfMapLocation_added; auto. }
    destruct (strings.HasSuffix (Mapping.File m) ".dump") eqn:Hd.
    { apply Hadded, addJITDumpLocation_added; auto. }
    apply Hadded, addAddrLocation_added; auto.
Qed.


Lemma run_refl c : run 0 c c.
Proof. split_and!; [apply ext_refl|lia|lia]. Qed.

Lemma run_trans n m c1 c2 c3 : run n c1 c2 → run m c2 c3 → run (n + m) c1 c3.
Proof. intros (? & ? & ?) (? & ? & ?). split_and!; [by eapply ext_trans|lia|lia]. Qed.


Lemma kernelLoop_spec kernelSymbols stack : ∀ c locs0,
  Inv c → Config c →
  ∃ ls c', forRange stack (convertKernelFrame kernelSymbols) locs0 c = Some (locs0 ++ ls, c') ∧
    Inv c' ∧ run (length stack) c c' ∧ metrics c' = metrics c ∧
    Profile.Sample (result c') = Profile.Sample (result c) ∧
    Forall2 (λ a l, indexOf c' (KernelKey (kernelSymbolOf kernelSymbols a)) = Some l) stack ls.
Proof.
  induction stack as [|addr stack IH]; intros c locs0 HI HC; simpl.
  - exists [], c. rewrite app_nil_r. split_and!; auto using run_refl.
  - destruct (addKernelLocation_spec c kernelSymbols addr HI HC)
      as (l & c1 & Hadd & HI1 & [He Hm Hs Hl Hf] & Hk).
    destruct (IH c1 (locs0 ++ [l]) HI1 (Config_ext _ _ He HC))
      as (ls & c' & Hloop & HI' & Hrun & Hm' & Hs' & Hall).
    exists (l :: ls), c'. split_and!.
    + unfold bind at 1, convertKernelFrame at 1, bind at 1, get. unfold bind at 1.
      rewrite Hadd. unfold ret at 1. rewrite Hloop. by rewrite <- app_assoc.
    + done.
    + apply (run_trans 1 (length stack) c c1 c'); [|done]. split_and!; [done|lia|lia].
    + congruence.
    + congruence.
    + constructor; [|done]. destruct Hrun as [He' _].
      by apply (ext_index _ _ He' (KernelKey (kernelSymbolOf kernelSymbols addr))).
Qed.

Lemma userLoop_spec stack : ∀ c locs0,
  Inv c → Config c →
  ∃ ls c', forRange stack convertUserFrame locs0 c = Some (locs0 ++ ls, c') ∧
    Inv c' ∧ run (length stack) c c' ∧
    Profile.Sample (result c') = Profile.Sample (result c) ∧
    length ls + unmapped (Profile.Mapping (result c)) stack = length stack ∧
    frameDropOf c' labelFrameDropReasonMappingNil =
      frameDropOf c labelFrameDropReasonMappingNil + unmapped (Profile.Mapping (result c)) stack ∧
    Forall (λ l, ∃ k, indexOf c' k = Some l) ls.
Proof.
  induction stack as [|addr stack IH]; intros c locs0 HI HC; simpl.
  - exists [], c. rewrite app_nil_r. split_and!; auto using run_refl.
  - destruct (convertUserFrame_spec c locs0 addr HI HC)
      as (locs1 & c1 & Hstep & HI1 & He & Hs & Hl & Hf & Hcase).
    destruct (IH c1 locs1 HI1 (Config_ext _ _ He HC))
      as (ls & c' & Hloop & HI' & Hrun & Hs' & Hlen & Hdrop & Hall).
    rewrite (ext_Mapping _ _ He) in Hlen, Hdrop.
    assert (Hrun' : run (S (length stack)) c c').
    { apply (run_trans 1 (length stack) c c1 c'); [|done]. split_and!; [done|lia|lia]. }
    unfold bind at 1. rewrite Hstep. unfold unmapped in *. rewrite filter_cons.
    destruct (mapped (Profile.Mapping (result c)) addr) eqn:Hmapped.
    + destruct Hcase as (Hm & l & -> & Hk).
      exists (l :: ls), c'. rewrite decide_False by done.
      split_and!; try done.
      * rewrite Hloop. by rewrite <- app_assoc.
      * congruence.
      * simpl. lia.
      * rewrite Hdrop. unfold frameDropOf. by rewrite Hm.
      * constructor; [|done]. destruct Hk as [k Hk]. exists k.
        destruct Hrun as [He' _]. by apply (ext_index _ _ He').
    + destruct Hcase as (-> & Hm).
      exists ls, c'. rewrite decide_True by done.
      split_and!; try done.
      * congruence.
      * simpl. lia.
      * rewrite Hdrop. unfold frameDropOf. rewrite Hm. unfold Inc; simpl.
        rewrite lookup_insert_eq. simpl. lia.
Qed.


Lemma SampleOK_ext c c' kernelSymbols ms raw s :
  ext c c' → SampleOK c kernelSymbols ms raw s → SampleOK c' kernelSymbols ms raw s.
Proof.
  intros He (Hv & kls & uls & Hl & Hk & Hu & Hall).
  split; [done|]. exists kls, uls. split_and!; try done.
  - eapply Forall2_impl; [done|]. intros a l. simpl.
    apply (ext_index _ _ He (KernelKey (kernelSymbolOf kernelSymbols a))).
  - eapply Forall_impl; [done|]. intros l [k Hk']. exists k. by apply (ext_index _ _ He).
Qed.

Lemma Inv_append_Sample c s :
  Inv c → (∀ l, l ∈ Sample.Location s → l ∈ locs c) →
  Inv (set_result (append_Sample s) c).
Proof.
  intros [H1 H2 H3 H4 H5 H6 H7 H8 H9 H10 H11] Hs. split; try assumption.
  intros s' l. simpl. intros Hin Hl. apply elem_of_app in Hin as [Hin|Hin]; [by eauto|].
  apply list_elem_of_singleton in Hin as ->. auto.
Qed.

Lemma ext_append_Sample c s : ext c (set_result (append_Sample s) c).
Proof. split; try done. simpl. by apply prefix_app_r. Qed.

Lemma convertSample_spec kernelSymbols sample c :
  Inv c → Config c →
  ∃ s c', convertSample kernelSymbols sample c = Some (tt, c') ∧
    Inv c' ∧
    run (length (profile.KernelStack sample) + length (profile.UserStack sample)) c c' ∧
    Profile.Sample (result c') = Profile.Sample (result c) ++ [s] ∧
    SampleOK c' kernelSymbols (Profile.Mapping (result c)) sample s ∧
    frameDropOf c' labelFrameDropReasonMappingNil =
      frameDropOf c labelFrameDropReasonMappingNil +
      unmapped (Profile.Mapping (result c)) (profile.UserStack sample).
Proof.
  intros HI HC. unfold convertSample.
  destruct (kernelLoop_spec kernelSymbols (profile.KernelStack sample) c [] HI HC)
    as (kls & c1 & Hk & HI1 & Hrun1 & Hm1 & Hs1 & Hall1).
  pose proof Hrun1 as (He1 & _).
  destruct (userLoop_spec (profile.UserStack sample) c1 kls HI1 (Config_ext _ _ He1 HC))
    as (uls & c2 & Hu & HI2 & Hrun2 & Hs2 & Hlen & Hdrop & Hall2).
  pose proof Hrun2 as (He2 & _).
  rewrite (ext_Mapping _ _ He1) in Hlen, Hdrop.
  unfold bind at 1. rewrite Hk. simpl.
  unfold bind at 1. rewrite Hu.
  set (s := {| Sample.Location := kls ++ uls |}).
  exists s, (set_result (append_Sample s) c2). split; [reflexivity|].
  assert (Hok : SampleOK c2 kernelSymbols (Profile.Mapping (result c)) sample s).
  { split; [done|]. exists kls, uls. split_and!; try done.
    eapply Forall2_impl; [done|]. intros a l. simpl.
    apply (ext_index _ _ He2 (KernelKey (kernelSymbolOf kernelSymbols a))). }
  split_and!.
  - apply Inv_append_Sample; [done|]. intros l Hl. simpl in Hl.
    apply elem_of_app in Hl as [Hl|Hl].
    + apply list_elem_of_lookup in Hl as [i Hi].
      destruct (Forall2_lookup_r _ _ _ _ _ Hall1 Hi) as (a & _ & Ha).
      apply (ext_index _ _ He2 (KernelKey (kernelSymbolOf kernelSymbols a))) in Ha.
      by destruct (inv_index_sound c2 HI2 _ _ Ha).
    + rewrite Forall_forall in Hall2. destruct (Hall2 l Hl) as [k Hk'].
      by destruct (inv_index_sound c2 HI2 _ _ Hk').
  - pose proof (run_trans _ _ _ _ _ Hrun1 Hrun2) as (He & Hl & Hf).
    split_and!; [|done|done]. eapply ext_trans; [done|]. apply ext_append_Sample.
  - simpl. by rewrite Hs2, Hs1.
  - eapply SampleOK_ext; [|done]. apply ext_append_Sample.
  - change (frameDropOf (set_result (append_Sample s) c2) labelFrameDropReasonMappingNil)
      with (frameDropOf c2 labelFrameDropReasonMappingNil).
    rewrite Hdrop. unfold frameDropOf. by rewrite Hm1.
Qed.

Lemma sampleLoop_spec kernelSymbols rawData : ∀ c,
  Inv c → Config c →
  ∃ samples c',
    forRange rawData (λ _ sample, convertSample kernelSymbols sample) tt c = Some (tt, c') ∧
    Inv c' ∧ run (frames rawData) c c' ∧
    Profile.Sample (result c') = Profile.Sample (result c) ++ samples ∧
    Forall2 (SampleOK c' kernelSymbols (Profile.Mapping (result c))) rawData samples ∧
    frameDropOf c' labelFrameDropReasonMappingNil =
      frameDropOf c labelFrameDropReasonMappingNil +
      sum_list_with (λ s, unmapped (Profile.Mapping (result c)) (profile.UserStack s)) rawData.
Proof.
  induction rawData as [|sample rawData IH]; intros c HI HC; simpl.
  - exists [], c. rewrite app_nil_r. split_and!; auto using run_refl.
  - destruct (convertSample_spec kernelSymbols sample c HI HC)
      as (s & c1 & Hstep & HI1 & Hrun1 & Hs1 & Hok & Hdrop1).
    pose proof Hrun1 as (He1 & _).
    destruct (IH c1 HI1 (Config_ext _ _ He1 HC))
      as (samples & c' & Hloop & HI' & Hrun & Hs & Hall & Hdrop).
    pose proof Hrun as (He & _).
    rewrite (ext_Mapping _ _ He1) in Hall, Hdrop.
    exists (s :: samples), c'. split_and!.
    + unfold bind. by rewrite Hstep.
    + done.
    + unfold frames. simpl. by apply (run_trans _ _ c c1 c').
    + rewrite Hs, Hs1. by rewrite <- app_assoc.
    + constructor; [|done]. by eapply SampleOK_ext.
    + rewrite Hdrop, Hdrop1. lia.
Qed.

Lemma Convert_spec rawData c :
  Inv c → Config c →
  ∃ samples c',
    Convert rawData c = Some ((result c', None), c') ∧
    Inv c' ∧ Config c' ∧ run (frames rawData) c c' ∧
    Profile.Sample (result c') = Profile.Sample (result c) ++ samples ∧
    Forall2 (SampleOK c' (kernelSymbolsOf c rawData) (Profile.Mapping (result c)))
            rawData samples ∧
    frameDropOf c' labelFrameDropReasonMappingNil =
      frameDropOf c labelFrameDropReasonMappingNil +
      sum_list_with (λ s, unmapped (Profile.Mapping (result c)) (profile.UserStack s)) rawData.
Proof.
  intros HI HC. unfold Convert, kernelSymbolsOf. unfold bind at 1, get.
  destruct (ksym.Resolve _ _) as [kernelSymbols0 err].
  set (kernelSymbols := if nonnil err then _ else _).
  destruct (sampleLoop_spec kernelSymbols rawData c HI HC)
    as (samples & c' & Hloop & HI' & Hrun & Hs & Hall & Hdrop).
  exists samples, c'. unfold bind at 1. rewrite Hloop.
  pose proof Hrun as (He & _).
  split_and!; try done. by eapply Config_ext.
Qed.

Lemma NewConverter_Inv an ks vd pmc jdc metrics disableJIT pid mappings captureTime periodNS now :
  Inv (NewConverter an ks vd pmc jdc metrics disableJIT pid mappings captureTime periodNS now).
Proof.
  split; unfold locs, funcs; simpl; try done;
    try (by intros ? ? Hin; apply elem_of_nil in Hin);
    try (by intros ? Hin; apply elem_of_nil in Hin).
  - by intros [] l.
  - apply NoDup_nil_2.
Qed.

Lemma NewConverter_Config an ks vd pmc jdc metrics disableJIT pid mappings captureTime periodNS now :
  Config (NewConverter an ks vd pmc jdc metrics disableJIT pid mappings captureTime periodNS now).
Proof. by split. Qed.

(** *** Helper facts for the statements *)

Lemma uint64_small z : (0 ≤ z < 2 ^ 64)%Z → uint64 z = z.
Proof. intros. unfold uint64. by apply Z.mod_small. Qed.

Lemma uint64_succ_small (n : nat) :
  (Z.of_nat n + 1 < 2 ^ 64)%Z → uint64 (uint64 (Z.of_nat n) + 1) = (Z.of_nat n + 1)%Z.
Proof. intros. rewrite (uint64_small (Z.of_nat n)) by lia. apply uint64_small. lia. Qed.

Lemma filter_none {A} (P : A → Prop) `{∀ x, Decision (P x)} (l : list A) :
  (∀ y, y ∈ l → ¬ P y) → filter P l = [].
Proof.
  induction l as [|a l IH]; intros Hno; [done|].
  rewrite filter_cons, decide_False; [|apply Hno; left].
  apply IH. intros y Hy. apply Hno. by right.
Qed.

Lemma NoDup_fmap_filter_length {A B} `{EqDecision B} (f : A → B) (l : list A) (x : A) :
  NoDup (f <$> l) → x ∈ l → length (filter (λ y, f y = f x) l) = 1.
Proof.
  induction l as [|a l IH]; intros Hnd Hin; [by apply elem_of_nil in Hin|].
  rewrite fmap_cons in Hnd. apply NoDup_cons in Hnd as [Hnotin Hnd].
  rewrite filter_cons. apply elem_of_cons in Hin as [->|Hin].
  - rewrite decide_True by done. simpl. f_equal.
    apply length_zero_iff_nil. apply filter_none.
    intros y Hy Heq. apply Hnotin. rewrite <- Heq. apply list_elem_of_fmap. eauto.
  - rewrite decide_False; [by apply IH|].
    intros Heq. apply Hnotin. rewrite Heq. apply list_elem_of_fmap. eauto.
Qed.

Lemma filter_length_ext {A} (P Q : A → Prop) `{∀ x, Decision (P x)} `{∀ x, Decision (Q x)}
    (l : list A) :
  (∀ x, x ∈ l → P x ↔ Q x) → length (filter P l) = length (filter Q l).
Proof.
  induction l as [|a l IH]; intros Hext; [done|].
  rewrite !filter_cons.
  assert (Ha : P a ↔ Q a) by (apply Hext; left).
  assert (Hl : length (filter P l) = length (filter Q l)).
  { apply IH. intros x Hx. apply Hext. by right. }
  destruct (decide (P a)), (decide (Q a)); simpl; tauto || lia.
Qed.

(** In a table that satisfies the invariant, the Locations with the key
    of a kernel symbol are the kernel Locations for the symbol. *)
Lemma kernelLocationFor_keyOf c l symbol :
  Inv c → Config c → l ∈ locs c →
  keyOf l = KernelKey symbol ↔ kernelLocationFor (kernelMapping c) symbol l.
Proof.
  intros HI HC Hl. split.
  - intros Hk. split; [by eapply inv_kernel|].
    pose proof (inv_loc_line c HI l Hl) as Hlen.
    unfold keyOf in Hk. destruct (Location.Line l) as [|[f] [|]]; simpl in *; [done| |lia].
    exists f. split; [done|].
    repeat case_match; congruence.
  - intros (Hm & f & Hline & Hf). unfold keyOf. rewrite Hline, Hm, (cfg_kernel_file c HC).
    simpl. by rewrite Hf.
Qed.

Lemma Forall2_SampleOK_lookup c ks ms rawData samples i raw :
  Forall2 (SampleOK c ks ms) rawData samples → rawData !! i = Some raw →
  ∃ s, samples !! i = Some s ∧ SampleOK c ks ms raw s.
Proof. intros Hall Hi. by apply (Forall2_lookup_l _ _ _ _ _ Hall Hi). Qed.

Lemma contains_range m addr :
  contains m addr = true ↔ (Mapping.Start m ≤ addr < Mapping.Limit m)%Z.
Proof. unfold contains. rewrite andb_true_iff, Z.leb_le, Z.ltb_lt. done. Qed.

Lemma mapped_false ms addr :
  mapped ms addr = false ↔ ∀ m, m ∈ ms → ¬ (Mapping.Start m ≤ addr < Mapping.Limit m)%Z.
Proof.
  unfold mapped. split.
  - intros Hex m Hm Hr. apply contains_range in Hr.
    assert (existsb (λ m, contains m addr) ms = true); [|congruence].
    apply existsb_exists. exists m. split; [by apply list_elem_of_In|done].
  - intros Hno. apply not_true_is_false. intros Hex.
    apply existsb_exists in Hex as (m & Hm & Hc).
    apply (Hno m); [by apply list_elem_of_In|by apply contains_range].
Qed.

Lemma int64_nonneg z : (0 ≤ z < 2 ^ 63)%Z → int64 z = z.
Proof. intros. unfold int64. rewrite Z.mod_small; lia. Qed.

Lemma int64_wraps z : (2 ^ 63 ≤ z < 2 ^ 64)%Z → int64 z = (z - 2 ^ 64)%Z.
Proof.
  intros. unfold int64.
  rewrite <- (Z.mod_unique (z + 2 ^ 63) (2 ^ 64) 1 (z + 2 ^ 63 - 2 ^ 64)); lia.
Qed.

(** ** The claims about the converter *)

Section ConvertClaims.
Context (an : profiler.AddressNormalizer) (ks : ksym.Ksym) (vd : VDSOSymbolizer)
        (pmc : perf.PerfMapCache) (jdc : perf.JitdumpCache) (cm : ConverterMetrics)
        (disableJIT : bool) (pid : Z) (mappings : list process.Mapping)
        (captureTime : time.Time) (periodNS : Z) (now : time.Time).

#[local] Abbreviation c0 :=
  (NewConverter an ks vd pmc jdc cm disableJIT pid mappings captureTime periodNS now).

(** [Convert] on a fresh converter: it returns, with a nil error, and
    the facts that the claims below are read from. *)
Lemma Convert_NewConverter rawData :
  ∃ c', Convert rawData c0 = Some ((result c', None), c') ∧
    Inv c' ∧ Config c' ∧ run (frames rawData) c0 c' ∧
    Forall2 (SampleOK c' (kernelSymbolsOf c0 rawData) (Profile.Mapping (result c0)))
            rawData (Profile.Sample (result c')) ∧
    frameDropOf c' labelFrameDropReasonMappingNil =
      frameDropOf c0 labelFrameDropReasonMappingNil +
      sum_list_with (λ s, unmapped (Profile.Mapping (result c0)) (profile.UserStack s))
                    rawData.
Proof.
  destruct (Convert_spec rawData c0) as (samples & c' & Hc & HI & HC & Hrun & Hs & Hall & Hd).
  - apply NewConverter_Inv.
  - apply NewConverter_Config.
  - exists c'. split_and!; try done. by rewrite Hs.
Qed.

(** C2. In a profile produced by [Convert] the ids of the Mapping, the
    Location and the Function table are 1, 2, 3, ... in table order
    (unique, consecutive, starting at 1), the mapping of every Location
    is in the Mapping table and the function of every line of a Location
    is in the Function table.  The tables are Go slices: the bounds say
    that their lengths are representable. *)
Theorem Convert_ids_dense_and_closed rawData :
  (len mappings + 1 < 2 ^ 64)%Z →
  (Z.of_nat (frames rawData) < 2 ^ 64)%Z →
  ∃ p c', Convert rawData c0 = Some ((p, None), c') ∧
    dense Mapping.ID (Profile.Mapping p) ∧
    dense Location.ID (Profile.Location p) ∧
    dense Function.ID (Profile.Function p) ∧
    (∀ l, l ∈ Profile.Location p → Location.Mapping l ∈ Profile.Mapping p) ∧
    (∀ l ln, l ∈ Profile.Location p → ln ∈ Location.Line l →
             Line.Function ln ∈ Profile.Function p).
Proof.
  intros Hmappings Hframes.
  destruct (Convert_NewConverter rawData) as (c' & Hc & HI & HC & (He & Hl & Hf) & _).
  exists (result c'), c'. split_and!; [done| | | |apply HI|apply HI].
  - rewrite (ext_Mapping _ _ He). simpl. intros i m Hm. unfold len in Hmappings.
    apply lookup_app_Some in Hm as [Hm|[Hle Hm]].
    + pose proof (lookup_lt_Some _ _ _ Hm) as Hlt. rewrite length_ConvertToPprof in Hlt.
      unfold ConvertToPprof in Hm. rewrite list_lookup_imap in Hm.
      destruct (mappings !! i) as [pm|]; [|done]. injection Hm as <-. simpl.
      apply uint64_small. lia.
    + apply list_lookup_singleton_Some in Hm as [Hi <-]. simpl.
      rewrite length_ConvertToPprof in Hle, Hi. unfold len. rewrite length_ConvertToPprof.
      rewrite uint64_succ_small by lia. lia.
  - intros i l Hi. rewrite (inv_loc_ids c' HI i l Hi).
    apply lookup_lt_Some in Hi. unfold locs in *. simpl in Hl.
    apply uint64_succ_small. lia.
  - intros i f Hi. rewrite (inv_func_ids c' HI i f Hi).
    apply lookup_lt_Some in Hi. unfold funcs in *. simpl in Hf.
    apply uint64_small. lia.
Qed.

(** C3. The Mapping table of a converter, and of every profile that
    [Convert] produces from it, is the converted process mappings in
    order followed by the kernel mapping, whose file is
    ["[kernel.kallsyms]"] and whose id is the number of process mappings
    plus one; no kernel frame is needed for it to be there. *)
Theorem kernel_mapping_appended_last rawData :
  (len mappings < 2 ^ 63)%Z →
  let kernelMapping :=
    {| Mapping.ID := len mappings + 1; Mapping.Start := 0; Mapping.Limit := 0;
       Mapping.Offset := 0; Mapping.File := "[kernel.kallsyms]";
       Mapping.BuildID := "" |} in
  length (ConvertToPprof mappings) = length mappings ∧
  Profile.Mapping (result c0) = ConvertToPprof mappings ++ [kernelMapping] ∧
  ∃ p c', Convert rawData c0 = Some ((p, None), c') ∧
    Profile.Mapping p = ConvertToPprof mappings ++ [kernelMapping] ∧
    last (Profile.Mapping p) = Some kernelMapping.
Proof.
  intros Hlen kernelMapping.
  assert (Hm0 : Profile.Mapping (result c0) = ConvertToPprof mappings ++ [kernelMapping]).
  { simpl. do 2 f_equal. unfold kernelMapping. f_equal.
    unfold len in *. rewrite length_ConvertToPprof. apply uint64_succ_small. lia. }
  split; [apply length_ConvertToPprof|]. split; [done|].
  destruct (Convert_NewConverter rawData) as (c' & Hc & HI & HC & (He & _) & _).
  exists (result c'), c'. rewrite (ext_Mapping _ _ He), Hm0.
  split_and!; [done|done|apply last_snoc].
Qed.

(** C6, as the code has it. [NewConverter] sets [DurationNanos] to the
    time elapsed since the capture time at construction, and [Convert]
    leaves it unchanged. *)
Theorem DurationNanos_set_at_construction rawData :
  Profile.DurationNanos (result c0) = int64 (time.Since now captureTime) ∧
  ∃ p c', Convert rawData c0 = Some ((p, None), c') ∧
    Profile.DurationNanos p = Profile.DurationNanos (result c0).
Proof.
  split; [done|].
  destruct (Convert_NewConverter rawData) as (c' & Hc & HI & HC & (He & _) & _).
  exists (result c'), c'. split; [done|]. apply He.
Qed.

(** C10. The sample of the profile made from a raw sample has a value
    vector of one element, the raw [uint64] value converted to [int64]:
    the value itself below 2^63, and the value minus 2^64, a negative
    number, from 2^63 on. *)
Theorem sample_value_is_int64_of_raw rawData i raw :
  rawData !! i = Some raw →
  (0 ≤ profile.Value raw < 2 ^ 64)%Z →
  ∃ p c' s, Convert rawData c0 = Some ((p, None), c') ∧
    Profile.Sample p !! i = Some s ∧
    Sample.Value s = [int64 (profile.Value raw)] ∧
    ((profile.Value raw < 2 ^ 63)%Z → int64 (profile.Value raw) = profile.Value raw) ∧
    ((2 ^ 63 ≤ profile.Value raw)%Z →
       int64 (profile.Value raw) = (profile.Value raw - 2 ^ 64)%Z ∧
       (int64 (profile.Value raw) < 0)%Z).
Proof.
  intros Hi Hrange.
  destruct (Convert_NewConverter rawData) as (c' & Hc & HI & HC & _ & Hall & _).
  destruct (Forall2_SampleOK_lookup _ _ _ _ _ _ _ Hall Hi) as (s & Hs & Hv & _).
  exists (result c'), c', s. split_and!; try done.
  - intros Hlt. apply int64_nonneg. lia.
  - intros Hge. rewrite int64_wraps by lia. lia.
Qed.
End ConvertClaims.

(** ** The statements on the scenario *)

(** C2 on the scenario: four process mappings and ten frames. *)
Lemma Convert_ids_dense_and_closed_witness :
  (len Scenario.mappings + 1 < 2 ^ 64)%Z ∧
  (Z.of_nat (frames Scenario.rawData) < 2 ^ 64)%Z ∧
  ∃ p c', Convert Scenario.rawData Scenario.converter = Some ((p, None), c') ∧
    dense Mapping.ID (Profile.Mapping p) ∧
    dense Location.ID (Profile.Location p) ∧
    dense Function.ID (Profile.Function p) ∧
    (∀ l, l ∈ Profile.Location p → Location.Mapping l ∈ Profile.Mapping p) ∧
    (∀ l ln, l ∈ Profile.Location p → ln ∈ Location.Line l →
             Line.Function ln ∈ Profile.Function p).
Proof.
  assert (H1 : (len Scenario.mappings + 1 < 2 ^ 64)%Z) by (vm_compute; reflexivity).
  assert (H2 : (Z.of_nat (frames Scenario.rawData) < 2 ^ 64)%Z) by (vm_compute; reflexivity).
  split; [exact H1|]. split; [exact H2|].
  exact (Convert_ids_dense_and_closed Scenario.addressNormalizer Scenario.ksym
           Scenario.vdsoSymbolizer Scenario.perfMapCache Scenario.jitdumpCache
           Scenario.metrics false 42 Scenario.mappings 1000%Z 10000000 1500%Z
           Scenario.rawData H1 H2).
Defined.

(** C3 on the scenario, converting no sample at all: the kernel mapping
    is the fifth and last mapping. *)
Lemma kernel_mapping_appended_last_witness :
  (len Scenario.mappings < 2 ^ 63)%Z ∧
  Profile.Mapping (result Scenario.converter) =
    ConvertToPprof Scenario.mappings ++
    [ {| Mapping.ID := 5; Mapping.Start := 0; Mapping.Limit := 0; Mapping.Offset := 0;
         Mapping.File := "[kernel.kallsyms]"; Mapping.BuildID := "" |} ] ∧
  ∃ p c', Convert [] Scenario.converter = Some ((p, None), c') ∧
    last (Profile.Mapping p) =
      Some {| Mapping.ID := 5; Mapping.Start := 0; Mapping.Limit := 0; Mapping.Offset := 0;
              Mapping.File := "[kernel.kallsyms]"; Mapping.BuildID := "" |}.
Proof.
  assert (H1 : (len Scenario.mappings < 2 ^ 63)%Z) by (vm_compute; reflexivity).
  split; [exact H1|].
  destruct (kernel_mapping_appended_last Scenario.addressNormalizer Scenario.ksym
              Scenario.vdsoSymbolizer Scenario.perfMapCache Scenario.jitdumpCache
              Scenario.metrics false 42 Scenario.mappings 1000%Z 10000000 1500%Z [] H1)
    as (_ & Hm & p & c' & Hc & _ & Hlast).
  split; [exact Hm|]. exists p, c'. split; [exact Hc|exact Hlast].
Defined.

(** C10 on the second sample of the scenario, whose value is 2^64 - 1. *)
Lemma sample_value_is_int64_of_raw_witness :
  ∃ p c' s, Convert Scenario.rawData Scenario.converter = Some ((p, None), c') ∧
    Profile.Sample p !! 1 = Some s ∧ Sample.Value s = [(-1)%Z].
Proof.
  assert (H1 : Scenario.rawData !! 1 =
               Some {| profile.UserStack := [0x401234; 0x600900]%Z;
                       profile.KernelStack := [0xffffffff81000000]%Z;
                       profile.Value := 2 ^ 64 - 1 |}) by reflexivity.
  assert (H2 : (0 ≤ 2 ^ 64 - 1 < 2 ^ 64)%Z) by lia.
  destruct (sample_value_is_int64_of_raw Scenario.addressNormalizer Scenario.ksym
              Scenario.vdsoSymbolizer Scenario.perfMapCache Scenario.jitdumpCache
              Scenario.metrics false 42 Scenario.mappings 1000%Z 10000000 1500%Z
              Scenario.rawData 1 _ H1 H2)
    as (p & c' & s & Hc & Hs & Hv & _).
  exists p, c', s. split; [exact Hc|]. split; [exact Hs|exact Hv].
Defined.

(** C6 as the claim states it fails: the converter of the scenario is
    built 500 ns after the capture time, and its [DurationNanos] is 500 at
    construction, not unset; the profile that [Convert] returns still has
    500, whenever [Convert] runs. *)
Lemma DurationNanos_unset_counterexample :
  Profile.DurationNanos (result Scenario.converter) = 500%Z ∧
  Profile.DurationNanos (result Scenario.converter) ≠ 0%Z ∧
  ∃ p c', Convert Scenario.rawData Scenario.converter = Some ((p, None), c') ∧
          Profile.DurationNanos p = 500%Z.
Proof.
  assert (H500 : Profile.DurationNanos (result Scenario.converter) = 500%Z)
    by (vm_compute; reflexivity).
  split; [exact H500|]. split; [rewrite H500; discriminate|].
  destruct (Convert_NewConverter Scenario.addressNormalizer Scenario.ksym
              Scenario.vdsoSymbolizer Scenario.perfMapCache Scenario.jitdumpCache
              Scenario.metrics false 42 Scenario.mappings 1000%Z 10000000 1500%Z
              Scenario.rawData) as (c' & Hc & _ & _ & (He & _) & _).
  exists (result c'), c'. split; [exact Hc|].
  rewrite (ext_DurationNanos _ _ He). exact H500.
Qed.

(** The scenario, run: seven frames of the first sample give six
    Locations (the frame at [0xdeadbeef] is dropped and counted); the
    second sample shares the kernel and the native Location of the first;
    its value [2^64 - 1] is recorded as [-1]. *)
Example Convert_scenario :
  Scenario.summary (Convert Scenario.rawData Scenario.converter) =
  Some ([ ([1; 2; 3; 4; 5; 6], [1]); ([1; 3; 7], [-1]) ],
        [ (1, 5, KernelKey "do_syscall_64"); (2, 5, KernelKey "not found");
          (3, 1, AddrKey 0x1234); (4, 4, VDSOKey "__vdso_clock_gettime");
          (5, 2, PerfMapKey "jitted_loop"); (6, 3, AddrKey 0x700010);
          (7, 2, AddrKey 0x600900) ],
        [ "do_syscall_64"; "not found"; "__vdso_clock_gettime"; "jitted_loop" ],
        1%nat, false)%Z.
Proof. vm_compute. reflexivity. Qed.

(** With a resolver that fails, both kernel frames of the first sample
    share the one ["not found"] Location, and no error is returned. *)
Example Convert_scenario_resolver_fails :
  Scenario.summary (Convert Scenario.rawData Scenario.degradedConverter) =
  Some ([ ([1; 1; 2; 3; 4; 5], [1]); ([1; 2; 6], [-1]) ],
        [ (1, 5, KernelKey "not found"); (2, 1, AddrKey 0x1234);
          (3, 4, VDSOKey "__vdso_clock_gettime"); (4, 2, AddrKey 0x600010);
          (5, 3, AddrKey 0x700010); (6, 2, AddrKey 0x600900) ],
        [ "not found"; "__vdso_clock_gettime" ],
        1%nat, false)%Z.
Proof. vm_compute. reflexivity. Qed.

Import MethodSpec.

(** * Properties kept by the steps of a method *)

Lemma preserves_ret {S A} (P : S → Prop) (a : A) : preserves P (ret a).
Proof. intros s a' s' HP [= <- <-]. done. Qed.

Lemma preserves_get {S} (P : S → Prop) : preserves P get.
Proof. intros s a' s' HP [= <- <-]. done. Qed.

Lemma preserves_panic {S A} (P : S → Prop) : preserves P (@panic S A).
Proof. intros s a' s' HP [=]. Qed.

Lemma preserves_modify {S} (P : S → Prop) f : (∀ s, P s → P (f s)) → preserves P (modify f).
Proof. intros Hf s a' s' HP [= <- <-]. auto. Qed.

Lemma preserves_bind {S A B} (P : S → Prop) (m : M S A) (k : A → M S B) :
  preserves P m → (∀ a, preserves P (k a)) → preserves P (bind m k).
Proof.
  intros Hm Hk s b s' HP. unfold bind.
  destruct (m s) as [[a s1]|] eqn:Hms; [|done]. intros Hks.
  eapply Hk; [|done]. by eapply Hm.
Qed.

Lemma preserves_forRange {S A B} (P : S → Prop) (body : B → A → M S B) xs :
  (∀ acc x, preserves P (body acc x)) → ∀ acc, preserves P (forRange xs body acc).
Proof.
  intros Hbody. induction xs as [|x xs IH]; intros acc; simpl.
  - apply preserves_ret.
  - apply preserves_bind; [apply Hbody|]. intros acc'. apply IH.
Qed.

Lemma preserves_index {S A} (P : S → Prop) (xs : list A) i : preserves P (index xs i).
Proof.
  unfold index. destruct (i <? 0)%Z; [apply preserves_panic|].
  destruct (xs !! Z.to_nat i); [apply preserves_ret|apply preserves_panic].
Qed.

(** Steps through a method built from [bind], [get], [ret], loops and
    case distinctions. *)
Ltac preserves_step :=
  first
    [ apply preserves_ret
    | apply preserves_get
    | apply preserves_panic
    | apply preserves_index
    | apply preserves_forRange; intros ? ?
    | apply preserves_bind; [|intros ?]
    | match goal with
      | |- preserves _ (match ?x with _ => _ end) => destruct x
      | |- preserves _ (if ?x then _ else _) => destruct x
      end ].

Lemma tracks_ret {S A} (R : S → S → Prop) `{!Reflexive R} (a : A) : tracks R (ret a).
Proof. intros s a' s' [= <- <-]. done. Qed.

Lemma tracks_get {S} (R : S → S → Prop) `{!Reflexive R} : tracks R get.
Proof. intros s a' s' [= <- <-]. done. Qed.

Lemma tracks_panic {S A} (R : S → S → Prop) : tracks R (@panic S A).
Proof. intros s a' s' [=]. Qed.

Lemma tracks_modify {S} (R : S → S → Prop) f : (∀ s, R s (f s)) → tracks R (modify f).
Proof. intros Hf s a' s' [= <- <-]. auto. Qed.

Lemma tracks_bind {S A B} (R : S → S → Prop) `{!Transitive R} (m : M S A) (k : A → M S B) :
  tracks R m → (∀ a, tracks R (k a)) → tracks R (bind m k).
Proof.
  intros Hm Hk s b s'. unfold bind.
  destruct (m s) as [[a s1]|] eqn:Hms; [|done]. intros Hks.
  transitivity s1; [by eapply Hm|by eapply Hk].
Qed.

Ltac tracks_step :=
  first
    [ apply tracks_ret; tc_solve
    | apply tracks_get; tc_solve
    | apply tracks_panic
    | apply tracks_bind; [tc_solve| |intros ?]
    | match goal with
      | |- tracks _ (match ?x with _ => _ end) => destruct x
      | |- tracks _ (if ?x then _ else _) => destruct x
      end ].

(** Membership of a name in a list of names. *)
Ltac in_names := solve [ repeat first [ apply list_elem_of_here | apply list_elem_of_further ] ].

Ltac not_in_names :=
  solve [ repeat (apply not_elem_of_cons; split; [done|]); apply not_elem_of_nil ].

Import MethodSpec RouteSpec.

(** *** The function table *)

Lemma addFunction_FuncInv name : preserves FuncInv (addFunction name).
Proof.
  intros c f c' [Hnd Hidx]. unfold addFunction, bind, get.
  destruct (functionIndex c !! name) as [g|] eqn:Hname.
  - intros [= <- <-]. by split.
  - intros [= <- <-]. unfold modify; simpl.
    assert (Hfresh : ∀ g, g ∈ funcs c → Function.Name g ≠ name).
    { intros g Hg Heq. apply Hidx in Hg. congruence. }
    split; unfold funcs in *; simpl.
    + rewrite fmap_app. apply NoDup_app. split_and!; [done| |apply NoDup_singleton].
      intros n Hn Hn'. apply list_elem_of_singleton in Hn'. subst n.
      apply list_elem_of_fmap in Hn as (g & Heq & Hg). by apply (Hfresh g).
    + intros g Hg. apply elem_of_app in Hg as [Hg|Hg].
      * rewrite lookup_insert_ne; [by apply Hidx|]. intros Heq. by apply (Hfresh g).
      * apply list_elem_of_singleton in Hg as ->. simpl. by rewrite lookup_insert_eq.
Qed.

(** Closes the steps that leave the function table and its index alone. *)
Ltac FuncInv_modify :=
  apply preserves_modify; intros ? [? ?]; split; assumption.

Ltac FuncInv_method :=
  repeat first
    [ apply addFunction_FuncInv
    | FuncInv_modify
    | preserves_step ].

Lemma addKernelLocation_FuncInv m kernelSymbols addr :
  preserves FuncInv (addKernelLocation m kernelSymbols addr).
Proof. unfold addKernelLocation. FuncInv_method. Qed.

Lemma addVDSOLocation_FuncInv processMapping m addr :
  preserves FuncInv (addVDSOLocation processMapping m addr).
Proof. unfold addVDSOLocation. FuncInv_method. Qed.

Lemma addAddrLocationNoNormalization_FuncInv m addr :
  preserves FuncInv (addAddrLocationNoNormalization m addr).
Proof. unfold addAddrLocationNoNormalization. FuncInv_method. Qed.

Lemma addAddrLocation_FuncInv processMapping m addr :
  preserves FuncInv (addAddrLocation processMapping m addr).
Proof.
  unfold addAddrLocation. apply preserves_bind; [apply preserves_get|]. intros c.
  destruct (profiler.Normalize _ _ _). apply addAddrLocationNoNormalization_FuncInv.
Qed.

Lemma perfMap_FuncInv : preserves FuncInv perfMap.
Proof. unfold perfMap. FuncInv_method. Qed.

Lemma jitdump_FuncInv path : preserves FuncInv (jitdump path).
Proof. unfold jitdump. FuncInv_method. Qed.

Lemma addPerfMapLocation_FuncInv m addr : preserves FuncInv (addPerfMapLocation m addr).
Proof.
  unfold addPerfMapLocation.
  repeat first
    [ apply addAddrLocationNoNormalization_FuncInv
    | apply perfMap_FuncInv
    | apply addFunction_FuncInv
    | FuncInv_modify
    | preserves_step ].
Qed.

Lemma addJITDumpLocation_FuncInv m addr path :
  preserves FuncInv (addJITDumpLocation m addr path).
Proof.
  unfold addJITDumpLocation.
  repeat first
    [ apply addAddrLocationNoNormalization_FuncInv
    | apply jitdump_FuncInv
    | apply addFunction_FuncInv
    | FuncInv_modify
    | preserves_step ].
Qed.

Lemma convertUserFrame_FuncInv locs0 addr : preserves FuncInv (convertUserFrame locs0 addr).
Proof.
  unfold convertUserFrame.
  repeat first
    [ apply addVDSOLocation_FuncInv
    | apply addPerfMapLocation_FuncInv
    | apply addJITDumpLocation_FuncInv
    | apply addAddrLocation_FuncInv
    | FuncInv_modify
    | preserves_step ].
Qed.

Lemma convertKernelFrame_FuncInv kernelSymbols locs0 addr :
  preserves FuncInv (convertKernelFrame kernelSymbols locs0 addr).
Proof.
  unfold convertKernelFrame.
  repeat first [ apply addKernelLocation_FuncInv | preserves_step ].
Qed.

(** *** The memos *)

Ltac MemoInv_modify :=
  apply preserves_modify; intros ? [? ?]; split; assumption.

Lemma perfMap_MemoInv : preserves MemoInv perfMap.
Proof.
  intros c a c' [Hp Hj]. unfold perfMap, bind, get.
  destruct (nonnil (cachedPerfMap c) || nonnil (cachedPerfMapErr c)).
  - intros [= <- <-]. by split.
  - intros [= <- <-]. split; [|done]. right. simpl.
    by destruct (perf.PerfMapForPID _ _).
Qed.

Lemma jitdump_MemoInv path : preserves MemoInv (jitdump path).
Proof.
  intros c a c' [Hp Hj]. unfold jitdump, bind, get.
  destruct (nonnil (cachedJitdump c !! path) || nonnil (cachedJitdumpErr c !! path)).
  - intros [= <- <-]. by split.
  - destruct (perf.JitdumpForPID (jitdumpCache c) (pid c) path) as [jd err] eqn:Hjd.
    intros [= <- <-]. split; [done|]. intros path'. simpl.
    destruct (decide (path = path')) as [<-|Hne].
    + right. rewrite !lookup_insert_eq, Hjd. done.
    + rewrite !lookup_insert_ne by done. apply Hj.
Qed.

Ltac MemoInv_method :=
  repeat first
    [ apply perfMap_MemoInv
    | apply jitdump_MemoInv
    | MemoInv_modify
    | preserves_step ].

Lemma convertUserFrame_MemoInv locs0 addr : preserves MemoInv (convertUserFrame locs0 addr).
Proof.
  unfold convertUserFrame,
    addVDSOLocation, addPerfMapLocation, addJITDumpLocation,
    addAddrLocation, addAddrLocationNoNormalization, addFunction.
  MemoInv_method.
Qed.

Lemma convertKernelFrame_MemoInv kernelSymbols locs0 addr :
  preserves MemoInv (convertKernelFrame kernelSymbols locs0 addr).
Proof.
  unfold convertKernelFrame, addKernelLocation, addFunction.
  MemoInv_method.
Qed.

Lemma NewConverter_MemoInv an ks vd pmc jdc metrics disableJIT pid mappings captureTime periodNS now :
  MemoInv (NewConverter an ks vd pmc jdc metrics disableJIT pid mappings captureTime periodNS now).
Proof. split; [by left|]. intros path. left. simpl. by rewrite !lookup_empty. Qed.

Lemma NewConverter_FuncInv an ks vd pmc jdc metrics disableJIT pid mappings captureTime periodNS now :
  FuncInv (NewConverter an ks vd pmc jdc metrics disableJIT pid mappings captureTime periodNS now).
Proof. split; [apply NoDup_nil_2|]. intros f Hf. by apply elem_of_nil in Hf. Qed.

(** *** The key of a user frame *)

Lemma keyFor_ext c c' processMapping m addr :
  ext c c' → keyFor c' processMapping m addr = keyFor c processMapping m addr.
Proof.
  intros He. unfold keyFor.
  by rewrite (ext_vdsoSymbolizer _ _ He), (ext_disableJIT _ _ He), (ext_perfMapCache _ _ He),
    (ext_pid _ _ He), (ext_jitdumpCache _ _ He), (ext_addressNormalizer _ _ He).
Qed.

Lemma userMapping_ext c c' addr : ext c c' → userMapping c' addr = userMapping c addr.
Proof.
  intros He. unfold userMapping. by rewrite (ext_Mapping _ _ He), (ext_mappings _ _ He).
Qed.

Lemma routeKey_ext c c' addr : ext c c' → routeKey c' addr = routeKey c addr.
Proof.
  intros He. unfold routeKey. rewrite (userMapping_ext c c' addr He).
  destruct (userMapping c addr) as [[pm m]|]; [|done].
  simpl. f_equal. by apply keyFor_ext.
Qed.

Lemma perfMap_answer c a c' :
  MemoInv c → perfMap c = Some (a, c') →
  a = perf.PerfMapForPID (perfMapCache c) (pid c) ∧ memoized c c'.
Proof.
  intros [Hp _]. unfold perfMap, bind, get.
  destruct (nonnil (cachedPerfMap c) || nonnil (cachedPerfMapErr c)) eqn:Hc.
  - intros [= <- <-]. split; [|by split].
    destruct Hp as [Hp|Hp]; [|done].
    injection Hp as Hp1 Hp2. by rewrite Hp1, Hp2 in Hc.
  - intros [= <- <-]. split.
    + simpl. by destruct (perf.PerfMapForPID _ _).
    + split; [by intros []|done|done|apply Inv_set_cachedPerfMap|by intros []].
Qed.

Lemma jitdump_answer c path a c' :
  MemoInv c → jitdump path c = Some (a, c') →
  a = perf.JitdumpForPID (jitdumpCache c) (pid c) path ∧ memoized c c'.
Proof.
  intros [_ Hj]. unfold jitdump, bind, get.
  destruct (nonnil (cachedJitdump c !! path) || nonnil (cachedJitdumpErr c !! path)) eqn:Hc.
  - intros [= <- <-]. split; [|by split].
    destruct (Hj path) as [[H1 H2]|[H1 H2]].
    + by rewrite H1, H2 in Hc.
    + rewrite H1, H2. simpl. by destruct (perf.JitdumpForPID _ _ _).
  - destruct (perf.JitdumpForPID _ _ _) as [jd err].
    intros [= <- <-]. split; [done|].
    split; [by intros []|done|done|apply Inv_set_cachedJitdump|by intros []].
Qed.

Lemma keyed_after_memo k c c1 l c' : memoized c c1 → keyed k c1 l c' → keyed k c l c'.
Proof.
  intros [Hi Hl Hf _ _] [H1 H2 H3]. split; [done| |].
  - by rewrite <- Hi, <- Hl.
  - by rewrite <- Hi, <- Hf.
Qed.

Lemma addAddrLocationNoNormalization_key m addr c l c' :
  addAddrLocationNoNormalization m addr c = Some (l, c') →
  keyed (AddrKey addr) c l c'.
Proof.
  unfold addAddrLocationNoNormalization, bind, get.
  destruct (addrLocationIndex c !! addr) as [l0|] eqn:Hidx.
  - intros [= <- <-]. split; simpl; by rewrite ?Hidx.
  - intros [= <- <-]. split; simpl; rewrite ?Hidx; try done. by rewrite lookup_insert_eq.
Qed.

(** [addFunction] appends the name unless a function has it. *)
Lemma addFunction_names name c f c1 :
  Inv c → FuncInv c → addFunction name c = Some (f, c1) →
  locs c1 = locs c ∧ (∀ k, indexOf c1 k = indexOf c k) ∧
  Function.Name <$> funcs c1 = addNew (Function.Name <$> funcs c) name.
Proof.
  intros HI [Hnd Hidx]. unfold addFunction, bind, get, addNew.
  destruct (functionIndex c !! name) as [g|] eqn:Hname.
  - intros [= <- <-]. split_and!; try done.
    destruct (inv_func_index c HI _ _ Hname) as [Hg Hn].
    rewrite decide_True; [done|]. apply list_elem_of_fmap. by exists g.
  - intros [= <- <-]. split_and!; [done|by intros []|].
    rewrite decide_False.
    + unfold funcs. simpl. by rewrite fmap_app.
    + intros Hin. apply list_elem_of_fmap in Hin as (g & Heq & Hg).
      apply Hidx in Hg. congruence.
Qed.

(** The miss path that the four symbolizing methods share. *)
Lemma symbolized_key k m name (c : Converter) l c' :
  Inv c → FuncInv c → nameOf k = Some name →
  (let* c := get in
   match indexOf c k with
   | Some l => ret l
   | None =>
       let id := uint64 (uint64 (len (Profile.Location (result c))) + 1) in
       let* f := addFunction name in
       let l := {| Location.ID := id; Location.Mapping := m; Location.Address := 0;
                   Location.Line := [ {| Line.Function := f |} ] |} in
       let* _ := modify (insertIndex k l) in
       let* _ := modify (set_result (append_Location l)) in
       ret l
   end) c = Some (l, c') →
  keyed k c l c'.
Proof.
  intros HI HF Hname. unfold bind at 1, get.
  destruct (indexOf c k) as [l0|] eqn:Hidx.
  - intros [= <- <-]. split; by rewrite ?Hidx.
  - unfold bind at 1. destruct (addFunction name c) as [[f c1]|] eqn:Hadd; [|done].
    destruct (addFunction_names name c f c1 HI HF Hadd) as (Hl & Hk & Hf).
    intros [= <- <-]. split; rewrite ?Hidx, ?Hname.
    + rewrite indexOf_set_result, indexOf_insertIndex. by rewrite decide_True.
    + rewrite <- Hl. by destruct k.
    + rewrite <- Hf. by destruct k.
Qed.

Lemma addKernelLocation_key m kernelSymbols addr c l c' :
  Inv c → FuncInv c →
  addKernelLocation m kernelSymbols addr c = Some (l, c') →
  keyed (KernelKey (kernelSymbolOf kernelSymbols addr)) c l c'.
Proof.
  intros HI HF. unfold addKernelLocation.
  by apply (symbolized_key (KernelKey _) m _ c).
Qed.

Lemma addVDSOLocation_key processMapping m addr c l c' :
  Inv c → FuncInv c →
  Mapping.File m = "[vdso]" →
  addVDSOLocation processMapping m addr c = Some (l, c') →
  keyed (keyFor c processMapping m addr) c l c'.
Proof.
  intros HI HF Hfile. unfold keyFor. rewrite Hfile. simpl.
  unfold addVDSOLocation. unfold bind at 1, get.
  destruct (Resolve _ _ _) as [functionName0 err].
  by apply (symbolized_key (VDSOKey _) m _ c).
Qed.

Lemma addAddrLocation_key processMapping m addr c l c' :
  String.eqb (Mapping.File m) "[vdso]" = false →
  String.eqb (Mapping.File m) "jit" = false →
  strings.HasSuffix (Mapping.File m) ".dump" = false →
  addAddrLocation processMapping m addr c = Some (l, c') →
  keyed (keyFor c processMapping m addr) c l c'.
Proof.
  intros Hv Hj Hd. unfold keyFor. rewrite Hv, Hj, Hd.
  unfold addAddrLocation. unfold bind at 1, get.
  destruct (profiler.Normalize _ _ _) as [normalizedAddress err].
  apply addAddrLocationNoNormalization_key.
Qed.

Lemma addPerfMapLocation_key processMapping m addr c l c' :
  Inv c → FuncInv c → MemoInv c →
  String.eqb (Mapping.File m) "[vdso]" = false →
  String.eqb (Mapping.File m) "jit" = true →
  addPerfMapLocation m addr c = Some (l, c') →
  keyed (keyFor c processMapping m addr) c l c'.
Proof.
  intros HI HF HM Hv Hj. unfold keyFor. rewrite Hv, Hj.
  unfold addPerfMapLocation. unfold bind at 1, get.
  destruct (disableJITSymbolization c).
  { apply addAddrLocationNoNormalization_key. }
  unfold bind at 1. destruct (perfMap c) as [[[pm e] c1]|] eqn:Hpm; [|done].
  destruct (perfMap_answer c _ c1 HM Hpm) as (Ha & Hmemo).
  rewrite <- Ha. unfold jitKey. simpl. intros Hrun.
  apply (keyed_after_memo _ c c1); [done|]. revert Hrun.
  destruct pm as [pm|]; [|apply addAddrLocationNoNormalization_key].
  destruct (perf.Lookup pm addr) as [symbol err].
  destruct (nonnil err); [apply addAddrLocationNoNormalization_key|].
  apply (symbolized_key (PerfMapKey symbol) m symbol c1); [|by apply Hmemo|done].
  by apply Hmemo.
Qed.

Lemma addJITDumpLocation_key processMapping m addr c l c' :
  Inv c → FuncInv c → MemoInv c →
  String.eqb (Mapping.File m) "[vdso]" = false →
  String.eqb (Mapping.File m) "jit" = false →
  strings.HasSuffix (Mapping.File m) ".dump" = true →
  addJITDumpLocation m addr (Mapping.File m) c = Some (l, c') →
  keyed (keyFor c processMapping m addr) c l c'.
Proof.
  intros HI HF HM Hv Hj Hd. unfold keyFor. rewrite Hv, Hj, Hd.
  unfold addJITDumpLocation. unfold bind at 1, get.
  destruct (disableJITSymbolization c).
  { apply addAddrLocationNoNormalization_key. }
  unfold bind at 1. destruct (jitdump _ c) as [[[jd e] c1]|] eqn:Hjd; [|done].
  destruct (jitdump_answer c _ _ c1 HM Hjd) as (Ha & Hmemo).
  rewrite <- Ha. unfold jitKey. simpl. intros Hrun.
  apply (keyed_after_memo _ c c1); [done|]. revert Hrun.
  destruct jd as [jd|]; [|apply addAddrLocationNoNormalization_key].
  destruct (perf.Lookup jd addr) as [symbol err].
  destruct (nonnil err); [apply addAddrLocationNoNormalization_key|].
  apply (symbolized_key (JITDumpKey symbol) m symbol c1); [|by apply Hmemo|done].
  by apply Hmemo.
Qed.

(** A user frame is appended as the entry of its key, or dropped. *)
Lemma convertUserFrame_key c locs0 addr locs' c' :
  Inv c → FuncInv c → MemoInv c →
  convertUserFrame locs0 addr c = Some (locs', c') →
  match routeKey c addr with
  | Some k => ∃ l, locs' = locs0 ++ [l] ∧ keyed k c l c'
  | None => locs' = locs0 ∧ locs c' = locs c ∧ funcs c' = funcs c
  end.
Proof.
  intros HI HF HM. unfold routeKey, userMapping, convertUserFrame. unfold bind at 1, get.
  destruct (_ =? -1)%Z.
  { by intros [= <- <-]. }
  unfold bind at 1, index.
  destruct (_ <? 0)%Z; [done|].
  destruct (mappings c !! _) as [pm|]; [|done]. unfold ret at 1.
  unfold bind at 1.
  destruct (Profile.Mapping (result c) !! _) as [m|]; [|done]. unfold ret at 1.
  simpl.
  assert (Happ : ∀ (a : M Converter Location.t),
    (∀ l c', a c = Some (l, c') → keyed (keyFor c pm m addr) c l c') →
    bind a (λ l, ret (locs0 ++ [l])) c = Some (locs', c') →
    ∃ l, locs' = locs0 ++ [l] ∧ keyed (keyFor c pm m addr) c l c').
  { intros a Ha. unfold bind. destruct (a c) as [[l c1]|] eqn:Hac; [|done].
    intros [= <- <-]. exists l. split; [done|]. by apply Ha. }
  destruct (String.eqb (Mapping.File m) "[vdso]") eqn:Hv.
  { apply Happ. intros l c1. apply addVDSOLocation_key; try done. by apply String.eqb_eq. }
  destruct (String.eqb (Mapping.File m) "jit") eqn:Hj.
  { apply Happ. intros l c1. by apply addPerfMapLocation_key. }
  destruct (strings.HasSuffix (Mapping.File m) ".dump") eqn:Hd.
  { apply Happ. intros l c1. by apply addJITDumpLocation_key. }
  apply Happ. intros l c1. by apply addAddrLocation_key.
Qed.

Lemma convertKernelFrame_key kernelSymbols c locs0 addr locs' c' :
  Inv c → FuncInv c →
  convertKernelFrame kernelSymbols locs0 addr c = Some (locs', c') →
  ∃ l, locs' = locs0 ++ [l] ∧ keyed (KernelKey (kernelSymbolOf kernelSymbols addr)) c l c'.
Proof.
  intros HI HF. unfold convertKernelFrame. unfold bind at 1, get. unfold bind at 1.
  destruct (addKernelLocation _ _ _ c) as [[l c1]|] eqn:Hadd; [|done].
  intros [= <- <-]. exists l. split; [done|]. by eapply addKernelLocation_key.
Qed.

(** *** The tables after a frame *)

Lemma distinct_snoc {A} `{EqDecision A} (xs : list A) x :
  distinct (xs ++ [x]) = addNew (distinct xs) x.
Proof. unfold distinct. by rewrite foldl_app. Qed.

Lemma keyed_tables k c l c' :
  Inv c → Inv c' → keyed k c l c' →
  keyOf <$> locs c' = addNew (keyOf <$> locs c) k ∧ (TableInv c → TableInv c').
Proof.
  intros HI HI' [Hk Hl Hf]. unfold addNew, TableInv.
  destruct (indexOf c k) as [l0|] eqn:Hidx.
  - rewrite Hl, Hf. destruct (inv_index_sound c HI _ _ Hidx) as [Hin Hkey].
    rewrite decide_True; [done|]. apply list_elem_of_fmap. by exists l0.
  - destruct (inv_index_sound c' HI' _ _ Hk) as [_ Hkey].
    rewrite Hl, fmap_app. simpl. rewrite Hkey.
    rewrite decide_False.
    + split; [done|]. intros HT. rewrite Hf, omap_app. cbn.
      destruct (nameOf k) as [name|].
      * by rewrite distinct_snoc, HT.
      * by rewrite app_nil_r.
    + intros Hin. apply list_elem_of_fmap in Hin as (x & Heq & Hx).
      apply (inv_index_complete c HI) in Hx. congruence.
Qed.

(** *** The loops *)

Lemma omap_routeKey_ext c c' (stack : list Z) :
  ext c c' → omap (routeKey c') stack = omap (routeKey c) stack.
Proof.
  intros He. induction stack as [|a stack IH]; [done|].
  cbn. by rewrite (routeKey_ext c c' a He), IH.
Qed.

Lemma routed_nil c : Ready c → routed c [] [] c.
Proof. intros HR. split; auto using ext_refl. Qed.

(** One frame with key [k], then the frames with the keys [ks]. *)
Lemma routed_cons c k l c1 ks ls c' :
  Ready c → Inv c1 → keyed k c l c1 → ext c c1 →
  Profile.Sample (result c1) = Profile.Sample (result c) →
  routed c1 ks ls c' → routed c (k :: ks) (l :: ls) c'.
Proof.
  intros [HI HC HM HF HT] HI1 Hkeyed He1 Hs1 [HR' He' Hs' Hall Htab].
  destruct (keyed_tables k c l c1 HI HI1 Hkeyed) as [Hkeys _].
  split; [done|by eapply ext_trans|congruence| |].
  - constructor; [|done]. apply (ext_index _ _ He'). by destruct Hkeyed.
  - simpl. by rewrite <- Hkeys.
Qed.

(** A dropped frame, then the frames with the keys [ks]. *)
Lemma routed_skip c c1 ks ls c' :
  ext c c1 → locs c1 = locs c →
  Profile.Sample (result c1) = Profile.Sample (result c) →
  routed c1 ks ls c' → routed c ks ls c'.
Proof.
  intros He1 Hl1 Hs1 [HR' He' Hs' Hall Htab].
  split; [done|by eapply ext_trans|congruence|done|]. by rewrite <- Hl1.
Qed.

Lemma Ready_after_keyed k c l c' :
  Ready c → Inv c' → ext c c' → MemoInv c' → FuncInv c' → keyed k c l c' → Ready c'.
Proof.
  intros [HI HC HM HF HT] HI' He HM' HF' Hkeyed.
  split; try done; [by eapply Config_ext|].
  by apply (keyed_tables k c l c' HI HI' Hkeyed).
Qed.

Lemma userLoop_routed stack : ∀ c locs0,
  Ready c →
  ∃ ls c', forRange stack convertUserFrame locs0 c = Some (locs0 ++ ls, c') ∧
    routed c (omap (routeKey c) stack) ls c'.
Proof.
  induction stack as [|addr stack IH]; intros c locs0 HR.
  - exists [], c. simpl. rewrite app_nil_r. split; [done|]. by apply routed_nil.
  - pose proof HR as [HI HC HM HF HT].
    destruct (convertUserFrame_spec c locs0 addr HI HC)
      as (locs1 & c1 & Hstep & HI1 & He & Hs & _ & _ & _).
    pose proof (convertUserFrame_MemoInv _ _ _ _ _ HM Hstep) as HM1.
    pose proof (convertUserFrame_FuncInv _ _ _ _ _ HF Hstep) as HF1.
    pose proof (convertUserFrame_key _ _ _ _ _ HI HF HM Hstep) as Hkey.
    cbn. unfold bind at 1. rewrite Hstep.
    destruct (routeKey c addr) as [k|].
    + destruct Hkey as (l & -> & Hk).
      destruct (IH c1 (locs0 ++ [l])) as (ls & c' & Hloop & Hrouted).
      { by eapply Ready_after_keyed. }
      rewrite (omap_routeKey_ext c c1) in Hrouted by done.
      exists (l :: ls), c'. split.
      * rewrite Hloop. by rewrite <- app_assoc.
      * by eapply routed_cons.
    + destruct Hkey as (-> & Hl & Hf).
      destruct (IH c1 locs0) as (ls & c' & Hloop & Hrouted).
      { split; try done; [by eapply Config_ext|]. unfold TableInv. by rewrite Hl, Hf. }
      rewrite (omap_routeKey_ext c c1) in Hrouted by done.
      exists ls, c'. split; [done|]. by eapply routed_skip.
Qed.

Lemma kernelLoop_routed kernelSymbols stack : ∀ c locs0,
  Ready c →
  ∃ ls c', forRange stack (convertKernelFrame kernelSymbols) locs0 c = Some (locs0 ++ ls, c') ∧
    routed c ((λ a, KernelKey (kernelSymbolOf kernelSymbols a)) <$> stack) ls c'.
Proof.
  induction stack as [|addr stack IH]; intros c locs0 HR.
  - exists [], c. simpl. rewrite app_nil_r. split; [done|]. by apply routed_nil.
  - pose proof HR as [HI HC HM HF HT].
    destruct (addKernelLocation_spec c kernelSymbols addr HI HC)
      as (l & c1 & Hadd & HI1 & [He Hm Hs Hl Hf] & Hk).
    assert (Hstep : convertKernelFrame kernelSymbols locs0 addr c = Some (locs0 ++ [l], c1)).
    { unfold convertKernelFrame. unfold bind at 1, get. unfold bind. by rewrite Hadd. }
    pose proof (convertKernelFrame_MemoInv _ _ _ _ _ _ HM Hstep) as HM1.
    pose proof (convertKernelFrame_FuncInv _ _ _ _ _ _ HF Hstep) as HF1.
    destruct (convertKernelFrame_key _ _ _ _ _ _ HI HF Hstep) as (l' & Heq & Hkeyed).
    apply app_inv_head in Heq. injection Heq as <-.
    destruct (IH c1 (locs0 ++ [l])) as (ls & c' & Hloop & Hrouted).
    { by eapply Ready_after_keyed. }
    exists (l :: ls), c'. split.
    + cbn. unfold bind at 1. rewrite Hstep, Hloop. by rewrite <- app_assoc.
    + rewrite fmap_cons. by eapply routed_cons.
Qed.

Lemma routed_app c ks1 ls1 c1 ks2 ls2 c' :
  routed c ks1 ls1 c1 → routed c1 ks2 ls2 c' → routed c (ks1 ++ ks2) (ls1 ++ ls2) c'.
Proof.
  intros [HR1 He1 Hs1 Hall1 Htab1] [HR2 He2 Hs2 Hall2 Htab2].
  split; [done|by eapply ext_trans|congruence| |].
  - apply Forall2_app; [|done]. eapply Forall2_impl; [done|].
    intros k l. apply (ext_index _ _ He2).
  - by rewrite foldl_app, <- Htab1.
Qed.

Lemma routed_elem_of c ks ls c' l : routed c ks ls c' → l ∈ ls → l ∈ locs c'.
Proof.
  intros [HR _ _ Hall _] Hl. apply list_elem_of_lookup in Hl as [i Hi].
  destruct (Forall2_lookup_r _ _ _ _ _ Hall Hi) as (k & _ & Hk).
  by destruct (inv_index_sound c' (ready_Inv c' HR) _ _ Hk).
Qed.

Lemma Ready_append_Sample c s :
  Ready c → (∀ l, l ∈ Sample.Location s → l ∈ locs c) →
  Ready (set_result (append_Sample s) c).
Proof.
  intros [HI HC HM HF HT] Hs. split.
  - by apply Inv_append_Sample.
  - eapply Config_ext; [apply ext_append_Sample|done].
  - destruct HM. by split.
  - destruct HF. by split.
  - exact HT.
Qed.

Lemma convertSample_routed kernelSymbols sample c :
  Ready c →
  ∃ s c', convertSample kernelSymbols sample c = Some (tt, c') ∧
    Ready c' ∧ ext c c' ∧
    Profile.Sample (result c') = Profile.Sample (result c) ++ [s] ∧
    Forall2 (λ k l, indexOf c' k = Some l) (keysOf c kernelSymbols sample) (Sample.Location s) ∧
    keyOf <$> locs c' = foldl addNew (keyOf <$> locs c) (keysOf c kernelSymbols sample).
Proof.
  intros HR. unfold convertSample.
  destruct (kernelLoop_routed kernelSymbols (profile.KernelStack sample) c [] HR)
    as (kls & c1 & Hk & Hrouted1).
  destruct (userLoop_routed (profile.UserStack sample) c1 kls (routed_Ready _ _ _ _ Hrouted1))
    as (uls & c2 & Hu & Hrouted2).
  rewrite (omap_routeKey_ext c c1) in Hrouted2 by apply (routed_ext _ _ _ _ Hrouted1).
  pose proof (routed_app _ _ _ _ _ _ _ Hrouted1 Hrouted2) as Hrouted.
  pose proof Hrouted as [HR2 He2 Hs2 Hall2 Htab2].
  unfold bind at 1. rewrite Hk. simpl.
  unfold bind at 1. rewrite Hu.
  set (s := {| Sample.Location := kls ++ uls |}).
  exists s, (set_result (append_Sample s) c2). split; [reflexivity|].
  split_and!.
  - apply Ready_append_Sample; [done|]. intros l Hl.
    by apply (routed_elem_of c _ (kls ++ uls) c2 l Hrouted).
  - eapply ext_trans; [done|]. apply ext_append_Sample.
  - simpl. by rewrite Hs2.
  - eapply Forall2_impl; [exact Hall2|]. intros k l Hk'. by rewrite indexOf_set_result.
  - exact Htab2.
Qed.

Lemma keysOf_ext c c' kernelSymbols raw :
  ext c c' → keysOf c' kernelSymbols raw = keysOf c kernelSymbols raw.
Proof. intros He. unfold keysOf. by rewrite (omap_routeKey_ext c c'). Qed.

Lemma bind_keysOf_ext c c' kernelSymbols (rawData : list profile.RawSample) :
  ext c c' →
  rawData ≫= keysOf c' kernelSymbols = rawData ≫= keysOf c kernelSymbols.
Proof.
  intros He. induction rawData as [|raw rawData IH]; [done|].
  cbn. by rewrite IH, (keysOf_ext c c').
Qed.

Lemma sampleLoop_routed kernelSymbols rawData : ∀ c,
  Ready c →
  ∃ samples c',
    forRange rawData (λ _ sample, convertSample kernelSymbols sample) tt c = Some (tt, c') ∧
    Ready c' ∧ ext c c' ∧
    Profile.Sample (result c') = Profile.Sample (result c) ++ samples ∧
    Forall2 (λ raw s, Forall2 (λ k l, indexOf c' k = Some l) (keysOf c kernelSymbols raw)
                              (Sample.Location s))
            rawData samples ∧
    keyOf <$> locs c' = foldl addNew (keyOf <$> locs c) (rawData ≫= keysOf c kernelSymbols).
Proof.
  induction rawData as [|sample rawData IH]; intros c HR.
  - exists [], c. simpl. rewrite app_nil_r. split_and!; auto using ext_refl.
  - destruct (convertSample_routed kernelSymbols sample c HR)
      as (s & c1 & Hstep & HR1 & He1 & Hs1 & Hok & Htab1).
    destruct (IH c1 HR1) as (samples & c' & Hloop & HR' & He & Hs & Hall & Htab).
    exists (s :: samples), c'. split_and!.
    + simpl. unfold bind. by rewrite Hstep.
    + done.
    + by eapply ext_trans.
    + rewrite Hs, Hs1. by rewrite <- app_assoc.
    + constructor.
      * eapply Forall2_impl; [done|]. intros k l. apply (ext_index _ _ He).
      * eapply Forall2_impl; [done|]. intros raw s'. simpl.
        by rewrite (keysOf_ext c c1).
    + rewrite Htab, Htab1. cbn. rewrite foldl_app. f_equal.
      by apply bind_keysOf_ext.
Qed.

(** [Convert] on any converter that satisfies the invariants: it
    returns, each new sample lists the entries of the keys of its
    frames, and the Location table grows by the new keys in the order in
    which the frames are walked. *)
Lemma Convert_routed rawData c :
  Ready c →
  ∃ samples c',
    Convert rawData c = Some ((result c', None), c') ∧
    Ready c' ∧ ext c c' ∧
    Profile.Sample (result c') = Profile.Sample (result c) ++ samples ∧
    Forall2 (λ raw s, Forall2 (λ k l, indexOf c' k = Some l)
                              (keysOf c (kernelSymbolsOf c rawData) raw)
                              (Sample.Location s))
            rawData samples ∧
    keyOf <$> locs c' =
      foldl addNew (keyOf <$> locs c) (rawData ≫= keysOf c (kernelSymbolsOf c rawData)).
Proof.
  intros HR. unfold Convert, kernelSymbolsOf. unfold bind at 1, get.
  destruct (ksym.Resolve _ _) as [kernelSymbols0 err].
  set (kernelSymbols := if nonnil err then _ else _).
  destruct (sampleLoop_routed kernelSymbols rawData c HR)
    as (samples & c' & Hloop & HR' & He & Hs & Hall & Htab).
  exists samples, c'. unfold bind at 1. rewrite Hloop.
  split; [reflexivity|]. by split_and!.
Qed.

Lemma NewConverter_Ready an ks vd pmc jdc metrics disableJIT pid mappings captureTime periodNS now :
  Ready (NewConverter an ks vd pmc jdc metrics disableJIT pid mappings captureTime periodNS now).
Proof.
  split.
  - apply NewConverter_Inv.
  - apply NewConverter_Config.
  - apply NewConverter_MemoInv.
  - apply NewConverter_FuncInv.
  - reflexivity.
Qed.

Import AttributionSpec.

(** *** The mapping of a new Location *)

#[global] Instance backedBy_refl m : Reflexive (backedBy m).
Proof. intros c l Hl. by left. Qed.

#[global] Instance backedBy_trans m : Transitive (backedBy m).
Proof.
  intros c1 c2 c3 H12 H23 l Hl. destruct (H23 l Hl) as [Hl2|Hm]; [|by right].
  by apply H12.
Qed.

(** A step that appends a Location backed by [m], or leaves the table
    alone. *)
Ltac backedBy_modify :=
  apply tracks_modify; intros ? ? Hl; simpl in Hl;
  first
    [ by left
    | unfold locs in *; simpl in Hl;
      apply elem_of_app in Hl as [Hl|Hl%list_elem_of_singleton];
      [by left|right; by subst] ].

Ltac backedBy_method := repeat first [ backedBy_modify | tracks_step ].

Lemma addFunction_backedBy m name : tracks (backedBy m) (addFunction name).
Proof. unfold addFunction. backedBy_method. Qed.

Lemma addAddrLocationNoNormalization_backedBy m addr :
  tracks (backedBy m) (addAddrLocationNoNormalization m addr).
Proof. unfold addAddrLocationNoNormalization. backedBy_method. Qed.

Lemma addAddrLocation_backedBy processMapping m addr :
  tracks (backedBy m) (addAddrLocation processMapping m addr).
Proof.
  unfold addAddrLocation.
  repeat first [ apply addAddrLocationNoNormalization_backedBy | tracks_step ].
Qed.

Lemma addVDSOLocation_backedBy processMapping m addr :
  tracks (backedBy m) (addVDSOLocation processMapping m addr).
Proof.
  unfold addVDSOLocation.
  repeat first [ apply addFunction_backedBy | backedBy_modify | tracks_step ].
Qed.

Lemma addPerfMapLocation_backedBy m addr : tracks (backedBy m) (addPerfMapLocation m addr).
Proof.
  unfold addPerfMapLocation, perfMap.
  repeat first
    [ apply addAddrLocationNoNormalization_backedBy | apply addFunction_backedBy
    | backedBy_modify | tracks_step ].
Qed.

Lemma addJITDumpLocation_backedBy m addr path :
  tracks (backedBy m) (addJITDumpLocation m addr path).
Proof.
  unfold addJITDumpLocation, jitdump.
  repeat first
    [ apply addAddrLocationNoNormalization_backedBy | apply addFunction_backedBy
    | backedBy_modify | tracks_step ].
Qed.

(** The Location that a user frame adds is backed by the mapping that
    [Convert] selects for the address. *)
Lemma convertUserFrame_backedBy c locs0 addr processMapping m locs' c' :
  userMapping c addr = Some (processMapping, m) →
  convertUserFrame locs0 addr c = Some (locs', c') → backedBy m c c'.
Proof.
  unfold userMapping, convertUserFrame. unfold bind at 1, get.
  set (i := mappingForAddr (Profile.Mapping (result c)) addr).
  destruct (i =? -1)%Z; [done|].
  unfold bind at 1, index.
  destruct (i <? 0)%Z; [done|].
  destruct (mappings c !! Z.to_nat i) as [pm|]; [|done]. unfold ret at 1.
  unfold bind at 1.
  destruct (Profile.Mapping (result c) !! Z.to_nat i) as [m0|]; [|done]. unfold ret at 1.
  intros [= -> ->]. clear i. revert c locs' c'.
  change (tracks (backedBy m)
    (if String.eqb (Mapping.File m) "[vdso]"
     then bind (addVDSOLocation processMapping m addr) (λ l, ret (locs0 ++ [l]))
     else if String.eqb (Mapping.File m) "jit"
     then bind (addPerfMapLocation m addr) (λ l, ret (locs0 ++ [l]))
     else if strings.HasSuffix (Mapping.File m) ".dump"
     then bind (addJITDumpLocation m addr (Mapping.File m)) (λ l, ret (locs0 ++ [l]))
     else bind (addAddrLocation processMapping m addr) (λ l, ret (locs0 ++ [l])))).
  repeat first
    [ apply addVDSOLocation_backedBy | apply addPerfMapLocation_backedBy
    | apply addJITDumpLocation_backedBy | apply addAddrLocation_backedBy | tracks_step ].
Qed.

(** *** The invariants after one frame *)

Lemma convertUserFrame_Ready c locs0 addr locs' c' :
  Ready c → convertUserFrame locs0 addr c = Some (locs', c') → Ready c' ∧ ext c c'.
Proof.
  intros HR Hstep.
  destruct (userLoop_routed [addr] c locs0 HR) as (ls & c1 & Hloop & Hrouted).
  cbn in Hloop. unfold bind in Hloop. rewrite Hstep in Hloop. injection Hloop as _ <-.
  split; [apply (routed_Ready _ _ _ _ Hrouted)|apply (routed_ext _ _ _ _ Hrouted)].
Qed.

Lemma convertKernelFrame_Ready kernelSymbols c locs0 addr locs' c' :
  Ready c → convertKernelFrame kernelSymbols locs0 addr c = Some (locs', c') →
  Ready c' ∧ ext c c'.
Proof.
  intros HR Hstep.
  destruct (kernelLoop_routed kernelSymbols [addr] c locs0 HR) as (ls & c1 & Hloop & Hrouted).
  cbn in Hloop. unfold bind in Hloop. rewrite Hstep in Hloop. injection Hloop as _ <-.
  split; [apply (routed_Ready _ _ _ _ Hrouted)|apply (routed_ext _ _ _ _ Hrouted)].
Qed.

(** A frame with key [k] adds at most the entry of [k] to the table. *)
Lemma keyed_new k c l c' x :
  Inv c → Inv c' → keyed k c l c' → x ∈ locs c' →
  x ∈ locs c ∨ (x = l ∧ keyOf l = k ∧ l ∉ locs c).
Proof.
  intros HI HI' [Hk Hl Hf] Hx.
  destruct (inv_index_sound c' HI' _ _ Hk) as [_ Hkey].
  destruct (indexOf c k) as [l0|] eqn:Hidx.
  - left. by rewrite <- Hl.
  - rewrite Hl in Hx. apply elem_of_app in Hx as [Hx|Hx%list_elem_of_singleton]; [by left|].
    right. subst x. split_and!; try done.
    intros Hin. apply (inv_index_complete c HI) in Hin. congruence.
Qed.

Lemma convertUserFrame_MappingInv c0 rawData raw c locs0 addr locs' c' :
  Ready c → ext c0 c → MappingInv c0 rawData c →
  raw ∈ rawData → addr ∈ profile.UserStack raw →
  convertUserFrame locs0 addr c = Some (locs', c') →
  MappingInv c0 rawData c'.
Proof.
  intros HR He HMap Hraw Haddr Hstep.
  destruct (convertUserFrame_Ready _ _ _ _ _ HR Hstep) as [HR' He'].
  pose proof HR as [HI HC HM HF HT].
  pose proof (convertUserFrame_key _ _ _ _ _ HI HF HM Hstep) as Hkey.
  unfold routeKey in Hkey.
  destruct (userMapping c addr) as [[pm m]|] eqn:Hum; simpl in Hkey.
  - destruct Hkey as (l & -> & Hkeyed).
    pose proof (convertUserFrame_backedBy _ _ _ _ _ _ _ Hum Hstep) as Hback.
    intros x Hx.
    destruct (keyed_new _ _ _ _ x HI (ready_Inv c' HR') Hkeyed Hx) as [Hold|(-> & Hk & Hnew)].
    + by apply HMap.
    + right. exists raw, addr, pm, m. split_and!; try done.
      * by rewrite <- (userMapping_ext c0 c).
      * by rewrite <- (keyFor_ext c0 c).
      * by destruct (Hback l Hx).
  - destruct Hkey as (_ & Hl & _). intros x Hx. apply HMap. by rewrite <- Hl.
Qed.

Lemma convertKernelFrame_MappingInv c0 rawData kernelSymbols c locs0 addr locs' c' :
  Ready c → MappingInv c0 rawData c →
  convertKernelFrame kernelSymbols locs0 addr c = Some (locs', c') →
  MappingInv c0 rawData c'.
Proof.
  intros HR HMap Hstep.
  destruct (convertKernelFrame_Ready _ _ _ _ _ _ HR Hstep) as [HR' He'].
  pose proof HR as [HI HC HM HF HT].
  destruct (convertKernelFrame_key _ _ _ _ _ _ HI HF Hstep) as (l & -> & Hkeyed).
  intros x Hx.
  destruct (keyed_new _ _ _ _ x HI (ready_Inv c' HR') Hkeyed Hx) as [Hold|(-> & Hk & Hnew)].
  - by apply HMap.
  - left. by eexists.
Qed.

(** *** The invariant through the loops *)

Lemma userLoop_MappingInv c0 rawData raw (stack : list Z) : ∀ c locs0 locs' c',
  Ready c → ext c0 c → MappingInv c0 rawData c →
  raw ∈ rawData → (∀ a, a ∈ stack → a ∈ profile.UserStack raw) →
  forRange stack convertUserFrame locs0 c = Some (locs', c') →
  MappingInv c0 rawData c'.
Proof.
  induction stack as [|addr stack IH]; intros c locs0 locs' c' HR He HMap Hraw Hsub.
  - by intros [= <- <-].
  - cbn. unfold bind at 1.
    destruct (convertUserFrame locs0 addr c) as [[locs1 c1]|] eqn:Hstep; [|done].
    destruct (convertUserFrame_Ready _ _ _ _ _ HR Hstep) as [HR1 He1].
    intros Hloop. apply (IH c1 locs1 locs' c'); [done| | |done| |done].
    + by eapply ext_trans.
    + apply (convertUserFrame_MappingInv c0 rawData raw c locs0 addr locs1 c1); try done.
      apply Hsub. by left.
    + intros a Ha. apply Hsub. by right.
Qed.

Lemma kernelLoop_MappingInv c0 rawData kernelSymbols (stack : list Z) : ∀ c locs0 locs' c',
  Ready c → MappingInv c0 rawData c →
  forRange stack (convertKernelFrame kernelSymbols) locs0 c = Some (locs', c') →
  MappingInv c0 rawData c'.
Proof.
  induction stack as [|addr stack IH]; intros c locs0 locs' c' HR HMap.
  - by intros [= <- <-].
  - cbn. unfold bind at 1.
    destruct (convertKernelFrame kernelSymbols locs0 addr c) as [[locs1 c1]|] eqn:Hstep; [|done].
    destruct (convertKernelFrame_Ready _ _ _ _ _ _ HR Hstep) as [HR1 He1].
    intros Hloop. apply (IH c1 locs1 locs' c'); [done| |done].
    by apply (convertKernelFrame_MappingInv c0 rawData kernelSymbols c locs0 addr locs1 c1).
Qed.

Lemma convertSample_MappingInv c0 rawData kernelSymbols sample c c' :
  Ready c → ext c0 c → MappingInv c0 rawData c → sample ∈ rawData →
  convertSample kernelSymbols sample c = Some (tt, c') →
  MappingInv c0 rawData c'.
Proof.
  intros HR He HMap Hsample. unfold convertSample. unfold bind at 1.
  destruct (kernelLoop_routed kernelSymbols (profile.KernelStack sample) c [] HR)
    as (kls & c1 & Hk & Hrouted1).
  rewrite Hk. simpl. unfold bind at 1.
  destruct (forRange (profile.UserStack sample) convertUserFrame kls c1)
    as [[locs2 c2]|] eqn:Hu; [|done].
  unfold modify. intros [= <-].
  assert (HMap2 : MappingInv c0 rawData c2).
  { apply (userLoop_MappingInv c0 rawData sample (profile.UserStack sample) c1 kls locs2 c2);
      [| | |done|done|exact Hu].
    - apply (routed_Ready _ _ _ _ Hrouted1).
    - eapply ext_trans; [done|]. apply (routed_ext _ _ _ _ Hrouted1).
    - by apply (kernelLoop_MappingInv c0 rawData kernelSymbols
                  (profile.KernelStack sample) c [] kls c1). }
  intros x Hx. by apply HMap2.
Qed.

Lemma sampleLoop_MappingInv c0 rawData kernelSymbols (samples : list profile.RawSample) :
  ∀ c c',
    Ready c → ext c0 c → MappingInv c0 rawData c →
    (∀ s, s ∈ samples → s ∈ rawData) →
    forRange samples (λ _ sample, convertSample kernelSymbols sample) tt c = Some (tt, c') →
    MappingInv c0 rawData c'.
Proof.
  induction samples as [|sample samples IH]; intros c c' HR He HMap Hsub.
  - by intros [= <-].
  - cbn. unfold bind at 1.
    destruct (convertSample_routed kernelSymbols sample c HR)
      as (s & c1 & Hstep & HR1 & He1 & _).
    rewrite Hstep. intros Hloop. apply (IH c1 c'); [done| | | |done].
    + by eapply ext_trans.
    + apply (convertSample_MappingInv c0 rawData kernelSymbols sample c c1); try done.
      apply Hsub. by left.
    + intros s' Hs'. apply Hsub. by right.
Qed.

(** Every Location that [Convert] leaves in the table of a fresh
    converter is a kernel Location or the Location of a user frame. *)
Lemma Convert_MappingInv rawData c r c' :
  Ready c → locs c = [] → Convert rawData c = Some (r, c') → MappingInv c rawData c'.
Proof.
  intros HR Hnil. unfold Convert. unfold bind at 1, get.
  destruct (ksym.Resolve _ _) as [kernelSymbols0 err].
  set (kernelSymbols := if nonnil err then _ else _).
  unfold bind at 1.
  destruct (forRange rawData _ tt c) as [[[] c1]|] eqn:Hloop; [|done].
  unfold bind, get, ret. intros [= _ <-].
  eapply sampleLoop_MappingInv; [exact HR|apply ext_refl| |by intros s Hs|exact Hloop].
  intros l Hl. rewrite Hnil in Hl. by apply elem_of_nil in Hl.
Qed.

(** *** What a key says about its Location *)

Lemma keyOf_AddrKey l addr :
  keyOf l = AddrKey addr → Location.Line l = [] ∧ Location.Address l = addr.
Proof.
  unfold keyOf. destruct (Location.Line l) as [|ln rest].
  - by intros [= <-].
  - destruct (String.eqb _ "[vdso]"); [done|].
    destruct (String.eqb _ "jit"); [done|].
    by destruct (strings.HasSuffix _ ".dump").
Qed.

Lemma keyOf_symbolized c l k name :
  Inv c → l ∈ locs c → keyOf l = k → nameOf k = Some name →
  ∃ f, Location.Line l = [ {| Line.Function := f |} ] ∧ Function.Name f = name ∧
       f ∈ funcs c.
Proof.
  intros HI Hl Hkey Hname.
  pose proof (inv_loc_line c HI l Hl) as Hlen.
  pose proof (inv_loc_funcs c HI l) as Hfuncs.
  unfold keyOf in Hkey. destruct (Location.Line l) as [|[f] rest].
  { subst k. done. }
  destruct rest; [|simpl in Hlen; lia].
  exists f. split; [done|]. split.
  - simpl in Hkey.
    destruct (String.eqb _ "[vdso]"); [subst k; by injection Hname|].
    destruct (String.eqb _ "jit"); [subst k; by injection Hname|].
    destruct (strings.HasSuffix _ ".dump"); subst k; by injection Hname.
  - apply (Hfuncs {| Line.Function := f |}); [done|]. by apply list_elem_of_singleton.
Qed.

Lemma keyOf_VDSOKey l name :
  keyOf l = VDSOKey name → Mapping.File (Location.Mapping l) = "[vdso]".
Proof.
  unfold keyOf. destruct (Location.Line l) as [|ln rest]; [done|].
  destruct (String.eqb _ "[vdso]") eqn:Hv; [intros _; by apply String.eqb_eq|].
  destruct (String.eqb _ "jit"); [done|].
  by destruct (strings.HasSuffix _ ".dump").
Qed.

Lemma keyOf_PerfMapKey l name :
  keyOf l = PerfMapKey name → Mapping.File (Location.Mapping l) = "jit".
Proof.
  unfold keyOf. destruct (Location.Line l) as [|ln rest]; [done|].
  destruct (String.eqb _ "[vdso]") eqn:Hv; [done|].
  destruct (String.eqb _ "jit") eqn:Hj; [intros _; by apply String.eqb_eq|].
  by destruct (strings.HasSuffix _ ".dump").
Qed.

Lemma keyOf_JITDumpKey l name :
  keyOf l = JITDumpKey name →
  strings.HasSuffix (Mapping.File (Location.Mapping l)) ".dump" = true.
Proof.
  unfold keyOf. destruct (Location.Line l) as [|ln rest]; [done|].
  destruct (String.eqb _ "[vdso]") eqn:Hv; [done|].
  destruct (String.eqb _ "jit") eqn:Hj; [done|].
  by destruct (strings.HasSuffix _ ".dump").
Qed.

Lemma entries_keys c ks ls :
  Inv c → Forall2 (λ k l, indexOf c k = Some l) ks ls → keyOf <$> ls = ks.
Proof.
  intros HI Hall. induction Hall as [|k l ks ls Hk Hall IH]; [done|].
  rewrite fmap_cons, IH. f_equal. by destruct (inv_index_sound c HI _ _ Hk).
Qed.

Lemma entries_elem_of c ks ls k :
  Forall2 (λ k l, indexOf c k = Some l) ks ls → k ∈ ks →
  ∃ l, l ∈ ls ∧ indexOf c k = Some l.
Proof.
  intros Hall Hk. apply list_elem_of_lookup in Hk as [i Hi].
  destruct (Forall2_lookup_l _ _ _ _ _ Hall Hi) as (l & Hl & Hkl).
  exists l. split; [|done]. by eapply list_elem_of_lookup_2.
Qed.

(** *** Keys and mappings of user frames *)

Lemma elem_of_foldl_addNew {A} `{EqDecision A} (xs : list A) : ∀ acc x,
  x ∈ foldl addNew acc xs ↔ x ∈ acc ∨ x ∈ xs.
Proof.
  induction xs as [|y xs IH]; intros acc x; simpl.
  - split; [by left|]. intros [H|H]; [done|by apply elem_of_nil in H].
  - rewrite IH. unfold addNew. rewrite elem_of_cons. case_decide as Hy.
    + split; [intros [H|H]; auto|]. intros [H|[->|H]]; auto.
    + rewrite elem_of_app, list_elem_of_singleton. split.
      * intros [[H|H]|H]; auto.
      * intros [H|[H|H]]; auto.
Qed.

Lemma elem_of_distinct {A} `{EqDecision A} (xs : list A) x : x ∈ distinct xs ↔ x ∈ xs.
Proof.
  unfold distinct. rewrite elem_of_foldl_addNew. split; [|by right].
  intros [H|H]; [by apply elem_of_nil in H|done].
Qed.

(** A user frame never resolves to a kernel key. *)
Lemma keyFor_not_kernel c processMapping m addr symbol :
  keyFor c processMapping m addr ≠ KernelKey symbol.
Proof.
  unfold keyFor, jitKey.
  destruct (String.eqb _ "[vdso]"); [by destruct (Resolve _ _ _)|].
  destruct (String.eqb _ "jit").
  { destruct (disableJITSymbolization c); [done|].
    destruct (perf.PerfMapForPID _ _).1 as [pm|]; [|done].
    destruct (perf.Lookup pm addr) as [symbol' err]. by destruct (nonnil err). }
  destruct (strings.HasSuffix _ ".dump").
  { destruct (disableJITSymbolization c); [done|].
    destruct (perf.JitdumpForPID _ _ _).1 as [pm|]; [|done].
    destruct (perf.Lookup pm addr) as [symbol' err]. by destruct (nonnil err). }
  by destruct (profiler.Normalize _ _ _).
Qed.

(** The mappings that [Convert] selects are those at the index that
    [mappingForAddr] returns, which is the index of a process mapping. *)
Lemma userMapping_index c addr (n : nat) :
  Config c → mappingForAddr (Profile.Mapping (result c)) addr = Z.of_nat n →
  ∃ processMapping m,
    mappings c !! n = Some processMapping ∧ Profile.Mapping (result c) !! n = Some m ∧
    userMapping c addr = Some (processMapping, m).
Proof.
  intros HC Hn.
  destruct (mappingForAddr_spec (Profile.Mapping (result c)) addr)
    as [[Hr _]|(n' & m & Hr & Hm & Hc & _)]; [lia|].
  assert (n' = n) as -> by lia.
  destruct (mapped_index c addr n m HC Hm Hc) as [_ [pm Hpm]].
  exists pm, m. split_and!; try done.
  unfold userMapping. rewrite Hn.
  destruct (Z.of_nat n =? -1)%Z eqn:Hneg; [apply Z.eqb_eq in Hneg; lia|].
  by rewrite Nat2Z.id, Hpm, Hm.
Qed.

Lemma userMapping_none c addr :
  mappingForAddr (Profile.Mapping (result c)) addr = (-1)%Z → userMapping c addr = None.
Proof. intros Hr. unfold userMapping. by rewrite Hr. Qed.

Section ConvertRouting.
Context (an : profiler.AddressNormalizer) (ks : ksym.Ksym) (vd : VDSOSymbolizer)
  (pmc : perf.PerfMapCache) (jdc : perf.JitdumpCache) (cm : ConverterMetrics)
  (disableJIT : bool) (pid : Z) (mappings : list process.Mapping)
  (captureTime : time.Time) (periodNS : Z) (now : time.Time).

#[local] Abbreviation c0 :=
  (NewConverter an ks vd pmc jdc cm disableJIT pid mappings captureTime periodNS now).

Lemma Convert_NewConverter_routed rawData :
  ∃ c', Convert rawData c0 = Some ((result c', None), c') ∧ Ready c' ∧ ext c0 c' ∧
    Forall2 (λ raw s, Forall2 (λ k l, indexOf c' k = Some l)
                              (keysOf c0 (kernelSymbolsOf c0 rawData) raw)
                              (Sample.Location s))
            rawData (Profile.Sample (result c')) ∧
    keyOf <$> locs c' = distinct (rawData ≫= keysOf c0 (kernelSymbolsOf c0 rawData)).
Proof.
  destruct (Convert_routed rawData c0) as (samples & c' & Hrun & HR & He & Hs & Hall & Htab).
  { apply NewConverter_Ready. }
  exists c'. split_and!; [done|done|done| |exact Htab].
  by rewrite Hs.
Qed.

(** The Location of a user frame that a mapping contains. *)
Lemma Convert_user_frame rawData :
  ∃ c', Convert rawData c0 = Some ((result c', None), c') ∧ Ready c' ∧ ext c0 c' ∧
    ∀ i raw addr processMapping m,
      rawData !! i = Some raw → addr ∈ profile.UserStack raw →
      userMapping c0 addr = Some (processMapping, m) →
      ∃ s l, Profile.Sample (result c') !! i = Some s ∧ l ∈ Sample.Location s ∧
             l ∈ locs c' ∧ indexOf c' (keyFor c0 processMapping m addr) = Some l ∧
             keyOf l = keyFor c0 processMapping m addr.
Proof.
  destruct (Convert_NewConverter_routed rawData) as (c' & Hrun & HR & He & Hall & Htab).
  exists c'. split_and!; try done.
  intros i raw addr pm m Hi Haddr Hum.
  destruct (Forall2_lookup_l _ _ _ _ _ Hall Hi) as (s & Hs & Hentries).
  destruct (entries_elem_of c' _ _ (keyFor c0 pm m addr) Hentries) as (l & Hl & Hk).
  { unfold keysOf. apply elem_of_app; right. apply list_elem_of_omap.
    exists addr. split; [done|]. unfold routeKey. by rewrite Hum. }
  destruct (inv_index_sound c' (ready_Inv c' HR) _ _ Hk) as [Hin Hkey].
  by exists s, l.
Qed.

(** [Convert] on a fresh converter, frame by frame: the sample of a raw
    sample lists the entry of the symbol of every kernel frame and then
    the entry of the key of every user frame that a mapping contains. *)
Lemma Convert_frames rawData :
  ∃ c', Convert rawData c0 = Some ((result c', None), c') ∧ Ready c' ∧ ext c0 c' ∧
    MappingInv c0 rawData c' ∧
    keyOf <$> locs c' = distinct (rawData ≫= keysOf c0 (kernelSymbolsOf c0 rawData)) ∧
    frameDropOf c' labelFrameDropReasonMappingNil =
      frameDropOf c0 labelFrameDropReasonMappingNil +
      sum_list_with (λ s, unmapped (Profile.Mapping (result c0)) (profile.UserStack s))
                    rawData ∧
    length (Profile.Sample (result c')) = length rawData ∧
    ∀ i raw, rawData !! i = Some raw →
      ∃ s kls uls, Profile.Sample (result c') !! i = Some s ∧
        Sample.Value s = [int64 (profile.Value raw)] ∧
        Sample.Location s = kls ++ uls ∧
        Forall2 (λ a l, indexOf c'
                   (KernelKey (kernelSymbolOf (kernelSymbolsOf c0 rawData) a)) = Some l)
                (profile.KernelStack raw) kls ∧
        Forall2 (λ k l, indexOf c' k = Some l)
                (omap (routeKey c0) (profile.UserStack raw)) uls ∧
        length uls + unmapped (Profile.Mapping (result c0)) (profile.UserStack raw) =
          length (profile.UserStack raw).
Proof.
  destruct (Convert_NewConverter_routed rawData) as (c' & Hrun & HR & He & Hall & Htab).
  destruct (Convert_NewConverter an ks vd pmc jdc cm disableJIT pid mappings captureTime
              periodNS now rawData) as (c'' & Hrun' & _ & _ & _ & Hok & Hdrop).
  assert (c'' = c') as -> by congruence. clear Hrun'.
  exists c'. split_and!; try done.
  - eapply Convert_MappingInv; [apply NewConverter_Ready|done|exact Hrun].
  - symmetry. by eapply Forall2_length.
  - intros i raw Hi.
    destruct (Forall2_lookup_l _ _ _ _ _ Hall Hi) as (s & Hs & Hentries).
    destruct (Forall2_SampleOK_lookup _ _ _ _ _ _ _ Hok Hi)
      as (s' & Hs' & Hv & kls & uls & Hl & Hk & Hu & _).
    rewrite Hs in Hs'. injection Hs' as <-.
    exists s, kls, uls. split_and!; try done.
    unfold keysOf in Hentries. rewrite Hl in Hentries.
    apply Forall2_app_inv_l in Hentries as (l1 & l2 & H1 & H2 & Heq).
    assert (Hlen : length kls = length l1).
    { rewrite <- (Forall2_length _ _ _ Hk), <- (Forall2_length _ _ _ H1).
      by rewrite length_fmap. }
    apply app_inj_1 in Heq as [-> ->]; done.
Qed.

(** C1, as the code has it.  Within one conversion every dedup key
    resolves to exactly one Location, where the keys are the kernel
    symbol, the VDSO function name, the perf-map symbol, the jitdump
    symbol and the address of an address-only Location, each class with
    an index of its own: no two Locations of the table have the same
    key; the Location that a sample lists for a frame is the one
    Location of the table with the key of the frame, for kernel frames
    and for user frames alike; the table holds no Location but those of
    the keys of the frames; and two frames with the same key, in one
    sample or in two, have the same Location in their samples.  In
    particular, when the kernel stacks of two raw samples share an
    address, the table holds exactly one kernel Location for the symbol
    of the address and both samples of the profile reference it. *)
Theorem Convert_dedup_key_one_location rawData :
  ∃ p c', Convert rawData c0 = Some ((p, None), c') ∧
    NoDup (keyOf <$> Profile.Location p) ∧
    (∀ i raw, rawData !! i = Some raw →
       ∃ s, Profile.Sample p !! i = Some s ∧
         Forall2 (λ k l, l ∈ Profile.Location p ∧ keyOf l = k ∧
                         length (filter (λ x, keyOf x = k) (Profile.Location p)) = 1)
                 (keysOf c0 (kernelSymbolsOf c0 rawData) raw) (Sample.Location s)) ∧
    (∀ l, l ∈ Profile.Location p →
       ∃ raw, raw ∈ rawData ∧ keyOf l ∈ keysOf c0 (kernelSymbolsOf c0 rawData) raw) ∧
    (∀ i j raw1 raw2 k,
       rawData !! i = Some raw1 → rawData !! j = Some raw2 →
       k ∈ keysOf c0 (kernelSymbolsOf c0 rawData) raw1 →
       k ∈ keysOf c0 (kernelSymbolsOf c0 rawData) raw2 →
       ∃ l s1 s2,
         Profile.Sample p !! i = Some s1 ∧ l ∈ Sample.Location s1 ∧
         Profile.Sample p !! j = Some s2 ∧ l ∈ Sample.Location s2 ∧
         l ∈ Profile.Location p ∧ keyOf l = k) ∧
    ∀ i j s1 s2 a,
      rawData !! i = Some s1 → rawData !! j = Some s2 →
      a ∈ profile.KernelStack s1 → a ∈ profile.KernelStack s2 →
      let symbol := kernelSymbolOf (kernelSymbolsOf c0 rawData) a in
      length (filter (kernelLocationFor (kernelMapping c0) symbol) (Profile.Location p)) = 1 ∧
      ∃ l o1 o2,
        l ∈ Profile.Location p ∧ kernelLocationFor (kernelMapping c0) symbol l ∧
        Profile.Sample p !! i = Some o1 ∧ l ∈ Sample.Location o1 ∧
        Profile.Sample p !! j = Some o2 ∧ l ∈ Sample.Location o2.
Proof.
  destruct (Convert_NewConverter_routed rawData) as (c' & Hrun & HR & He & Hall & Htab).
  pose proof (ready_Inv c' HR) as HI. pose proof (ready_Config c' HR) as HC.
  assert (Hshare : ∀ i j raw1 raw2 k,
    rawData !! i = Some raw1 → rawData !! j = Some raw2 →
    k ∈ keysOf c0 (kernelSymbolsOf c0 rawData) raw1 →
    k ∈ keysOf c0 (kernelSymbolsOf c0 rawData) raw2 →
    ∃ l s1 s2,
      Profile.Sample (result c') !! i = Some s1 ∧ l ∈ Sample.Location s1 ∧
      Profile.Sample (result c') !! j = Some s2 ∧ l ∈ Sample.Location s2 ∧
      l ∈ locs c' ∧ keyOf l = k).
  { intros i j raw1 raw2 k Hi Hj Hk1 Hk2.
    destruct (Forall2_lookup_l _ _ _ _ _ Hall Hi) as (s1 & Hs1 & Hentries1).
    destruct (Forall2_lookup_l _ _ _ _ _ Hall Hj) as (s2 & Hs2 & Hentries2).
    destruct (entries_elem_of c' _ _ k Hentries1 Hk1) as (l1 & Hl1 & Hidx1).
    destruct (entries_elem_of c' _ _ k Hentries2 Hk2) as (l2 & Hl2 & Hidx2).
    assert (l2 = l1) as -> by congruence.
    destruct (inv_index_sound c' HI _ _ Hidx1) as [Hin Hkey].
    by exists l1, s1, s2. }
  exists (result c'), c'. split_and!; [done|apply HI| | |exact Hshare|].
  - intros i raw Hi.
    destruct (Forall2_lookup_l _ _ _ _ _ Hall Hi) as (s & Hs & Hentries).
    exists s. split; [done|]. eapply Forall2_impl; [exact Hentries|].
    intros k l Hk. destruct (inv_index_sound c' HI _ _ Hk) as [Hin <-].
    split_and!; try done.
    apply (NoDup_fmap_filter_length keyOf (locs c') l); [apply HI|done].
  - intros l Hl.
    assert (Hk : keyOf l ∈ keyOf <$> locs c') by (apply list_elem_of_fmap; by exists l).
    rewrite Htab in Hk. apply (proj1 (elem_of_distinct _ _)) in Hk.
    apply list_elem_of_bind in Hk as (raw & Hk & Hraw). by exists raw.
  - intros i j s1 s2 a Hi Hj Ha1 Ha2 symbol.
    destruct (Hshare i j s1 s2 (KernelKey symbol) Hi Hj) as (l & o1 & o2 & Ho1 & Hl1 & Ho2 & Hl2 & Hin & Hkey).
    { unfold keysOf. apply elem_of_app; left. apply list_elem_of_fmap. by exists a. }
    { unfold keysOf. apply elem_of_app; left. apply list_elem_of_fmap. by exists a. }
    assert (Hkm : kernelMapping c' = kernelMapping c0) by apply He.
    assert (Hfor : ∀ x, x ∈ locs c' →
              kernelLocationFor (kernelMapping c0) symbol x ↔ keyOf x = keyOf l).
    { intros x Hx. rewrite Hkey, <- Hkm. symmetry. by apply kernelLocationFor_keyOf. }
    split.
    + rewrite (filter_length_ext _ (λ x, keyOf x = keyOf l) _ Hfor).
      apply NoDup_fmap_filter_length; [apply HI|done].
    + exists l, o1, o2. split_and!; try done. by apply Hfor.
Qed.

(** C4. [mappingForAddr] returns the index of the first mapping whose
    half-open range [start, limit) contains the address, and -1 when no
    mapping contains it; an address equal to the start of a (non-empty)
    mapping resolves to it, an address equal to its limit does not.  In
    [Convert], a user frame whose address no mapping contains is skipped
    and counted, and a frame that a mapping contains is handled with the
    process mapping and the profile mapping at the index returned: after
    the Locations of its kernel frames, a sample lists one Location per
    user frame that a mapping contains, in stack order, with the key
    that the frame resolves to under the mappings selected for it; every
    Location of a user frame is backed by the mapping selected for a
    frame with its key, which is the mapping of the frame itself when no
    frame of another mapping shares the key; and the [mapping_nil]
    counter grows by one for every skipped frame. *)
Theorem user_frame_routed_or_skipped rawData :
  (∀ (ms : list Mapping.t) addr (n : nat),
     mappingForAddr ms addr = Z.of_nat n ↔
     ∃ m, ms !! n = Some m ∧ (Mapping.Start m ≤ addr < Mapping.Limit m)%Z ∧
          ∀ j m', j < n → ms !! j = Some m' →
                  ¬ (Mapping.Start m' ≤ addr < Mapping.Limit m')%Z) ∧
  (∀ (ms : list Mapping.t) addr,
     mappingForAddr ms addr = (-1)%Z ↔
     ∀ m, m ∈ ms → ¬ (Mapping.Start m ≤ addr < Mapping.Limit m)%Z) ∧
  (∀ m, (Mapping.Start m < Mapping.Limit m)%Z →
     mappingForAddr [m] (Mapping.Start m) = 0%Z ∧
     mappingForAddr [m] (Mapping.Limit m) = (-1)%Z) ∧
  (∀ c locs addr,
     mappingForAddr (Profile.Mapping (result c)) addr = (-1)%Z →
     ∃ c', convertUserFrame locs addr c = Some (locs, c') ∧
           frameDropOf c' labelFrameDropReasonMappingNil =
             S (frameDropOf c labelFrameDropReasonMappingNil)) ∧
  ∃ p c', Convert rawData c0 = Some ((p, None), c') ∧
    (∀ addr (n : nat),
       mappingForAddr (Profile.Mapping p) addr = Z.of_nat n →
       ∃ processMapping m,
         mappings !! n = Some processMapping ∧ Profile.Mapping p !! n = Some m ∧
         routeKey c0 addr = Some (keyFor c0 processMapping m addr)) ∧
    (∀ addr, mappingForAddr (Profile.Mapping p) addr = (-1)%Z → routeKey c0 addr = None) ∧
    (∀ i raw, rawData !! i = Some raw →
       ∃ s kls uls, Profile.Sample p !! i = Some s ∧
         Sample.Location s = kls ++ uls ∧
         length kls = length (profile.KernelStack raw) ∧
         keyOf <$> uls = omap (routeKey c0) (profile.UserStack raw) ∧
         length uls + unmapped (Profile.Mapping p) (profile.UserStack raw) =
           length (profile.UserStack raw)) ∧
    (∀ l, l ∈ Profile.Location p →
       (∃ symbol, keyOf l = KernelKey symbol) ∨
       ∃ raw addr processMapping m,
         raw ∈ rawData ∧ addr ∈ profile.UserStack raw ∧
         userMapping c0 addr = Some (processMapping, m) ∧
         keyOf l = keyFor c0 processMapping m addr ∧ Location.Mapping l = m) ∧
    (∀ i raw addr processMapping m,
       rawData !! i = Some raw → addr ∈ profile.UserStack raw →
       userMapping c0 addr = Some (processMapping, m) →
       (∀ raw' addr' processMapping' m',
          raw' ∈ rawData → addr' ∈ profile.UserStack raw' →
          userMapping c0 addr' = Some (processMapping', m') →
          keyFor c0 processMapping' m' addr' = keyFor c0 processMapping m addr → m' = m) →
       ∃ s l, Profile.Sample p !! i = Some s ∧ l ∈ Sample.Location s ∧
              keyOf l = keyFor c0 processMapping m addr ∧ Location.Mapping l = m) ∧
    frameDropOf c' labelFrameDropReasonMappingNil =
      frameDropOf c0 labelFrameDropReasonMappingNil +
      sum_list_with (λ raw, unmapped (Profile.Mapping p) (profile.UserStack raw)) rawData.
Proof.
  assert (Hfirst : ∀ (ms : list Mapping.t) addr (n : nat),
     mappingForAddr ms addr = Z.of_nat n ↔
     ∃ m, ms !! n = Some m ∧ (Mapping.Start m ≤ addr < Mapping.Limit m)%Z ∧
          ∀ j m', j < n → ms !! j = Some m' →
                  ¬ (Mapping.Start m' ≤ addr < Mapping.Limit m')%Z).
  { intros ms addr n.
    destruct (mappingForAddr_spec ms addr) as [[Hr Hm]|(n' & m & Hr & Hn & Hc & Hm & Hfst)].
    - split; [lia|]. intros (m & Hn & Hc & _). exfalso.
      apply (proj1 (mapped_false ms addr) Hm m); [by eapply list_elem_of_lookup_2|done].
    - split.
      + intros Heq. assert (n = n') as -> by lia. exists m. split; [done|]. split.
        * by apply contains_range.
        * intros j m' Hj Hm' Hr'. apply contains_range in Hr'.
          rewrite (Hfst j m' Hj Hm') in Hr'. done.
      + intros (m0 & Hn0 & Hc0 & Hfst0). rewrite Hr. f_equal.
        destruct (Nat.lt_trichotomy n n') as [Hlt|[->|Hgt]]; [|done|].
        * apply contains_range in Hc0. rewrite (Hfst n m0 Hlt Hn0) in Hc0. done.
        * exfalso. apply (Hfst0 n' m Hgt Hn). by apply contains_range. }
  assert (Hnone : ∀ (ms : list Mapping.t) addr,
     mappingForAddr ms addr = (-1)%Z ↔
     ∀ m, m ∈ ms → ¬ (Mapping.Start m ≤ addr < Mapping.Limit m)%Z).
  { intros ms addr. rewrite <- mapped_false.
    destruct (mappingForAddr_spec ms addr) as [[Hr Hm]|(n' & m & Hr & Hn & Hc & Hm & Hfst)].
    - done.
    - rewrite Hr, Hm. split; [lia|done]. }
  split_and!; [done|done| | |].
  - intros m Hlt. split.
    + apply (Hfirst [m] (Mapping.Start m) 0). exists m.
      split; [done|]. split; [lia|]. intros; lia.
    + apply Hnone. intros m' Hm'. apply list_elem_of_singleton in Hm' as ->. lia.
  - intros c locs addr Hr. unfold convertUserFrame, bind, get. rewrite Hr. simpl.
    eexists. split; [reflexivity|]. unfold frameDropOf, Inc. simpl.
    by rewrite lookup_insert_eq.
  - destruct (Convert_frames rawData)
      as (c' & Hrun & HR & He & HMap & Htab & Hdrop & Hlen & Hframes).
    pose proof (ready_Inv c' HR) as HI.
    assert (HC0 : Config c0) by apply NewConverter_Config.
    exists (result c'), c'. rewrite (ext_Mapping _ _ He).
    split_and!; [done| | | |exact HMap| |done].
    + intros addr n Hn.
      destruct (userMapping_index c0 addr n HC0 Hn) as (pm & m & Hpm & Hm & Hum).
      exists pm, m. split_and!; try done. unfold routeKey. by rewrite Hum.
    + intros addr Hr. unfold routeKey. by rewrite (userMapping_none c0 addr Hr).
    + intros i raw Hi.
      destruct (Hframes i raw Hi) as (s & kls & uls & Hs & Hv & Hl & Hk & Hu & Hn).
      exists s, kls, uls. split_and!; try done.
      * symmetry. by eapply Forall2_length.
      * by apply (entries_keys c').
    + intros i raw addr pm m Hi Haddr Hum Honly.
      destruct (Hframes i raw Hi) as (s & kls & uls & Hs & Hv & Hl & Hk & Hu & Hn).
      destruct (entries_elem_of c' _ _ (keyFor c0 pm m addr) Hu) as (l & Hlu & Hidx).
      { apply list_elem_of_omap. exists addr. split; [done|]. unfold routeKey. by rewrite Hum. }
      destruct (inv_index_sound c' HI _ _ Hidx) as [Hin Hkey].
      exists s, l. split_and!; try done.
      { rewrite Hl. apply elem_of_app. by right. }
      destruct (HMap l Hin) as [[symbol Hsym]|(raw' & addr' & pm' & m' & H1 & H2 & H3 & H4 & H5)].
      * rewrite Hkey in Hsym. by apply keyFor_not_kernel in Hsym.
      * rewrite H5. apply (Honly raw' addr' pm' m'); try done. congruence.
Qed.

(** C5. [Convert] never fails as a whole: whatever the resolver, the
    normalizer, the VDSO symbolizer and the JIT caches answer, it returns
    a nil error and a complete profile, with one sample per raw sample
    that has the value of the raw sample and, in stack order, the
    Location of every kernel frame and of every user frame that a mapping
    contains, all of them in the Location table.  When the kernel-symbol
    resolver returns an error, the symbols are taken from the empty map:
    every kernel-stack address yields the kernel Location whose function
    is named ["not found"], and the user frames have their Locations as
    before. *)
Theorem Convert_returns_nil_error rawData :
  ∃ p c', Convert rawData c0 = Some ((p, None), c') ∧
    length (Profile.Sample p) = length rawData ∧
    (∀ i raw, rawData !! i = Some raw →
       ∃ s, Profile.Sample p !! i = Some s ∧
         Sample.Value s = [int64 (profile.Value raw)] ∧
         keyOf <$> Sample.Location s = keysOf c0 (kernelSymbolsOf c0 rawData) raw ∧
         (∀ l, l ∈ Sample.Location s → l ∈ Profile.Location p) ∧
         length (Sample.Location s) + unmapped (Profile.Mapping p) (profile.UserStack raw) =
           length (profile.KernelStack raw) + length (profile.UserStack raw)) ∧
    ∀ kernelSymbols err,
      ksym.Resolve ks (kernelAddressesOf rawData) = (kernelSymbols, Some err) →
      kernelSymbolsOf c0 rawData = ∅ ∧
      ∀ i raw, rawData !! i = Some raw →
        ∃ s kls uls, Profile.Sample p !! i = Some s ∧
          Sample.Location s = kls ++ uls ∧
          keyOf <$> uls = omap (routeKey c0) (profile.UserStack raw) ∧
          ∀ j a, profile.KernelStack raw !! j = Some a →
            ∃ l, kls !! j = Some l ∧ l ∈ Profile.Location p ∧
                 kernelLocationFor (kernelMapping c0) "not found" l.
Proof.
  destruct (Convert_frames rawData)
    as (c' & Hrun & HR & He & HMap & Htab & Hdrop & Hlen & Hframes).
  pose proof (ready_Inv c' HR) as HI. pose proof (ready_Config c' HR) as HC.
  exists (result c'), c'. rewrite (ext_Mapping _ _ He). split_and!; [done|done| |].
  - intros i raw Hi.
    destruct (Hframes i raw Hi) as (s & kls & uls & Hs & Hv & Hl & Hk & Hu & Hn).
    exists s. split_and!; try done.
    + rewrite Hl, fmap_app, (entries_keys c' _ _ HI Hu). unfold keysOf. f_equal.
      apply (entries_keys c' _ _ HI). by apply Forall2_fmap_l.
    + intros l Hin. apply (inv_samples c' HI s); [|done]. by eapply list_elem_of_lookup_2.
    + rewrite Hl, length_app. apply Forall2_length in Hk. lia.
  - intros kernelSymbols err Hres.
    assert (Hempty : kernelSymbolsOf c0 rawData = ∅).
    { unfold kernelSymbolsOf. simpl. by rewrite Hres. }
    split; [done|]. intros i raw Hi.
    destruct (Hframes i raw Hi) as (s & kls & uls & Hs & Hv & Hl & Hk & Hu & Hn).
    exists s, kls, uls. split_and!; try done.
    + by apply (entries_keys c').
    + intros j a Hj.
      destruct (Forall2_lookup_l _ _ _ _ _ Hk Hj) as (l & Hlj & Hidx).
      rewrite Hempty in Hidx. unfold kernelSymbolOf in Hidx.
      rewrite lookup_empty in Hidx. simpl in Hidx.
      destruct (inv_index_sound c' HI (KernelKey "not found") l Hidx) as [Hin Hkey].
      exists l. split_and!; try done.
      assert (Hkm : kernelMapping c' = kernelMapping c0) by apply He.
      rewrite <- Hkm. by apply kernelLocationFor_keyOf.
Qed.

(** X1 — every sample of the profile lists the Locations of its frames
    in the order of the stacks: the kernel stack first, then the user
    stack without the frames that no mapping contains.  The keys of the
    Locations of the i-th sample are the keys of the frames of the i-th
    raw sample. *)
Theorem Convert_sample_keys_follow_stacks rawData :
  ∃ p c', Convert rawData c0 = Some ((p, None), c') ∧
    ∀ i raw, rawData !! i = Some raw →
      ∃ s, Profile.Sample p !! i = Some s ∧
        keyOf <$> Sample.Location s = keysOf c0 (kernelSymbolsOf c0 rawData) raw.
Proof.
  destruct (Convert_NewConverter_routed rawData) as (c' & Hrun & HR & He & Hall & Htab).
  exists (result c'), c'. split; [done|]. intros i raw Hi.
  destruct (Forall2_lookup_l _ _ _ _ _ Hall Hi) as (s & Hs & Hentries).
  exists s. split; [done|]. by apply (entries_keys c' _ _ (ready_Inv c' HR)).
Qed.

(** X2 — the Location table has one Location per distinct key of the
    frames, in the order in which [Convert] first meets the keys walking
    the samples. *)
Theorem Convert_location_table_lists_distinct_keys rawData :
  ∃ p c', Convert rawData c0 = Some ((p, None), c') ∧
    keyOf <$> Profile.Location p =
      distinct (rawData ≫= keysOf c0 (kernelSymbolsOf c0 rawData)).
Proof.
  destruct (Convert_NewConverter_routed rawData) as (c' & Hrun & HR & He & Hall & Htab).
  by exists (result c'), c'.
Qed.

(** X3 — the Function table follows from the Location table: it has one
    Function per distinct name of the symbolized Locations, in the order
    of the Locations; an address-only Location contributes none. *)
Theorem Convert_function_table_follows_locations rawData :
  ∃ p c', Convert rawData c0 = Some ((p, None), c') ∧
    Function.Name <$> Profile.Function p =
      distinct (omap nameOf (keyOf <$> Profile.Location p)).
Proof.
  destruct (Convert_NewConverter_routed rawData) as (c' & Hrun & HR & He & Hall & Htab).
  exists (result c'), c'. split; [done|]. apply (ready_TableInv c' HR).
Qed.

(** X4 — function names are unique in the profile: no two entries of
    the Function table have the same name, and two lines of Locations
    whose functions have the same name refer to the same Function, also
    when the Locations belong to different classes. *)
Theorem Convert_function_names_unique rawData :
  ∃ p c', Convert rawData c0 = Some ((p, None), c') ∧
    NoDup (Function.Name <$> Profile.Function p) ∧
    ∀ l1 l2 ln1 ln2,
      l1 ∈ Profile.Location p → l2 ∈ Profile.Location p →
      ln1 ∈ Location.Line l1 → ln2 ∈ Location.Line l2 →
      Function.Name (Line.Function ln1) = Function.Name (Line.Function ln2) →
      Line.Function ln1 = Line.Function ln2.
Proof.
  destruct (Convert_NewConverter_routed rawData) as (c' & Hrun & HR & He & Hall & Htab).
  exists (result c'), c'. split; [done|].
  destruct HR as [HI _ _ [Hnd Hidx] _]. split; [done|].
  intros l1 l2 ln1 ln2 Hl1 Hl2 Hln1 Hln2 Hname.
  pose proof (Hidx _ (inv_loc_funcs c' HI l1 ln1 Hl1 Hln1)) as H1.
  pose proof (Hidx _ (inv_loc_funcs c' HI l2 ln2 Hl2 Hln2)) as H2.
  rewrite Hname in H1. congruence.
Qed.

(** X5 — user frames with the same key share one Location, within a
    sample and across samples: the samples of both frames list the one
    Location of the table that has the key. *)
Theorem Convert_user_frames_share_location rawData :
  ∃ p c', Convert rawData c0 = Some ((p, None), c') ∧
    ∀ i j raw1 raw2 addr1 addr2 k,
      rawData !! i = Some raw1 → rawData !! j = Some raw2 →
      addr1 ∈ profile.UserStack raw1 → addr2 ∈ profile.UserStack raw2 →
      routeKey c0 addr1 = Some k → routeKey c0 addr2 = Some k →
      ∃ l s1 s2,
        Profile.Sample p !! i = Some s1 ∧ l ∈ Sample.Location s1 ∧
        Profile.Sample p !! j = Some s2 ∧ l ∈ Sample.Location s2 ∧
        l ∈ Profile.Location p ∧ keyOf l = k ∧
        length (filter (λ x, keyOf x = k) (Profile.Location p)) = 1.
Proof.
  destruct (Convert_user_frame rawData) as (c' & Hrun & HR & He & Hframe).
  exists (result c'), c'. split; [done|].
  intros i j raw1 raw2 addr1 addr2 k Hi Hj Ha1 Ha2 Hk1 Hk2.
  unfold routeKey in Hk1, Hk2.
  destruct (userMapping c0 addr1) as [[pm1 m1]|] eqn:Hum1; [|done].
  destruct (userMapping c0 addr2) as [[pm2 m2]|] eqn:Hum2; [|done].
  injection Hk1 as Hk1. injection Hk2 as Hk2.
  destruct (Hframe i raw1 addr1 pm1 m1 Hi Ha1 Hum1) as (s1 & l1 & Hs1 & Hl1 & Hin1 & Hidx1 & Hkey1).
  destruct (Hframe j raw2 addr2 pm2 m2 Hj Ha2 Hum2) as (s2 & l2 & Hs2 & Hl2 & Hin2 & Hidx2 & Hkey2).
  rewrite Hk1 in Hidx1, Hkey1. rewrite Hk2 in Hidx2, Hkey2.
  assert (l2 = l1) as -> by congruence.
  exists l1, s1, s2. split_and!; try done.
  rewrite <- Hkey1.
  apply (NoDup_fmap_filter_length keyOf (locs c') l1); [|done].
  apply (inv_keys_nodup c' (ready_Inv c' HR)).
Qed.

(** X6 — a user frame in a [[vdso]] mapping gets a Location with one
    line, backed by a [[vdso]] mapping, whose function has the name that
    the VDSO symbolizer resolves, and the name [unknown] when the
    symbolizer fails. *)
Theorem Convert_vdso_frame_named_by_symbolizer rawData :
  ∃ p c', Convert rawData c0 = Some ((p, None), c') ∧
    ∀ i raw addr processMapping m,
      rawData !! i = Some raw → addr ∈ profile.UserStack raw →
      userMapping c0 addr = Some (processMapping, m) →
      Mapping.File m = "[vdso]" →
      ∃ s l f,
        Profile.Sample p !! i = Some s ∧ l ∈ Sample.Location s ∧
        l ∈ Profile.Location p ∧ f ∈ Profile.Function p ∧
        Location.Line l = [ {| Line.Function := f |} ] ∧
        Mapping.File (Location.Mapping l) = "[vdso]" ∧
        Function.Name f =
          match Resolve vd addr processMapping with
          | (functionName, None) => functionName
          | (_, Some _) => "unknown"
          end.
Proof.
  destruct (Convert_user_frame rawData) as (c' & Hrun & HR & He & Hframe).
  exists (result c'), c'. split; [done|].
  intros i raw addr pm m Hi Ha Hum Hfile.
  destruct (Hframe i raw addr pm m Hi Ha Hum) as (s & l & Hs & Hl & Hin & _ & Hkey).
  unfold keyFor in Hkey. rewrite Hfile in Hkey. simpl in Hkey.
  destruct (Resolve vd addr pm) as [functionName err].
  destruct (keyOf_symbolized c' l _ _ (ready_Inv c' HR) Hin Hkey eq_refl) as (f & Hline & Hname & Hf).
  exists s, l, f. split_and!; try done.
  - by eapply keyOf_VDSOKey.
  - rewrite Hname. by destruct err.
Qed.

(** X7 — a user frame in a mapping that is neither [[vdso]] nor JIT gets
    an address-only Location: no line, and the normalized address of the
    frame, or the address as sampled when normalization fails. *)
Theorem Convert_native_frame_address_only rawData :
  ∃ p c', Convert rawData c0 = Some ((p, None), c') ∧
    ∀ i raw addr processMapping m,
      rawData !! i = Some raw → addr ∈ profile.UserStack raw →
      userMapping c0 addr = Some (processMapping, m) →
      Mapping.File m ≠ "[vdso]" → Mapping.File m ≠ "jit" →
      strings.HasSuffix (Mapping.File m) ".dump" = false →
      ∃ s l,
        Profile.Sample p !! i = Some s ∧ l ∈ Sample.Location s ∧
        l ∈ Profile.Location p ∧
        Location.Line l = [] ∧
        Location.Address l =
          match profiler.Normalize an processMapping addr with
          | (normalizedAddress, None) => normalizedAddress
          | (_, Some _) => addr
          end.
Proof.
  destruct (Convert_user_frame rawData) as (c' & Hrun & HR & He & Hframe).
  exists (result c'), c'. split; [done|].
  intros i raw addr pm m Hi Ha Hum Hv Hj Hd.
  destruct (Hframe i raw addr pm m Hi Ha Hum) as (s & l & Hs & Hl & Hin & _ & Hkey).
  apply String.eqb_neq in Hv, Hj.
  unfold keyFor in Hkey. rewrite Hv, Hj, Hd in Hkey. simpl in Hkey.
  destruct (profiler.Normalize an pm addr) as [normalizedAddress err].
  apply keyOf_AddrKey in Hkey as [Hline Haddr].
  exists s, l. split_and!; try done. rewrite Haddr. by destruct err.
Qed.

(** X8 — a user frame in the [jit] mapping gets the Location of its
    perf-map symbol when JIT symbolization is enabled, the perf-map cache
    has a map for the process and the map knows the address, whatever
    error came with the map; in every other case it gets an address-only
    Location with the address as sampled. *)
Theorem Convert_perfmap_frame rawData :
  ∃ p c', Convert rawData c0 = Some ((p, None), c') ∧
    ∀ i raw addr processMapping m,
      rawData !! i = Some raw → addr ∈ profile.UserStack raw →
      userMapping c0 addr = Some (processMapping, m) →
      Mapping.File m = "jit" →
      ∃ s l,
        Profile.Sample p !! i = Some s ∧ l ∈ Sample.Location s ∧
        l ∈ Profile.Location p ∧
        (∀ perfMap err symbol,
           disableJIT = false →
           perf.PerfMapForPID pmc pid = (Some perfMap, err) →
           perf.Lookup perfMap addr = (symbol, None) →
           ∃ f, Location.Line l = [ {| Line.Function := f |} ] ∧
                Function.Name f = symbol ∧ f ∈ Profile.Function p ∧
                Mapping.File (Location.Mapping l) = "jit") ∧
        (disableJIT = true ∨
         (perf.PerfMapForPID pmc pid).1 = None ∨
         (∃ perfMap symbol err,
            (perf.PerfMapForPID pmc pid).1 = Some perfMap ∧
            perf.Lookup perfMap addr = (symbol, Some err)) →
         Location.Line l = [] ∧ Location.Address l = addr).
Proof.
  destruct (Convert_user_frame rawData) as (c' & Hrun & HR & He & Hframe).
  exists (result c'), c'. split; [done|].
  intros i raw addr pm m Hi Ha Hum Hfile.
  destruct (Hframe i raw addr pm m Hi Ha Hum) as (s & l & Hs & Hl & Hin & _ & Hkey).
  unfold keyFor, jitKey in Hkey. rewrite Hfile in Hkey. simpl in Hkey.
  exists s, l. split_and!; try done.
  - intros perfMap err symbol -> Hpm Hlookup. rewrite Hpm in Hkey. simpl in Hkey.
    rewrite Hlookup in Hkey. simpl in Hkey.
    destruct (keyOf_symbolized c' l _ _ (ready_Inv c' HR) Hin Hkey eq_refl)
      as (f & Hline & Hname & Hf).
    exists f. split_and!; try done. by eapply keyOf_PerfMapKey.
  - intros Hcase. apply keyOf_AddrKey. rewrite Hkey.
    destruct Hcase as [->|[Hnone|(perfMap & symbol & err & Hsome & Hlookup)]]; [done| |].
    + destruct disableJIT; [done|]. by rewrite Hnone.
    + destruct disableJIT; [done|]. by rewrite Hsome, Hlookup.
Qed.

(** X9 — a user frame in a mapping whose file ends in [.dump] gets the
    Location of its jitdump symbol when JIT symbolization is enabled, the
    jitdump cache has a map for the file and the map knows the address;
    in every other case it gets an address-only Location with the
    address as sampled. *)
Theorem Convert_jitdump_frame rawData :
  ∃ p c', Convert rawData c0 = Some ((p, None), c') ∧
    ∀ i raw addr processMapping m,
      rawData !! i = Some raw → addr ∈ profile.UserStack raw →
      userMapping c0 addr = Some (processMapping, m) →
      Mapping.File m ≠ "[vdso]" → Mapping.File m ≠ "jit" →
      strings.HasSuffix (Mapping.File m) ".dump" = true →
      ∃ s l,
        Profile.Sample p !! i = Some s ∧ l ∈ Sample.Location s ∧
        l ∈ Profile.Location p ∧
        (∀ jitdump err symbol,
           disableJIT = false →
           perf.JitdumpForPID jdc pid (Mapping.File m) = (Some jitdump, err) →
           perf.Lookup jitdump addr = (symbol, None) →
           ∃ f, Location.Line l = [ {| Line.Function := f |} ] ∧
                Function.Name f = symbol ∧ f ∈ Profile.Function p ∧
                strings.HasSuffix (Mapping.File (Location.Mapping l)) ".dump" = true) ∧
        (disableJIT = true ∨
         (perf.JitdumpForPID jdc pid (Mapping.File m)).1 = None ∨
         (∃ jitdump symbol err,
            (perf.JitdumpForPID jdc pid (Mapping.File m)).1 = Some jitdump ∧
            perf.Lookup jitdump addr = (symbol, Some err)) →
         Location.Line l = [] ∧ Location.Address l = addr).
Proof.
  destruct (Convert_user_frame rawData) as (c' & Hrun & HR & He & Hframe).
  exists (result c'), c'. split; [done|].
  intros i raw addr pm m Hi Ha Hum Hv Hj Hd.
  destruct (Hframe i raw addr pm m Hi Ha Hum) as (s & l & Hs & Hl & Hin & _ & Hkey).
  apply String.eqb_neq in Hv, Hj.
  unfold keyFor, jitKey in Hkey. rewrite Hv, Hj, Hd in Hkey. simpl in Hkey.
  exists s, l. split_and!; try done.
  - intros jitdump err symbol -> Hjd Hlookup. rewrite Hjd in Hkey. simpl in Hkey.
    rewrite Hlookup in Hkey. simpl in Hkey.
    destruct (keyOf_symbolized c' l _ _ (ready_Inv c' HR) Hin Hkey eq_refl)
      as (f & Hline & Hname & Hf).
    exists f. split_and!; try done. by eapply keyOf_JITDumpKey.
  - intros Hcase. apply keyOf_AddrKey. rewrite Hkey.
    destruct Hcase as [->|[Hnone|(jitdump & symbol & err & Hsome & Hlookup)]]; [done| |].
    + destruct disableJIT; [done|]. by rewrite Hnone.
    + destruct disableJIT; [done|]. by rewrite Hsome, Hlookup.
Qed.

(** X10 — [Convert] leaves the head of the profile as [NewConverter] set
    it: the capture time, the period, the sample type [samples]/[count]
    and the period type [cpu]/[nanoseconds]. *)
Theorem Convert_keeps_profile_head rawData :
  ∃ p c', Convert rawData c0 = Some ((p, None), c') ∧
    Profile.TimeNanos p = time.UnixNano captureTime ∧
    Profile.Period p = periodNS ∧
    Profile.SampleType p = [ {| ValueType.Type_ := "samples"; ValueType.Unit := "count" |} ] ∧
    Profile.PeriodType p =
      Some {| ValueType.Type_ := "cpu"; ValueType.Unit := "nanoseconds" |}.
Proof.
  destruct (Convert_NewConverter_routed rawData) as (c' & Hrun & HR & He & Hall & Htab).
  exists (result c'), c'. split; [done|].
  by rewrite (ext_TimeNanos _ _ He), (ext_Period _ _ He), (ext_SampleType _ _ He),
    (ext_PeriodType _ _ He).
Qed.

(** X11 — a converter that is used again keeps what it has: a second
    [Convert] returns the samples of the first followed by one sample per
    raw sample of the second, extends the Location and Function tables of
    the first, and adds a Location only for a key that the first did not
    meet. *)
Theorem Convert_again_extends_profile rawData1 rawData2 :
  ∃ p1 c1 p2 c2 samples,
    Convert rawData1 c0 = Some ((p1, None), c1) ∧
    Convert rawData2 c1 = Some ((p2, None), c2) ∧
    Profile.Sample p2 = Profile.Sample p1 ++ samples ∧
    length samples = length rawData2 ∧
    Profile.Function p1 `prefix_of` Profile.Function p2 ∧
    keyOf <$> Profile.Location p2 =
      foldl addNew (keyOf <$> Profile.Location p1)
            (rawData2 ≫= keysOf c0 (kernelSymbolsOf c0 rawData2)) ∧
    Profile.Location p1 `prefix_of` Profile.Location p2.
Proof.
  destruct (Convert_NewConverter_routed rawData1) as (c1 & Hrun1 & HR1 & He1 & Hall1 & Htab1).
  destruct (Convert_routed rawData2 c1 HR1) as (samples & c2 & Hrun2 & HR2 & He2 & Hs2 & Hall2 & Htab2).
  exists (result c1), c1, (result c2), c2, samples. split_and!; try done.
  - symmetry. by eapply Forall2_length.
  - apply (ext_funcs _ _ He2).
  - unfold locs in Htab2. rewrite Htab2. f_equal.
    unfold kernelSymbolsOf. rewrite (ext_ksym _ _ He1). by apply bind_keysOf_ext.
  - apply (ext_locs _ _ He2).
Qed.

End ConvertRouting.

(** C1 as the claim states it fails.  The perf map and the jitdump of
    the process know the same symbol, [jitted_loop].  The frame in the
    [jit] mapping and the frame in the [.dump] mapping both resolve to
    it, and the profile has two Locations for this one JIT symbol, one
    per index, each with a line of the function [jitted_loop]; the
    sample lists both. *)
Lemma JIT_symbol_two_locations_counterexample :
  ∃ p c',
    Convert JitScenario.rawData JitScenario.converter = Some ((p, None), c') ∧
    length (filter (λ l, (λ ln, Function.Name (Line.Function ln)) <$> Location.Line l =
                         ["jitted_loop"]) (Profile.Location p)) = 2 ∧
    keyOf <$> Profile.Location p = [PerfMapKey "jitted_loop"; JITDumpKey "jitted_loop"] ∧
    (λ s, Location.ID <$> Sample.Location s) <$> Profile.Sample p = [[1; 2]%Z] ∧
    Function.Name <$> Profile.Function p = ["jitted_loop"].
Proof.
  destruct (Convert JitScenario.rawData JitScenario.converter) as [[[p err] c']|] eqn:Hrun.
  - assert (H : (λ '(p, err, c'),
                   (err,
                    length (filter (λ l, (λ ln, Function.Name (Line.Function ln)) <$>
                                           Location.Line l = ["jitted_loop"])
                                   (Profile.Location p)),
                    keyOf <$> Profile.Location p,
                    (λ s, Location.ID <$> Sample.Location s) <$> Profile.Sample p,
                    Function.Name <$> Profile.Function p)) <$>
                Convert JitScenario.rawData JitScenario.converter =
              Some (None, 2, [PerfMapKey "jitted_loop"; JITDumpKey "jitted_loop"],
                    [[1; 2]%Z], ["jitted_loop"])) by (vm_compute; reflexivity).
    rewrite Hrun in H. injection H as -> H1 H2 H3 H4.
    by exists p, c'.
  - assert (H : nonnil (Convert JitScenario.rawData JitScenario.converter) = true)
      by (vm_compute; reflexivity).
    by rewrite Hrun in H.
Qed.

(** X12 — with the no-op VDSO cache as symbolizer, which resolves every
    address to the empty name without an error, all user frames in
    [[vdso]] mappings share one Location, whose function has the empty
    name, and not the name [unknown]. *)
Theorem Convert_with_NoopCache_names_vdso_frames_empty
    an ks pmc jdc cm disableJIT pid mappings captureTime periodNS now rawData :
  let c0 := NewConverter an ks vdso.NoopCache pmc jdc cm disableJIT pid mappings
                         captureTime periodNS now in
  ∃ p c' , Convert rawData c0 = Some ((p, None), c') ∧
    ∀ i raw addr processMapping m,
      rawData !! i = Some raw → addr ∈ profile.UserStack raw →
      userMapping c0 addr = Some (processMapping, m) →
      Mapping.File m = "[vdso]" →
      ∃ s l f,
        Profile.Sample p !! i = Some s ∧ l ∈ Sample.Location s ∧
        Location.Line l = [ {| Line.Function := f |} ] ∧ Function.Name f = "" ∧
        keyOf l = VDSOKey "" ∧
        length (filter (λ x, keyOf x = VDSOKey "") (Profile.Location p)) = 1.
Proof.
  intros c0.
  destruct (Convert_user_frame an ks vdso.NoopCache pmc jdc cm disableJIT pid mappings
              captureTime periodNS now rawData) as (c' & Hrun & HR & He & Hframe).
  exists (result c'), c'. split; [done|].
  intros i raw addr pm m Hi Ha Hum Hfile.
  destruct (Hframe i raw addr pm m Hi Ha Hum) as (s & l & Hs & Hl & Hin & _ & Hkey).
  unfold keyFor in Hkey. rewrite Hfile in Hkey. simpl in Hkey.
  destruct (keyOf_symbolized c' l _ _ (ready_Inv c' HR) Hin Hkey eq_refl) as (f & Hline & Hname & Hf).
  exists s, l, f. split_and!; try done.
  rewrite <- Hkey.
  apply (NoDup_fmap_filter_length keyOf (locs c') l); [|done].
  apply (inv_keys_nodup c' (ready_Inv c' HR)).
Qed.

(** * Properties of the VDSO cache *)

Import vdso VdsoSpec.

(** C9, as the code has it.  [NewCache] fails with the error of
    [KernelRelease], opening nothing, when the kernel release cannot be
    read.  Otherwise it opens
    [/usr/lib/modules/<release>/vdso/vdso.so] and, only when that fails to
    open, [/usr/lib/modules/<release>/vdso/vdso64.so], and uses the first
    that opens.  It returns a cache, and then no error, exactly when one
    of them opens and the ELF view and the dynamic symbols of that file
    can be read; it returns no cache and an error when neither opens,
    when the ELF view of the opened file cannot be read, and when its
    dynamic symbols cannot be read.  ([Open] is taken to return no object
    together with an error.) *)
Theorem NewCache_probes_vdso_directory h :
  (∀ path o e, Open h path ≠ (Some o, Some e)) →
  ∃ cache err opened,
    NewCache h = (cache, err, opened) ∧
    match KernelRelease h with
    | (_, Some e) => cache = None ∧ err = Some e ∧ opened = []
    | (release, None) =>
        let p1 := "/usr/lib/modules/" +:+ release +:+ "/vdso/vdso.so" in
        let p2 := "/usr/lib/modules/" +:+ release +:+ "/vdso/vdso64.so" in
        opened = (if nonnil (Open h p1).2 then [p1; p2] else [p1]) ∧
        (∀ c, cache = Some c ↔
              ∃ path o ef syms,
                firstThatOpens h p1 p2 = Some (path, o) ∧
                ELF o = (ef, None) ∧ DynamicSymbols ef = (syms, None) ∧
                c = {| searcher := syms; f := path |}) ∧
        (cache ≠ None → err = None) ∧
        ((Open h p1).2 ≠ None → (Open h p2).2 ≠ None → cache = None ∧ err ≠ None) ∧
        ∀ path o, firstThatOpens h p1 p2 = Some (path, o) →
          match ELF o with
          | (_, Some _) => cache = None ∧ err ≠ None
          | (ef, None) =>
              match DynamicSymbols ef with
              | (_, Some e) => cache = None ∧ err = Some e
              | (syms, None) => cache = Some {| searcher := syms; f := path |} ∧ err = None
              end
          end
    end.
Proof.
  intros Hopen. unfold NewCache.
  destruct (KernelRelease h) as [release [e|]]; [by eexists _, _, _|].
  unfold probeLoop.
  set (p1 := "/usr/lib/modules/" +:+ release +:+ "/vdso/vdso.so").
  set (p2 := "/usr/lib/modules/" +:+ release +:+ "/vdso/vdso64.so").
  change (vdsoPath release "vdso.so") with p1.
  change (vdsoPath release "vdso64.so") with p2.
  unfold firstThatOpens.
  assert (Hfin : ∀ (o : ObjectFile) path opened,
    ∃ cache err,
      match ELF o with
      | (ef, Some err) =>
          (None, Some (wrapError ("failed to get elf file: " +:+ path +:+ ", err: ") err), opened)
      | (ef, None) =>
          let '(syms, err) := DynamicSymbols ef in
          match err with
          | Some err => (None, Some err, opened)
          | None => (Some {| searcher := syms; f := path |}, None, opened)
          end
      end = (cache : option Cache, err : option error, opened : list string) ∧
      (∀ c, cache = Some c ↔
            ∃ ef syms, ELF o = (ef, None) ∧ DynamicSymbols ef = (syms, None) ∧
                       c = {| searcher := syms; f := path |}) ∧
      (cache ≠ None → err = None) ∧
      match ELF o with
      | (_, Some _) => cache = None ∧ err ≠ None
      | (ef, None) =>
          match DynamicSymbols ef with
          | (_, Some e) => cache = None ∧ err = Some e
          | (syms, None) => cache = Some {| searcher := syms; f := path |} ∧ err = None
          end
      end).
  { intros o path opened. destruct (ELF o) as [ef [e|]] eqn:He.
    - eexists _, _. split; [reflexivity|]. split_and!; try done.
      intros c. split; [done|]. by intros (? & ? & ? & _).
    - destruct (DynamicSymbols ef) as [syms [e|]] eqn:Hs.
      + eexists _, _. split; [reflexivity|]. split_and!; try done.
        intros c. split; [done|].
        intros (ef' & syms' & [= <-] & Hs' & _). congruence.
      + eexists _, _. split; [reflexivity|]. split_and!; try done.
        intros c. split.
        * intros [= <-]. by exists ef, syms.
        * intros (ef' & syms' & [= <-] & Hs' & ->). congruence. }
  destruct (Open h p1) as [o1 [e1|]] eqn:H1; simpl.
  - destruct (Open h p2) as [o2 [e2|]] eqn:H2; simpl.
    + destruct o2 as [o2|]; [by destruct (Hopen p2 o2 e2)|]. simpl.
      eexists _, _, _. split; [reflexivity|]. split_and!; try done.
      intros c. split; [done|]. by intros (? & ? & ? & ? & ? & _).
    + destruct o2 as [o2|]; simpl.
      * destruct (Hfin o2 p2 [p1; p2]) as (cache & err & Heq & Hiff & Hnil & Hcase).
        exists cache, err, [p1; p2]. split; [exact Heq|]. split_and!; try done.
        -- intros c. rewrite Hiff. split.
           ++ intros (ef & syms & ? & ? & ?). by exists p2, o2, ef, syms.
           ++ intros (path & o & ef & syms & [= <- <-] & ? & ? & ?). by exists ef, syms.
        -- by intros path o [= <- <-].
      * eexists _, _, _. split; [reflexivity|]. split_and!; try done.
        intros c. split; [done|]. by intros (? & ? & ? & ? & ? & _).
  - destruct o1 as [o1|]; simpl.
    + destruct (Hfin o1 p1 [p1]) as (cache & err & Heq & Hiff & Hnil & Hcase).
      exists cache, err, [p1]. split; [exact Heq|]. split_and!; try done.
      * intros c. rewrite Hiff. split.
        -- intros (ef & syms & ? & ? & ?). by exists p1, o1, ef, syms.
        -- intros (path & o & ef & syms & [= <- <-] & ? & ? & ?). by exists ef, syms.
      * by intros path o [= <- <-].
    + eexists _, _, _. split; [reflexivity|]. split_and!; try done.
      intros c. split; [done|]. by intros (? & ? & ? & ? & ? & _).
Qed.

(** C9 as the claim states it fails.  On [host0] both paths of the claim
    open, yet [NewCache] never opens them: it opens the two paths under
    the [vdso] directory and fails.  On [host2] a candidate opens and
    [NewCache] fails all the same, on the dynamic symbols. *)
Lemma NewCache_claimed_paths_counterexample :
  (Open VdsoScenario.host0 "/usr/lib/modules/6.1.0-13-amd64/vdso.so").2 = None ∧
  (Open VdsoScenario.host0 "/usr/lib/modules/6.1.0-13-amd64/vdso64.so").2 = None ∧
  (∃ err, NewCache VdsoScenario.host0 =
            (None, Some err,
             ["/usr/lib/modules/6.1.0-13-amd64/vdso/vdso.so";
              "/usr/lib/modules/6.1.0-13-amd64/vdso/vdso64.so"])) ∧
  (Open VdsoScenario.host2 "/usr/lib/modules/6.1.0-13-amd64/vdso/vdso.so").2 = None ∧
  (∃ err, NewCache VdsoScenario.host2 =
            (None, Some err, ["/usr/lib/modules/6.1.0-13-amd64/vdso/vdso.so"])).
Proof.
  split_and!; try (vm_compute; reflexivity); eexists; vm_compute; reflexivity.
Qed.

(** C9, as the code has it, on [host1]: both paths are opened, in order,
    and the cache is that of the second, with its one symbol. *)
Lemma NewCache_probes_vdso_directory_witness :
  (∀ path o e, Open VdsoScenario.host1 path ≠ (Some o, Some e)) ∧
  ∃ cache opened,
    NewCache VdsoScenario.host1 = (Some cache, None, opened) ∧
    opened = ["/usr/lib/modules/6.1.0-13-amd64/vdso/vdso.so";
              "/usr/lib/modules/6.1.0-13-amd64/vdso/vdso64.so"] ∧
    f cache = "/usr/lib/modules/6.1.0-13-amd64/vdso/vdso64.so" ∧
    Name <$> searcher cache = ["__vdso_clock_gettime"].
Proof.
  assert (H2 : ∀ path o e, Open VdsoScenario.host1 path ≠ (Some o, Some e)).
  { intros path o e. simpl. destruct (String.eqb path _); discriminate. }
  split; [exact H2|].
  destruct (NewCache_probes_vdso_directory VdsoScenario.host1 H2)
    as (cache & err & opened & Hrun & Hopened & _ & _ & _ & Hfirst).
  specialize (Hfirst "/usr/lib/modules/6.1.0-13-amd64/vdso/vdso64.so" _ eq_refl).
  simpl in Hfirst. destruct Hfirst as [-> ->].
  eexists _, _. split; [exact Hrun|]. split_and!; [exact Hopened|reflexivity|reflexivity].
Defined.

(** * Properties of [Cache.Resolve] *)

Section ResolveCounts.
Import vdso_Cache ResolveSpec.

Lemma count_Inc_eq label v : count (Inc label v) label = S (count v label).
Proof. unfold count, Inc. by rewrite lookup_insert_eq. Qed.

Lemma count_Inc_ne label v l : l ≠ label → count (Inc label v) l = count v l.
Proof. intros Hne. unfold count, Inc. by rewrite lookup_insert_ne. Qed.

Ltac count_Inc := repeat first [ rewrite count_Inc_eq | rewrite count_Inc_ne by done ].

(** One lookup. *)
Lemma Resolve_counts deps c addr m ms :
  ∃ r ms', Resolve deps (Some c) addr m ms = Some (r, ms') ∧
    (r.2 ≠ None → r.1 = "") ∧
    count (lookup ms') lvSuccess =
      count (lookup ms) lvSuccess + (if nonnil r.2 then 0 else 1) ∧
    count (lookupErrors ms') lvError =
      count (lookupErrors ms) lvError + (if nonnil r.2 then 1 else 0) ∧
    reasons ms' = reasons ms + (if nonnil r.2 && nonnil m then 1 else 0) ∧
    count (lookupErrors ms') lvErrMappingNil = count (lookupErrors ms) lvErrMappingNil ∧
    count (lookupErrors ms') lvErrMappingEmpty = count (lookupErrors ms) lvErrMappingEmpty ∧
    ∀ label, label ≠ lvSuccess → count (lookup ms') label = count (lookup ms) label.
Proof.
  unfold Resolve, reasons, bind, ret, lookup_Inc, lookupErrors_Inc, modify.
  destruct m as [m|].
  2:{ eexists _, _. split; [reflexivity|]. simpl. count_Inc. split_and!; try done; lia. }
  destruct (Normalize deps m addr) as [addr' [err|]].
  { destruct (isAddressOutOfRangeError deps err);
      [|destruct (isErrBaseAddressCannotCalculated deps err)];
      (eexists _, _; split; [reflexivity|]; simpl; count_Inc; split_and!; try done; lia). }
  destruct (Search deps _ _) as [sym [err|]].
  - eexists _, _. split; [reflexivity|]. simpl. count_Inc. split_and!; try done; lia.
  - eexists _, _. split; [reflexivity|]. simpl. count_Inc. split_and!; try done; try lia.
    intros label Hl. by rewrite count_Inc_ne.
Qed.

Lemma succeeded_cons r results :
  succeeded (r :: results) = (if nonnil r.2 then 0 else 1) + succeeded results.
Proof.
  unfold succeeded. rewrite filter_cons.
  destruct r as [sym [err|]]; case_decide; simpl in *; done.
Qed.

Lemma failed_cons r results :
  failed (r :: results) = (if nonnil r.2 then 1 else 0) + failed results.
Proof.
  unfold failed. rewrite filter_cons.
  destruct r as [sym [err|]]; case_decide; simpl in *; done.
Qed.

Lemma failedWithMapping_cons (q : Z * option process.Mapping) queries r results :
  failedWithMapping (q :: queries) (r :: results) =
  (if nonnil r.2 && nonnil q.2 then 1 else 0) + failedWithMapping queries results.
Proof.
  unfold failedWithMapping. simpl zip. rewrite filter_cons.
  destruct r as [sym [err|]], q as [addr [m|]]; case_decide as H; simpl in *; try done;
    try (by destruct H as [[] _]); try (by destruct H as [_ []]).
  destruct H. done.
Qed.

Lemma resolveAll_from deps c queries : ∀ acc ms,
  ∃ results ms',
    forRange queries
      (λ results q, let* r := Resolve deps (Some c) q.1 q.2 in ret (results ++ [r])) acc ms =
      Some (acc ++ results, ms') ∧
    length results = length queries ∧
    Forall (λ r, r.2 ≠ None → r.1 = "") results ∧
    count (lookup ms') lvSuccess = count (lookup ms) lvSuccess + succeeded results ∧
    count (lookupErrors ms') lvError = count (lookupErrors ms) lvError + failed results ∧
    reasons ms' = reasons ms + failedWithMapping queries results ∧
    count (lookupErrors ms') lvErrMappingNil = count (lookupErrors ms) lvErrMappingNil ∧
    count (lookupErrors ms') lvErrMappingEmpty = count (lookupErrors ms) lvErrMappingEmpty.
Proof.
  induction queries as [|q queries IH]; intros acc ms.
  - exists [], ms. simpl. rewrite app_nil_r. unfold succeeded, failed, failedWithMapping. simpl.
    split_and!; try done; lia.
  - destruct (Resolve_counts deps c q.1 q.2 ms)
      as (r & ms1 & Hrun & Hsym & Hsucc & Herr & Hreasons & Hnil & Hempty & _).
    destruct (IH (acc ++ [r]) ms1)
      as (results & ms' & Hloop & Hlen & Hall & Hsucc' & Herr' & Hreasons' & Hnil' & Hempty').
    exists (r :: results), ms'.
    rewrite succeeded_cons, failed_cons, failedWithMapping_cons.
    split_and!.
    + cbn [forRange]. unfold bind at 1. unfold bind at 1. rewrite Hrun. unfold ret at 1.
      rewrite Hloop. by rewrite <- app_assoc.
    + simpl. by rewrite Hlen.
    + by constructor.
    + lia.
    + lia.
    + lia.
    + congruence.
    + congruence.
Qed.

(** X13 — every [Resolve] on a cache is counted exactly once: in
    [lookup{success}] when it returns a symbol, and in
    [lookupErrors{error}] when it returns an error, with the empty
    string.  A failed lookup of a query with a mapping is counted once
    more under the reason of the failure; a nil mapping has no reason
    counted, and the counters [mapping_nil] and [mapping_empty] never
    move.  On the counters of [newMetrics] the totals are therefore the
    numbers of successes and of failures.  On a nil cache every
    [Resolve] returns the empty name and no error, and counts nothing. *)
Theorem Resolve_counts_every_lookup deps c queries ms :
  (∃ results ms',
     resolveAll deps (Some c) queries ms = Some (results, ms') ∧
     length results = length queries ∧
     succeeded results + failed results = length queries ∧
     Forall (λ r, r.2 ≠ None → r.1 = "") results ∧
     count (lookup ms') lvSuccess = count (lookup ms) lvSuccess + succeeded results ∧
     count (lookupErrors ms') lvError = count (lookupErrors ms) lvError + failed results ∧
     reasons ms' = reasons ms + failedWithMapping queries results ∧
     count (lookupErrors ms') lvErrMappingNil = count (lookupErrors ms) lvErrMappingNil ∧
     count (lookupErrors ms') lvErrMappingEmpty = count (lookupErrors ms) lvErrMappingEmpty) ∧
  (∃ results ms',
     resolveAll deps (Some c) queries newMetrics = Some (results, ms') ∧
     count (lookup ms') lvSuccess = succeeded results ∧
     count (lookupErrors ms') lvError = failed results ∧
     reasons ms' = failedWithMapping queries results) ∧
  resolveAll deps None queries ms = Some ((λ _, ("", None)) <$> queries, ms).
Proof.
  split_and!.
  - destruct (resolveAll_from deps c queries [] ms)
      as (results & ms' & Hloop & Hlen & Hall & Hsucc & Herr & Hreasons & Hnil & Hempty).
    exists results, ms'. split_and!; try done.
    rewrite <- Hlen. clear. induction results as [|r results IH]; [done|].
    rewrite succeeded_cons, failed_cons. simpl. destruct (nonnil r.2); lia.
  - destruct (resolveAll_from deps c queries [] newMetrics)
      as (results & ms' & Hloop & _ & _ & Hsucc & Herr & Hreasons & _).
    exists results, ms'. split_and!; done.
  - unfold resolveAll.
    assert (H : ∀ acc, forRange queries
        (λ results q, let* r := Resolve deps None q.1 q.2 in ret (results ++ [r])) acc ms =
        Some (acc ++ ((λ _, ("", None)) <$> queries), ms)).
    { induction queries as [|q queries IH]; intros acc; simpl.
      - by rewrite app_nil_r.
      - unfold bind at 1. simpl. rewrite IH. by rewrite <- app_assoc. }
    apply H.
Qed.

End ResolveCounts.

(** X14 — [NewCache] never returns a cache together with an error, and
    it returns neither, a nil cache without an error, exactly when the
    kernel release is known and opening [vdso.so] yields no file and no
    error. *)
Theorem NewCache_cache_or_error h :
  ∃ cache err opened,
    NewCache h = (cache, err, opened) ∧
    ¬ (cache ≠ None ∧ err ≠ None) ∧
    (cache = None ∧ err = None ↔
     ∃ release, KernelRelease h = (release, None) ∧
                Open h (vdsoPath release "vdso.so") = (None, None)).
Proof.
  unfold NewCache. destruct (KernelRelease h) as [release [e|]] eqn:Hrel.
  { eexists _, _, _. split; [reflexivity|]. split; [by intros [[] _]|].
    split; [by intros [_ ?]|]. by intros (? & [=] & _). }
  assert (Hfin : ∀ (o : ObjectFile) path opened,
    ∃ cache err,
      match ELF o with
      | (ef, Some err) =>
          (None, Some (wrapError ("failed to get elf file: " +:+ path +:+ ", err: ") err), opened)
      | (ef, None) =>
          let '(syms, err) := DynamicSymbols ef in
          match err with
          | Some err => (None, Some err, opened)
          | None => (Some {| searcher := syms; f := path |}, None, opened)
          end
      end = (cache : option Cache, err : option error, opened : list string) ∧
      ¬ (cache ≠ None ∧ err ≠ None) ∧ ¬ (cache = None ∧ err = None)).
  { intros o path opened. destruct (ELF o) as [ef [e|]].
    - eexists _, _. split; [reflexivity|]. split; [by intros [[] _]|by intros [_ ?]].
    - destruct (DynamicSymbols ef) as [syms [e|]];
        (eexists _, _; split; [reflexivity|]);
        (split; [by intros [? ?]|by intros [? ?]]). }
  unfold probeLoop.
  destruct (Open h (vdsoPath release "vdso.so")) as [o1 [e1|]] eqn:H1; simpl.
  - destruct (Open h (vdsoPath release "vdso64.so")) as [o2 [e2|]] eqn:H2; simpl.
    + destruct o2 as [o2|]; simpl.
      * destruct (Hfin o2 (vdsoPath release "vdso64.so")
                    [vdsoPath release "vdso.so"; vdsoPath release "vdso64.so"])
          as (cache & err & Heq & Hnot1 & Hnot2).
        exists cache, err, [vdsoPath release "vdso.so"; vdsoPath release "vdso64.so"].
        split; [exact Heq|]. split; [done|]. split; [done|].
        intros (release' & [= <-] & Hopen). congruence.
      * eexists _, _, _. split; [reflexivity|]. split; [by intros [[] _]|].
        split; [by intros [_ ?]|]. intros (release' & [= <-] & Hopen). congruence.
    + destruct o2 as [o2|]; simpl.
      * destruct (Hfin o2 (vdsoPath release "vdso64.so")
                    [vdsoPath release "vdso.so"; vdsoPath release "vdso64.so"])
          as (cache & err & Heq & Hnot1 & Hnot2).
        exists cache, err, [vdsoPath release "vdso.so"; vdsoPath release "vdso64.so"].
        split; [exact Heq|]. split; [done|]. split; [done|].
        intros (release' & [= <-] & Hopen). congruence.
      * eexists _, _, _. split; [reflexivity|]. split; [by intros [[] _]|].
        split; [by intros [_ ?]|]. intros (release' & [= <-] & Hopen). congruence.
  - destruct o1 as [o1|]; simpl.
    + destruct (Hfin o1 (vdsoPath release "vdso.so") [vdsoPath release "vdso.so"])
        as (cache & err & Heq & Hnot1 & Hnot2).
      exists cache, err, [vdsoPath release "vdso.so"].
      split; [exact Heq|]. split; [done|]. split; [done|].
      intros (release' & [= <-] & Hopen). congruence.
    + eexists _, _, _. split; [reflexivity|]. split; [by intros [[] _]|].
      split; [|done]. intros _. by exists release.
Qed.

(** * Properties of the debuginfo manager *)

Import debuginfo DebuginfoSpec.

Lemma GetIfPresent_after_Put {K V} `{Countable K} policy (entries : gmap K (burrow.entry V))
    (k : K) (v : V) now :
  (burrow.GetIfPresent now (burrow.Put now (burrow.LocalCache policy entries) k v) k).1 = Some v.
Proof.
  simpl. rewrite lookup_insert_eq.
  assert (Hnot : burrow.isExpired policy
            {| burrow.value := v; burrow.accessTime := now; burrow.writeTime := now |} now = false).
  { destruct policy as [d|d]; simpl; destruct (0 <? d)%Z eqn:Hd; simpl; try done;
      apply Z.ltb_lt in Hd; apply Z.ltb_ge; lia. }
  by rewrite Hnot.
Qed.

(** C7. [shouldInitiate] returns false, without a call to the backend,
    when the build ID is present in the should-initiate cache.  On a miss
    it calls [ShouldInitiateUpload]: when the answer is not to initiate,
    it puts the build ID in the cache and returns false; when the answer
    is to initiate, it returns true; when the call fails, it returns
    true.  After the put, a cache that stores entries holds the build
    ID. *)
Theorem shouldInitiate_cache_then_backend di buildID filepath :
  let lookup := burrow.GetIfPresent (clock di) (shouldInitiateCache di) buildID in
  let di1 := set_shouldInitiateCache lookup.2 di in
  let answer := ShouldInitiateUpload (debuginfoClient di) (calls di) buildID in
  let di2 := issue (ShouldInitiateUploadCall buildID) di1 in
  let di3 := set_shouldInitiateCache
               (burrow.Put (clock di2) (shouldInitiateCache di2) buildID tt) di2 in
  (lookup.1 ≠ None →
     shouldInitiate buildID filepath di = Some (false, di1) ∧ calls di1 = calls di) ∧
  (lookup.1 = None → answer = (false, None) →
     shouldInitiate buildID filepath di = Some (false, di3) ∧
     calls di3 = calls di ++ [ShouldInitiateUploadCall buildID]) ∧
  (lookup.1 = None → answer = (true, None) →
     shouldInitiate buildID filepath di = Some (true, di2) ∧
     calls di2 = calls di ++ [ShouldInitiateUploadCall buildID]) ∧
  (lookup.1 = None → answer.2 ≠ None →
     shouldInitiate buildID filepath di = Some (true, di2)) ∧
  (∀ policy entries,
     shouldInitiateCache di2 = burrow.LocalCache policy entries →
     (burrow.GetIfPresent (clock di3) (shouldInitiateCache di3) buildID).1 = Some tt).
Proof.
  intros lookup di1 answer di2 di3.
  unfold shouldInitiate, bind, get, modify, ret.
  fold lookup. fold answer.
  subst di3 di2 di1.
  destruct lookup as [v cache]. destruct answer as [resp err]. simpl.
  split_and!.
  - intros Hv. by destruct v.
  - intros -> [= -> ->]. done.
  - intros -> [= -> ->]. done.
  - intros -> Herr. by destruct err.
  - intros policy entries Hc. rewrite Hc. apply GetIfPresent_after_Put.
Qed.

Lemma shouldInitiate_true di buildID filepath di1 :
  shouldInitiate buildID filepath di = Some (true, di1) →
  calls di1 = calls di ++ [ShouldInitiateUploadCall buildID] ∧
  debuginfoClient di1 = debuginfoClient di ∧ env di1 = env di ∧
  samePolicy (shouldInitiateCache di) (shouldInitiateCache di1).
Proof.
  unfold shouldInitiate, bind, get, modify, ret, samePolicy.
  destruct (burrow.GetIfPresent _ _ _) as [v cache] eqn:Hget.
  assert (Hpol : match shouldInitiateCache di with
                 | burrow.NoopCache => cache = burrow.NoopCache
                 | burrow.LocalCache policy _ => ∃ entries', cache = burrow.LocalCache policy entries'
                 end).
  { unfold burrow.GetIfPresent in Hget. destruct (shouldInitiateCache di) as [|policy entries].
    - by injection Hget as _ <-.
    - destruct (entries !! buildID) as [en|]; [destruct (burrow.isExpired _ _ _)|];
        injection Hget as _ <-; eauto. }
  destruct v; simpl; [done|].
  destruct (ShouldInitiateUpload _ _ _) as [resp err].
  destruct err; simpl; [|destruct resp; simpl]; intros [= <-]; simpl; try done.
Qed.

Lemma hashOf_frame dbg di r di' :
  hashOf dbg di = Some (r, di') →
  calls di' = calls di ∧ shouldInitiateCache di' = shouldInitiateCache di ∧
  clock di' = clock di ∧ debuginfoClient di' = debuginfoClient di ∧ env di' = env di.
Proof.
  unfold hashOf, bind, get, modify, ret.
  destruct (burrow.GetIfPresent _ _ _) as [v cache]. simpl.
  destruct v; [by intros [= <- <-]|].
  destruct (Reader _ _) as [rd [e|]]; [by intros [= <- <-]|].
  destruct (hash_Reader _ _) as [h [e|]]; by intros [= <- <-].
Qed.

Lemma GetIfPresent_within_ttl ttl (entries : gmap string (burrow.entry unit)) k w now :
  (now - w < ttl)%Z →
  burrow.GetIfPresent now
    (burrow.Put w (burrow.LocalCache (burrow.ExpireAfterWrite ttl) entries) k tt) k =
  (Some tt,
   burrow.LocalCache (burrow.ExpireAfterWrite ttl)
     (<[k := {| burrow.value := tt; burrow.accessTime := now; burrow.writeTime := w |}]>
        (<[k := {| burrow.value := tt; burrow.accessTime := w; burrow.writeTime := w |}]>
           entries))).
Proof.
  intros Hd. simpl. rewrite lookup_insert_eq. simpl.
  assert (Hnot : (0 <? ttl)%Z && (w <? now - ttl)%Z = false).
  { destruct (0 <? ttl)%Z eqn:Ht; [|done]. simpl. apply Z.ltb_ge. lia. }
  by rewrite Hnot.
Qed.

(** C8. When [upload] reaches [InitiateUpload] (the re-check says to
    initiate and the hash is obtained) and the call fails with the status
    [AlreadyExists], [upload] puts the build ID in the should-initiate
    cache and returns nil; its only calls to the backend are
    [ShouldInitiateUpload] and [InitiateUpload], so no body is
    transferred.  With the cache enabled, an [EnsureUploaded] for that
    build ID that starts less than the TTL after the put, in a state with
    that cache, returns nil and calls the backend not at all. *)
Theorem upload_AlreadyExists_is_success di dbg di1 h di2 resp err ttl entries :
  shouldInitiateCache di = burrow.LocalCache (burrow.ExpireAfterWrite ttl) entries →
  shouldInitiate (BuildID dbg) (Path dbg) di = Some (true, di1) →
  (let* _ := Add "uploadAttempts" "" 1 in hashOf dbg) di1 = Some ((h, None), di2) →
  InitiateUpload (debuginfoClient di2) (calls di2) (BuildID dbg) h (Size dbg) =
    (resp, Some err) →
  status.FromError err = Some codes.AlreadyExists →
  ∃ di',
    upload dbg di = Some (None, di') ∧
    (burrow.GetIfPresent (clock di') (shouldInitiateCache di') (BuildID dbg)).1 = Some tt ∧
    calls di' = calls di ++ [ShouldInitiateUploadCall (BuildID dbg);
                             InitiateUploadCall (BuildID dbg) h (Size dbg)] ∧
    Forall (λ c, transfersBody c = false) (drop (length (calls di)) (calls di')) ∧
    ∀ root src st,
      BuildID src = BuildID dbg →
      shouldInitiateCache st = shouldInitiateCache di' →
      (clock st - clock di' < ttl)%Z →
      ∃ st', EnsureUploaded root src st = Some ((None, src), st') ∧ calls st' = calls st.
Proof.
  intros Hcache Hshould Hhash Hinit Hstatus.
  destruct (shouldInitiate_true _ _ _ _ Hshould) as (Hcalls1 & Hclient1 & Henv1 & Hpol).
  unfold samePolicy in Hpol. rewrite Hcache in Hpol. destruct Hpol as [entries1 Hcache1].
  unfold bind, Add, modify in Hhash.
  destruct (hashOf_frame _ _ _ _ Hhash) as (Hcalls2 & Hcache2 & Hclock2 & Hclient2 & Henv2).
  simpl in Hcalls2, Hcache2.
  set (di3 := issue (InitiateUploadCall (BuildID dbg) h (Size dbg)) di2).
  set (di' := set_shouldInitiateCache
                (burrow.Put (clock di3) (shouldInitiateCache di3) (BuildID dbg) tt) di3).
  assert (Hcache3 : shouldInitiateCache di2 =
                    burrow.LocalCache (burrow.ExpireAfterWrite ttl) entries1)
    by congruence.
  exists di'. split_and!.
  - unfold upload. unfold bind at 1. rewrite Hshould. simpl.
    unfold bind at 1, Add, modify. unfold bind at 1. rewrite Hhash.
    unfold bind at 1, get. rewrite Hinit. unfold bind at 1, modify.
    rewrite Hstatus. simpl. reflexivity.
  - unfold di'. simpl. rewrite Hcache3. apply GetIfPresent_after_Put.
  - unfold di', di3. simpl. rewrite Hcalls2, Hcalls1. by rewrite <- app_assoc.
  - unfold di', di3. simpl. rewrite Hcalls2, Hcalls1.
    rewrite <- app_assoc, drop_app_length. simpl. by repeat constructor.
  - intros root src st Hsrc Hst Hnow.
    unfold EnsureUploaded. unfold bind at 1. unfold shouldInitiate. unfold bind at 1, get.
    rewrite Hsrc, Hst. unfold di'. simpl. rewrite Hcache3.
    rewrite GetIfPresent_within_ttl by (unfold di' in Hnow; simpl in Hnow; exact Hnow).
    simpl. eexists. split; reflexivity.
Qed.

(** C8 on the manager of the scenario. *)
Lemma upload_AlreadyExists_is_success_witness :
  ∃ di',
    upload UploadScenario.dbg UploadScenario.manager = Some (None, di') ∧
    calls di' = [ShouldInitiateUploadCall "2d3a"; InitiateUploadCall "2d3a" "5f1d7a" 4096] ∧
    ∀ st,
      shouldInitiateCache st = shouldInitiateCache di' →
      (clock st - clock di' < 5 * Minute)%Z →
      ∃ st', EnsureUploaded "/" UploadScenario.src st = Some ((None, UploadScenario.src), st') ∧
             calls st' = calls st.
Proof.
  edestruct (upload_AlreadyExists_is_success UploadScenario.manager UploadScenario.dbg)
    as (di' & Hupload & _ & Hcalls & _ & Hnext);
    [reflexivity|reflexivity|reflexivity|reflexivity|reflexivity|].
  exists di'. split; [exact Hupload|]. split; [exact Hcalls|].
  intros st Hst Hnow. exact (Hnext "/" UploadScenario.src st eq_refl Hst Hnow).
Defined.

(** The manager of the scenario, run twice on the same executable.  The
    first [EnsureUploaded] extracts the debuginfo, is refused by
    [InitiateUpload] with [AlreadyExists] and returns nil, having
    transferred no body; the second returns nil without a call. *)
Example EnsureUploaded_twice :
  (λ '(err, src, di),
     (err, calls di,
      (λ '(err', _, di'), (err', calls di', metrics di' !! ("ensureUploadedRequests", lvShared)))
        <$> EnsureUploaded "/" src di))
    <$> EnsureUploaded "/" UploadScenario.src UploadScenario.manager =
  Some (None,
        [ShouldInitiateUploadCall "2d3a"; ShouldInitiateUploadCall "2d3a";
         InitiateUploadCall "2d3a" "5f1d7a" 4096],
        Some (None,
              [ShouldInitiateUploadCall "2d3a"; ShouldInitiateUploadCall "2d3a";
               InitiateUploadCall "2d3a" "5f1d7a" 4096],
              Some 1%Z)).
Proof. vm_compute. reflexivity. Qed.

Import ManagerSpec.

(** ** What the methods of the manager leave alone *)

#[global] Instance evolves_refl : Reflexive evolves.
Proof. intros di. split; try done; lia. Qed.

#[global] Instance evolves_trans : Transitive evolves.
Proof.
  intros d1 d2 d3 [] []. split; try congruence; [lia|by etrans].
Qed.

#[global] Instance metricsExcept_refl names : Reflexive (metricsExcept names).
Proof. by intros di metric label. Qed.

#[global] Instance metricsExcept_trans names : Transitive (metricsExcept names).
Proof. intros d1 d2 d3 H12 H23 metric label Hn. by rewrite H23, H12. Qed.

Lemma evolves_issue c di : evolves di (issue c di).
Proof. split; try done; simpl; [lia|by apply prefix_app_r]. Qed.

Lemma evolves_set_metrics f di : evolves di (set_metrics f di).
Proof. split; try done; simpl; lia. Qed.

Lemma evolves_set_shouldInitiateCache c di : evolves di (set_shouldInitiateCache c di).
Proof. split; try done; simpl; lia. Qed.

Lemma evolves_set_hashCache c di : evolves di (set_hashCache c di).
Proof. split; try done; simpl; lia. Qed.

Lemma evolves_set_finishing n di : evolves di (set_finishing n di).
Proof. split; try done; simpl; lia. Qed.

#[global] Instance sameFinishing_refl : Reflexive sameFinishing.
Proof. by intros di. Qed.

#[global] Instance sameFinishing_trans : Transitive sameFinishing.
Proof. intros d1 d2 d3. unfold sameFinishing. congruence. Qed.

Lemma Add_evolves metric label n : tracks evolves (Add metric label n).
Proof. apply tracks_modify. intros di. apply evolves_set_metrics. Qed.

Ltac evolves_step :=
  first
    [ apply Add_evolves
    | apply tracks_modify; intros ?;
      first [ apply evolves_issue | apply evolves_set_metrics
            | apply evolves_set_shouldInitiateCache | apply evolves_set_hashCache
            | apply evolves_set_finishing ]
    | tracks_step ].

Ltac evolves_method := repeat evolves_step.

Lemma shouldInitiate_evolves buildID filepath : tracks evolves (shouldInitiate buildID filepath).
Proof. unfold shouldInitiate. evolves_method. Qed.

Lemma hashOf_evolves dbg : tracks evolves (hashOf dbg).
Proof. unfold hashOf. evolves_method. Qed.

Lemma uploadFile_evolves ins r size : tracks evolves (uploadFile ins r size).
Proof. unfold uploadFile, uploadViaGRPC, uploadViaSignedURL. evolves_method. Qed.

Lemma upload_evolves dbg : tracks evolves (upload dbg).
Proof.
  unfold upload.
  repeat first
    [ apply shouldInitiate_evolves | apply hashOf_evolves | apply uploadFile_evolves
    | evolves_step ].
Qed.

Lemma Upload_evolves dbg : tracks evolves (Upload dbg).
Proof.
  unfold Upload, singleflight_Do.
  repeat first [ apply upload_evolves | evolves_step ].
Qed.

Lemma extract_evolves buildID src : tracks evolves (extract buildID src).
Proof. unfold extract. evolves_method. Qed.

Lemma Extract_evolves src : tracks evolves (Extract src).
Proof.
  unfold Extract, singleflight_Do.
  repeat first [ apply extract_evolves | evolves_step ].
Qed.

Lemma ExtractOrFind_evolves root src : tracks evolves (ExtractOrFind root src).
Proof.
  unfold ExtractOrFind.
  repeat first [ apply Extract_evolves | evolves_step ].
Qed.




(** ** The calls of an upload *)

Lemma status_2xx (StatusCode : Z) : (StatusCode ÷ 100 =? 2)%Z = true ↔ (200 ≤ StatusCode ≤ 299)%Z.
Proof.
  rewrite Z.eqb_eq. split.
  - intros Hq. pose proof (Z.quot_rem' StatusCode 100) as Hqr. rewrite Hq in Hqr.
    destruct (decide (0 ≤ StatusCode)%Z) as [Hnn|Hneg].
    + assert (0 ≤ Z.rem StatusCode 100 < 100)%Z by (apply Z.rem_bound_pos; lia). lia.
    + assert (Z.abs (Z.rem StatusCode 100) < Z.abs 100)%Z by (by apply Z.rem_bound_abs). lia.
  - intros Hr. rewrite Z.quot_div_nonneg by lia.
    symmetry. apply (Z.div_unique StatusCode 100 2 (StatusCode - 200)); lia.
Qed.

Lemma shouldInitiate_issued buildID filepath di r di' :
  shouldInitiate buildID filepath di = Some (r, di') →
  (r = false ∧ calls di' = calls di) ∨
  calls di' = calls di ++ [ShouldInitiateUploadCall buildID].
Proof.
  unfold shouldInitiate, bind, get, modify, ret.
  destruct (burrow.GetIfPresent _ _ _) as [v cache].
  destruct v; simpl; [intros [= <- <-]; by left|].
  destruct (ShouldInitiateUpload _ _ _) as [resp err].
  destruct err; simpl; [|destruct resp; simpl]; intros [= <- <-]; by right.
Qed.

(** What [uploadFile] sends: nothing, with an error; or the body, once,
    with an error exactly when the transfer was not answered well. *)
Lemma uploadFile_issued uploadInstructions r size di err di' :
  uploadFile uploadInstructions r size di = Some (err, di') →
  (err ≠ None ∧ calls di' = calls di) ∨
  ∃ body, transfersBody body = true ∧ calls di' = calls di ++ [body] ∧
          (err = None ↔ transferred (debuginfoClient di) (calls di) body).
Proof.
  unfold uploadFile. destruct uploadInstructions as [ins|]; [|done].
  destruct (UploadStrategy_ ins).
  - intros [= <- <-]. by left.
  - unfold uploadViaGRPC, bind, get, modify, ret. intros [= <- <-].
    right. exists (UploadCall ins r). by split_and!.
  - unfold uploadViaSignedURL, bind, get, modify, ret.
    destruct (http_NewRequest _ _); [intros [= <- <-]; by left|].
    destruct (http_Do _ _ _ _ _) as [[StatusCode data] e] eqn:Hdo.
    right. exists (HTTPPutCall (SignedUrl ins) size r). simpl. rewrite Hdo.
    destruct e as [e|].
    + injection H as <- <-. split_and!; try done. split; [done|].
      by intros (? & ? & [=] & _).
    + destruct (StatusCode ÷ 100 =? 2)%Z eqn:Hcode; simpl in H; injection H as <- <-.
      * split_and!; try done. split; [|done]. intros _. exists StatusCode, data.
        split; [done|]. by apply status_2xx.
      * split_and!; try done. split; [done|].
        intros (code & data' & [= <- <-] & Hrange). apply status_2xx in Hrange. congruence.
  - intros [= <- <-]. by left.
Qed.

(** X15 — the calls of one [upload] follow the protocol, in order:
    [ShouldInitiateUpload], [InitiateUpload], one transfer of the body
    (streamed or put to the signed URL), [MarkUploadFinished].  [upload]
    stops at any point of it; it never transfers a body before
    [InitiateUpload], marks an upload finished only after a transfer that
    was answered well, and returns an error when the transfer was not. *)
Theorem upload_calls_follow_protocol dbg di err di' :
  upload dbg di = Some (err, di') →
  ∃ new, calls di' = calls di ++ new ∧
    uploadTrace (debuginfoClient di) (calls di) (BuildID dbg) (Size dbg) err new.
Proof.
  unfold upload. unfold bind at 1.
  destruct (shouldInitiate _ _ di) as [[should di1]|] eqn:Hshould; [|done].
  destruct should; simpl.
  2:{ intros [= <- <-].
      destruct (shouldInitiate_issued _ _ _ _ _ Hshould) as [[_ Hc]|Hc].
      - exists []. rewrite app_nil_r. split; [done|constructor].
      - eexists. split; [done|constructor]. }
  destruct (shouldInitiate_true _ _ _ _ Hshould) as (Hcalls1 & Hclient1 & Henv1 & _).
  unfold bind at 1, Add, modify. unfold bind at 1.
  destruct (hashOf dbg _) as [[[h herr] di2]|] eqn:Hhash; [|done].
  destruct (hashOf_frame _ _ _ _ Hhash) as (Hcalls2 & _ & _ & Hclient2 & Henv2).
  simpl in Hcalls2, Hclient2, Henv2.
  destruct herr as [herr|].
  { intros [= <- <-]. eexists. split; [by rewrite Hcalls2, Hcalls1|constructor]. }
  unfold bind at 1, get.
  destruct (InitiateUpload _ _ _ _ _) as [initiateResp ierr].
  unfold bind at 1, modify.
  set (di3 := issue _ di2).
  assert (Hcalls3 : calls di3 = calls di ++ [ShouldInitiateUploadCall (BuildID dbg);
                                             InitiateUploadCall (BuildID dbg) h (Size dbg)]).
  { unfold di3. simpl. rewrite Hcalls2, Hcalls1. by rewrite <- app_assoc. }
  destruct ierr as [ierr|].
  { destruct (status.FromError ierr) as [code|]; [destruct (codes.eqb _ _)|];
      intros [= <- <-]; (eexists; split; [exact Hcalls3|constructor]). }
  unfold bind at 1, get.
  destruct (Reader _ _) as [r [rerr|]].
  { intros [= <- <-]. eexists. split; [exact Hcalls3|constructor]. }
  unfold bind at 1.
  destruct (uploadFile initiateResp r (Size dbg) di3) as [[uerr di4]|] eqn:Hfile; [|done].
  destruct (uploadFile_issued _ _ _ _ _ _ Hfile) as [[Herr Hcalls4]|(body & Hbody & Hcalls4 & Hok)].
  { destruct uerr as [uerr|]; [|done]. intros [= <- <-].
    eexists. split; [by rewrite Hcalls4|constructor]. }
  assert (Hclient3 : debuginfoClient di3 = debuginfoClient di) by (simpl; congruence).
  rewrite Hclient3, Hcalls3 in Hok.
  destruct uerr as [uerr|].
  { intros [= <- <-]. eexists. split.
    - rewrite Hcalls4, Hcalls3. by rewrite <- app_assoc.
    - simpl. apply trace_transfer_failed; [done|]. intros Ht. by apply Hok in Ht. }
  destruct initiateResp as [uploadInstructions|]; [|done].
  unfold bind at 1, get, bind, modify.
  assert (Ht : transferred (debuginfoClient di) (calls di ++ [ShouldInitiateUploadCall (BuildID dbg);
              InitiateUploadCall (BuildID dbg) h (Size dbg)]) body) by (by apply Hok).
  destruct (MarkUploadFinished _ _ _ _); intros [= <- <-];
    (eexists; split;
     [simpl; rewrite Hcalls4, Hcalls3; rewrite <- !app_assoc; reflexivity
     |by apply trace_finished]).
Qed.

(** X15 on the manager of the scenario: [InitiateUpload] refuses, and the
    calls stop there. *)
Lemma upload_calls_follow_protocol_witness :
  ∃ di' new,
    upload UploadScenario.dbg UploadScenario.manager = Some (None, di') ∧
    calls di' = calls UploadScenario.manager ++ new ∧
    uploadTrace (debuginfoClient UploadScenario.manager) (calls UploadScenario.manager)
      "2d3a" 4096 None new.
Proof.
  destruct (upload UploadScenario.dbg UploadScenario.manager) as [[err di']|] eqn:Hrun.
  - assert (Herr : fst <$> upload UploadScenario.dbg UploadScenario.manager = Some None)
      by (vm_compute; reflexivity).
    rewrite Hrun in Herr. injection Herr as ->.
    destruct (upload_calls_follow_protocol UploadScenario.dbg UploadScenario.manager None di' Hrun)
      as (new & Hcalls & Htrace).
    by exists di', new.
  - assert (Hret : nonnil (upload UploadScenario.dbg UploadScenario.manager) = true)
      by (vm_compute; reflexivity).
    by rewrite Hrun in Hret.
Defined.

(** X16 — an upload to a signed URL succeeds exactly when the request
    can be created, the PUT is answered, and the status code is in the
    200s; it sends the body at most once, and not at all when the request
    cannot be created. *)
Theorem uploadViaSignedURL_succeeds_on_2xx url r size di :
  ∃ err di', uploadViaSignedURL url r size di = Some (err, di') ∧
    (err = None ↔
       http_NewRequest (env di) url = None ∧
       ∃ StatusCode data,
         http_Do (debuginfoClient di) (calls di) url size r = ((StatusCode, data), None) ∧
         (200 ≤ StatusCode ≤ 299)%Z) ∧
    calls di' =
      (if nonnil (http_NewRequest (env di) url) then calls di
       else calls di ++ [HTTPPutCall url size r]).
Proof.
  unfold uploadViaSignedURL, bind, get, modify, ret.
  destruct (http_NewRequest _ _) as [e|].
  { eexists _, _. split; [reflexivity|]. split; [|done]. split; [done|]. by intros [? _]. }
  destruct (http_Do _ _ _ _ _) as [[StatusCode data] [e|]] eqn:Hdo.
  { eexists _, _. split; [reflexivity|]. split; [|done]. split; [done|].
    by intros (_ & ? & ? & [=] & _). }
  destruct (StatusCode ÷ 100 =? 2)%Z eqn:Hcode; simpl;
    (eexists _, _; split; [reflexivity|]; split; [|done]).
  - split; [|done]. intros _. split; [done|]. exists StatusCode, data.
    split; [done|]. by apply status_2xx.
  - split; [done|]. intros (_ & code & data' & [= <- <-] & Hrange).
    apply status_2xx in Hrange. congruence.
Qed.

(** ** The counters *)

Lemma counter_Add metric label n di a s' m l :
  Add metric label n di = Some (a, s') →
  counter s' m l =
    (counter di m l + (if decide ((m, l) = (metric, label)) then n else 0))%Z.
Proof.
  unfold Add, modify. intros [= _ <-]. unfold counter. simpl.
  case_decide as Heq.
  - injection Heq as -> ->. by rewrite lookup_insert_eq.
  - rewrite lookup_insert_ne by done. lia.
Qed.

Lemma Add_frame metric label n di a s' :
  Add metric label n di = Some (a, s') →
  env s' = env di ∧ calls s' = calls di ∧ debuginfoClient s' = debuginfoClient di ∧
  clock s' = clock di ∧ shouldInitiateCache s' = shouldInitiateCache di ∧
  hashCache s' = hashCache di ∧ stripDebuginfos s' = stripDebuginfos di.
Proof. unfold Add, modify. by intros [= _ <-]. Qed.

Lemma metricsExcept_counter names di di' metric label :
  metricsExcept names di di' → metric ∉ names →
  counter di' metric label = counter di metric label.
Proof. intros H Hn. unfold counter. by rewrite H. Qed.

Lemma Add_metricsExcept names metric label n :
  metric ∈ names → tracks (metricsExcept names) (Add metric label n).
Proof.
  intros Hin di a s' [= _ <-] m l Hm. simpl.
  rewrite lookup_insert_ne; [done|]. intros [= <- <-]. done.
Qed.

Ltac metrics_step :=
  first
    [ apply Add_metricsExcept; in_names
    | apply tracks_modify; intros ?; by intros ? ? ?
    | tracks_step ].

Lemma shouldInitiate_metrics names buildID filepath :
  tracks (metricsExcept names) (shouldInitiate buildID filepath).
Proof. unfold shouldInitiate. repeat metrics_step. Qed.

Lemma upload_metrics dbg : tracks (metricsExcept ["uploadAttempts"]) (upload dbg).
Proof.
  unfold upload, hashOf, uploadFile, uploadViaGRPC, uploadViaSignedURL.
  repeat first [ apply shouldInitiate_metrics | metrics_step ].
Qed.

(** The steps of [Upload]. *)
Lemma Upload_steps dbg di err di' :
  Upload dbg di = Some (err, di') →
  ∃ di1, Add "uploadRequests" "" 1 di = Some (tt, di1) ∧
    match Acquire (env di) with
    | Some e => err = Some (wrapError "failed to acquire upload task token: " e) ∧ di' = di1
    | None =>
        ∃ di2 di3 di4 di5,
          Add "uploadInflight" "" 1 di1 = Some (tt, di2) ∧
          match uploadFlight (env di) (BuildID dbg) with
          | Some r => err = r ∧ di3 = di2
          | None => upload dbg di2 = Some (err, di3)
          end ∧
          (if sharedFlight (env di) (BuildID dbg)
           then Add "uploaded" lvShared 1 di3 = Some (tt, di4) else di4 = di3) ∧
          Add "uploaded" (if nonnil err then lvFail else lvSuccess) 1 di4 = Some (tt, di5) ∧
          di' = set_finishing (S (finishing di5)) di5
    end.
Proof.
  unfold Upload. unfold bind at 1.
  destruct (Add "uploadRequests" "" 1 di) as [[[] di1]|] eqn:H1; [|done].
  pose proof (Add_frame _ _ _ _ _ _ H1) as (Henv1 & _).
  exists di1. split; [done|]. revert H. unfold bind at 1, get. rewrite Henv1.
  destruct (Acquire (env di)) as [e|]; [by intros [= <- <-]|].
  unfold bind at 1.
  destruct (Add "uploadInflight" "" 1 di1) as [[[] di2]|] eqn:H2; [|done].
  unfold bind at 1, singleflight_Do, sharedFlight.
  destruct (uploadFlight (env di) (BuildID dbg)) as [r|]; simpl.
  - unfold ret at 1. unfold bind at 1.
    destruct (Add "uploaded" lvShared 1 di2) as [[[] di4]|] eqn:H4; [|done].
    unfold bind at 1.
    destruct (Add "uploaded" _ 1 di4) as [[[] di5]|] eqn:H5; [|done].
    unfold bind, get, modify, ret. intros [= <- <-]. by exists di2, di2, di4, di5.
  - unfold bind at 1.
    destruct (upload dbg di2) as [[uerr di3]|] eqn:H3; [|done].
    unfold ret at 1. unfold bind at 1.
    destruct (uploadDups (env di) (BuildID dbg)).
    + destruct (Add "uploaded" lvShared 1 di3) as [[[] di4]|] eqn:H4; [|done].
      unfold bind at 1.
      destruct (Add "uploaded" _ 1 di4) as [[[] di5]|] eqn:H5; [|done].
      unfold bind, get, modify, ret. intros [= <- <-]. by exists di2, di3, di4, di5.
    + unfold ret at 1. unfold bind at 1.
      destruct (Add "uploaded" _ 1 di3) as [[[] di5]|] eqn:H5; [|done].
      unfold bind, get, modify, ret. intros [= <- <-]. by exists di2, di3, di3, di5.
Qed.

(** What [Upload] does to the counters when it has its token. *)
Lemma Upload_counters dbg di err di' :
  Upload dbg di = Some (err, di') → Acquire (env di) = None →
  ∀ metric label, metric ≠ "uploadAttempts" →
    counter di' metric label =
      (counter di metric label +
       (if decide ((metric, label) = ("uploadRequests", "")) then 1 else 0) +
       (if decide ((metric, label) = ("uploadInflight", "")) then 1 else 0) +
       (if decide ((metric, label) = ("uploaded", if nonnil err then lvFail else lvSuccess))
        then 1 else 0) +
       (if decide ((metric, label) = ("uploaded", lvShared))
        then (if sharedFlight (env di) (BuildID dbg) then 1 else 0) else 0))%Z.
Proof.
  intros Hrun Hacq metric label Hne.
  destruct (Upload_steps _ _ _ _ Hrun) as (di1 & H1 & Hcase). rewrite Hacq in Hcase.
  destruct Hcase as (di2 & di3 & di4 & di5 & H2 & H3 & H4 & H5 & ->).
  change (counter (set_finishing _ di5) metric label) with (counter di5 metric label).
  rewrite (counter_Add _ _ _ _ _ _ _ _ H5).
  assert (Hc3 : counter di3 metric label = counter di2 metric label).
  { destruct (uploadFlight (env di) (BuildID dbg)) as [r|].
    - by destruct H3 as [_ ->].
    - apply (metricsExcept_counter ["uploadAttempts"]).
      + by apply (upload_metrics dbg di2 err di3).
      + by intros ?%list_elem_of_singleton. }
  assert (Hc4 : counter di4 metric label =
                (counter di3 metric label +
                 (if decide ((metric, label) = ("uploaded", lvShared))
                  then (if sharedFlight (env di) (BuildID dbg) then 1 else 0) else 0))%Z).
  { destruct (sharedFlight (env di) (BuildID dbg)).
    - by rewrite (counter_Add _ _ _ _ _ _ _ _ H4).
    - subst di4. case_decide; lia. }
  rewrite Hc4, Hc3, (counter_Add _ _ _ _ _ _ _ _ H2), (counter_Add _ _ _ _ _ _ _ _ H1).
  repeat case_decide; try done; try lia; congruence.
Qed.

Lemma Upload_counts_request dbg di err di' :
  Upload dbg di = Some (err, di') →
  counter di' "uploadRequests" "" = (counter di "uploadRequests" "" + 1)%Z.
Proof.
  intros Hrun. destruct (Acquire (env di)) as [e|] eqn:Hacq.
  - destruct (Upload_steps _ _ _ _ Hrun) as (di1 & H1 & Hcase). rewrite Hacq in Hcase.
    destruct Hcase as [_ ->]. rewrite (counter_Add _ _ _ _ _ _ _ _ H1).
    repeat case_decide; try done; lia.
  - rewrite (Upload_counters _ _ _ _ Hrun Hacq) by done.
    destruct err; repeat case_decide; try done; lia.
Qed.

(** A caller that joins a flight makes no call to the backend. *)
Lemma Upload_joined dbg di err di' r :
  Upload dbg di = Some (err, di') → Acquire (env di) = None →
  uploadFlight (env di) (BuildID dbg) = Some r →
  err = r ∧ calls di' = calls di.
Proof.
  intros Hrun Hacq Hflight.
  destruct (Upload_steps _ _ _ _ Hrun) as (di1 & H1 & Hcase). rewrite Hacq in Hcase.
  destruct Hcase as (di2 & di3 & di4 & di5 & H2 & H3 & H4 & H5 & ->).
  rewrite Hflight in H3. destruct H3 as [-> ->]. split; [done|].
  unfold sharedFlight in H4. rewrite Hflight in H4. simpl in *.
  destruct (Add_frame _ _ _ _ _ _ H5) as (_ & -> & _).
  destruct (Add_frame _ _ _ _ _ _ H4) as (_ & -> & _).
  destruct (Add_frame _ _ _ _ _ _ H2) as (_ & -> & _).
  by destruct (Add_frame _ _ _ _ _ _ H1) as (_ & -> & _).
Qed.



Import EnsureSpec.

Lemma extract_metrics buildID src : tracks (metricsExcept findMetrics) (extract buildID src).
Proof. unfold extract, findMetrics. repeat metrics_step. Qed.

Lemma ExtractOrFind_metrics root src :
  tracks (metricsExcept findMetrics) (ExtractOrFind root src).
Proof.
  unfold ExtractOrFind, Extract, singleflight_Do.
  repeat first [ apply extract_metrics | unfold findMetrics; metrics_step ].
Qed.

Lemma Upload_metrics dbg : tracks (metricsExcept uploadMetrics) (Upload dbg).
Proof.
  unfold Upload, singleflight_Do, upload, hashOf, uploadFile, uploadViaGRPC,
    uploadViaSignedURL, uploadMetrics.
  repeat first [ apply shouldInitiate_metrics | metrics_step ].
Qed.

(** The steps of [EnsureUploaded] after the check of the cache. *)
Lemma EnsureUploaded_steps root src di err src' di' :
  EnsureUploaded root src di = Some ((err, src'), di') →
  ∃ should di1, shouldInitiate (BuildID src) (Path src) di = Some (should, di1) ∧
    if should then
      ∃ di2 label,
        Add "ensureUploadedRequests" label 1 di2 = Some (tt, di') ∧
        label = (if nonnil err then lvFail else lvSuccess) ∧
        match DebugFile src with
        | Some dbg =>
            src' = src ∧
            ∃ uerr di3, Upload dbg di1 = Some (uerr, di3) ∧
              match uerr with
              | Some e => err = Some e ∧ Add "ensureUploadedErrors" lvUpload 1 di3 = Some (tt, di2)
              | None => err = None ∧ di2 = di3
              end
        | None =>
            ∃ dbg eerr di3, ExtractOrFind root src di1 = Some ((dbg, eerr), di3) ∧
              match eerr with
              | Some e =>
                  err = Some e ∧ src' = src ∧
                  Add "ensureUploadedErrors" lvExtractOrFind 1 di3 = Some (tt, di2)
              | None =>
                  ∃ d uerr di4, dbg = Some d ∧ src' = set_DebugFile (Some d) src ∧
                    Upload d di3 = Some (uerr, di4) ∧
                    match uerr with
                    | Some e =>
                        err = Some e ∧ Add "ensureUploadedErrors" lvUpload 1 di4 = Some (tt, di2)
                    | None => err = None ∧ di2 = di4
                    end
              end
        end
    else err = None ∧ src' = src ∧ Add "ensureUploadedRequests" lvShared 1 di1 = Some (tt, di').
Proof.
  unfold EnsureUploaded, bind, ret.
  destruct (shouldInitiate _ _ di) as [[should di1]|] eqn:Hshould; [|done].
  intros Hrun. exists should, di1. split; [done|]. destruct should; simpl in Hrun.
  2:{ by injection Hrun as <- <- <-. }
  destruct (DebugFile src) as [dbg|].
  - destruct (Upload dbg di1) as [[[e|] di3]|] eqn:Hup; [| |done];
      injection Hrun as <- <- <-; eexists _, _; (split; [reflexivity|]);
      (split; [reflexivity|]); (split; [reflexivity|]); eexists _, _; (split; [reflexivity|]);
      by split.
  - destruct (ExtractOrFind root src di1) as [[[dbg eerr] di3]|] eqn:Hex; [|done].
    destruct eerr as [e|].
    + injection Hrun as <- <- <-. eexists _, _. split; [reflexivity|]. split; [reflexivity|].
      eexists _, _, _. split; [reflexivity|]. by split_and!.
    + destruct dbg as [d|]; [|done].
      destruct (Upload d di3) as [[[e|] di4]|] eqn:Hup; [| |done];
        injection Hrun as <- <- <-; eexists _, _; (split; [reflexivity|]);
        (split; [reflexivity|]); eexists _, _, _; (split; [reflexivity|]);
        eexists _, _, _; (split; [reflexivity|]); (split; [reflexivity|]);
        (split; [exact Hup|]); by split.
Qed.

Lemma shouldInitiate_counter buildID filepath di r di' metric label :
  shouldInitiate buildID filepath di = Some (r, di') →
  counter di' metric label = counter di metric label.
Proof.
  intros Hrun. apply (metricsExcept_counter []); [|by apply not_elem_of_nil].
  by apply (shouldInitiate_metrics [] buildID filepath di r di').
Qed.

Lemma ExtractOrFind_counter root src di r di' metric label :
  ExtractOrFind root src di = Some (r, di') → metric ∉ findMetrics →
  counter di' metric label = counter di metric label.
Proof.
  intros Hrun Hn. apply (metricsExcept_counter findMetrics); [|done].
  by apply (ExtractOrFind_metrics root src di r di').
Qed.

Lemma Upload_counter dbg di r di' metric label :
  Upload dbg di = Some (r, di') → metric ∉ uploadMetrics →
  counter di' metric label = counter di metric label.
Proof.
  intros Hrun Hn. apply (metricsExcept_counter uploadMetrics); [|done].
  by apply (Upload_metrics dbg di r di').
Qed.

Lemma ensureUploaded_not_counted metric :
  metric = "ensureUploadedRequests" ∨ metric = "ensureUploadedErrors" →
  (metric ∉ findMetrics) ∧ (metric ∉ uploadMetrics).
Proof. unfold findMetrics, uploadMetrics. intros [-> | ->]; split; not_in_names. Qed.

(** X18 — every [EnsureUploaded] that returns is counted exactly once in
    [ensureUploadedRequests]: as [shared] when its check says that the
    build ID needs no upload, and it then returns nil; otherwise as
    [fail] or [success] by the error it returns.  A failure is counted
    once more in [ensureUploadedErrors], under the stage that failed:
    [extract_or_find] when [ExtractOrFind] returns the error, [upload]
    when [Upload] returns it; a success is not counted there. *)
Theorem EnsureUploaded_counts_one_outcome root src di err src' di' :
  EnsureUploaded root src di = Some ((err, src'), di') →
  ∃ should di1 stage,
    shouldInitiate (BuildID src) (Path src) di = Some (should, di1) ∧
    (∀ l, counter di' "ensureUploadedRequests" l =
          (counter di "ensureUploadedRequests" l +
           (if decide (l = if should then (if nonnil err then lvFail else lvSuccess)
                           else lvShared)
            then 1 else 0))%Z) ∧
    (∀ l, counter di' "ensureUploadedErrors" l =
          (counter di "ensureUploadedErrors" l + (if decide (Some l = stage) then 1 else 0))%Z) ∧
    if should then
      match DebugFile src with
      | Some dbg =>
          ∃ di2, Upload dbg di1 = Some (err, di2) ∧
                 stage = (if nonnil err then Some lvUpload else None)
      | None =>
          ∃ dbg eerr di2, ExtractOrFind root src di1 = Some ((dbg, eerr), di2) ∧
            match eerr with
            | Some e => err = Some e ∧ stage = Some lvExtractOrFind
            | None =>
                ∃ d di3, dbg = Some d ∧ Upload d di2 = Some (err, di3) ∧
                         stage = (if nonnil err then Some lvUpload else None)
            end
      end
    else err = None ∧ stage = None.
Proof.
  intros Hrun.
  destruct (EnsureUploaded_steps _ _ _ _ _ _ Hrun) as (should & di1 & Hshould & Hsteps).
  pose proof (ensureUploaded_not_counted "ensureUploadedRequests" ltac:(by left))
    as [Hreq1 Hreq2].
  pose proof (ensureUploaded_not_counted "ensureUploadedErrors" ltac:(by right))
    as [Herr1 Herr2].
  assert (H1 : ∀ metric l, counter di1 metric l = counter di metric l).
  { intros metric l. by eapply shouldInitiate_counter. }
  exists should, di1. destruct should.
  2:{ destruct Hsteps as (-> & -> & Hadd). exists None. split_and!; try done.
      - intros l. rewrite (counter_Add _ _ _ _ _ _ _ _ Hadd), H1.
        repeat case_decide; try done; congruence.
      - intros l. rewrite (counter_Add _ _ _ _ _ _ _ _ Hadd), H1.
        repeat case_decide; try done; lia. }
  destruct Hsteps as (di2 & label & Hadd & -> & Hsteps).
  assert (Hgoal : ∀ stage (P : Prop), P →
    (∀ l, counter di2 "ensureUploadedRequests" l = counter di "ensureUploadedRequests" l) →
    (∀ l, counter di2 "ensureUploadedErrors" l =
          (counter di "ensureUploadedErrors" l + (if decide (Some l = stage) then 1 else 0))%Z) →
    (∀ l, counter di' "ensureUploadedRequests" l =
          (counter di "ensureUploadedRequests" l +
           (if decide (l = if nonnil err then lvFail else lvSuccess) then 1 else 0))%Z) ∧
    (∀ l, counter di' "ensureUploadedErrors" l =
          (counter di "ensureUploadedErrors" l + (if decide (Some l = stage) then 1 else 0))%Z) ∧
    P).
  { intros stage P HP Hreq Herr. split_and!; [| |done].
    - intros l. rewrite (counter_Add _ _ _ _ _ _ _ _ Hadd), Hreq.
      repeat case_decide; try done; congruence.
    - intros l. rewrite (counter_Add _ _ _ _ _ _ _ _ Hadd), Herr.
      repeat case_decide; try done; lia. }
  destruct (DebugFile src) as [dbg|].
  - destruct Hsteps as (-> & uerr & di3 & Hup & Hcase).
    destruct uerr as [e|]; destruct Hcase as [-> Hdi2].
    + exists (Some lvUpload). split; [done|]. apply Hgoal; [by exists di3| |].
      * intros l. rewrite (counter_Add _ _ _ _ _ _ _ _ Hdi2), (Upload_counter _ _ _ _ _ _ Hup), H1 by done.
        repeat case_decide; try done; lia.
      * intros l. rewrite (counter_Add _ _ _ _ _ _ _ _ Hdi2), (Upload_counter _ _ _ _ _ _ Hup), H1 by done.
        repeat case_decide; try done; congruence.
    + subst di2. exists None. split; [done|]. apply Hgoal; [by exists di3| |].
      * intros l. by rewrite (Upload_counter _ _ _ _ _ _ Hup), H1.
      * intros l. rewrite (Upload_counter _ _ _ _ _ _ Hup), H1 by done.
        repeat case_decide; try done; lia.
  - destruct Hsteps as (dbg & eerr & di3 & Hex & Hcase).
    destruct eerr as [e|].
    + destruct Hcase as (-> & -> & Hdi2).
      exists (Some lvExtractOrFind). split; [done|].
      apply Hgoal; [by exists dbg, (Some e), di3| |].
      * intros l. rewrite (counter_Add _ _ _ _ _ _ _ _ Hdi2), (ExtractOrFind_counter _ _ _ _ _ _ _ Hex), H1 by done.
        repeat case_decide; try done; lia.
      * intros l. rewrite (counter_Add _ _ _ _ _ _ _ _ Hdi2), (ExtractOrFind_counter _ _ _ _ _ _ _ Hex), H1 by done.
        repeat case_decide; try done; congruence.
    + destruct Hcase as (d & uerr & di4 & -> & -> & Hup & Hcase).
      destruct uerr as [e|]; destruct Hcase as [-> Hdi2].
      * exists (Some lvUpload). split; [done|].
        apply Hgoal; [exists (Some d), None, di3; split; [done|]; by exists d, di4| |].
        -- intros l. rewrite (counter_Add _ _ _ _ _ _ _ _ Hdi2), (Upload_counter _ _ _ _ _ _ Hup),
             (ExtractOrFind_counter _ _ _ _ _ _ _ Hex), H1 by done.
           repeat case_decide; try done; lia.
        -- intros l. rewrite (counter_Add _ _ _ _ _ _ _ _ Hdi2), (Upload_counter _ _ _ _ _ _ Hup),
             (ExtractOrFind_counter _ _ _ _ _ _ _ Hex), H1 by done.
           repeat case_decide; try done; congruence.
      * subst di2. exists None. split; [done|].
        apply Hgoal; [exists (Some d), None, di3; split; [done|]; by exists d, di4| |].
        -- intros l. by rewrite (Upload_counter _ _ _ _ _ _ Hup),
             (ExtractOrFind_counter _ _ _ _ _ _ _ Hex), H1.
        -- intros l. rewrite (Upload_counter _ _ _ _ _ _ Hup),
             (ExtractOrFind_counter _ _ _ _ _ _ _ Hex), H1 by done.
           repeat case_decide; try done; lia.
Qed.

(** ** Returning *)

Lemma shouldInitiate_returns buildID filepath di :
  ∃ r di', shouldInitiate buildID filepath di = Some (r, di').
Proof.
  unfold shouldInitiate, bind, get, modify, ret.
  destruct (burrow.GetIfPresent _ _ _) as [v cache].
  destruct v; simpl; [by eexists _, _|].
  destruct (ShouldInitiateUpload _ _ _) as [resp [e|]]; simpl; [by eexists _, _|].
  destruct resp; simpl; by eexists _, _.
Qed.

Lemma hashOf_returns dbg di : ∃ r di', hashOf dbg di = Some (r, di').
Proof.
  unfold hashOf, bind, get, modify, ret.
  destruct (burrow.GetIfPresent _ _ _) as [v cache].
  destruct v; simpl; [by eexists _, _|].
  destruct (Reader _ _) as [r [e|]]; [by eexists _, _|].
  destruct (hash_Reader _ _) as [h [e|]]; by eexists _, _.
Qed.

Lemma uploadFile_returns uploadInstructions r size di :
  ∃ err di', uploadFile (Some uploadInstructions) r size di = Some (err, di').
Proof.
  unfold uploadFile, uploadViaGRPC, uploadViaSignedURL, bind, get, modify, ret.
  destruct (UploadStrategy_ uploadInstructions); try by eexists _, _.
  destruct (http_NewRequest _ _); [by eexists _, _|].
  destruct (http_Do _ _ _ _ _) as [[StatusCode data] [e|]]; simpl; [by eexists _, _|].
  destruct (negb _); by eexists _, _.
Qed.

Lemma upload_returns dbg di :
  (∀ calls buildID h size,
     InitiateUpload (debuginfoClient di) calls buildID h size ≠ (None, None)) →
  ∃ err di', upload dbg di = Some (err, di').
Proof.
  intros Hinit. unfold upload. unfold bind at 1.
  destruct (shouldInitiate_returns (BuildID dbg) (Path dbg) di) as (should & di1 & Hshould).
  rewrite Hshould. pose proof (shouldInitiate_evolves _ _ _ _ _ Hshould) as He1.
  destruct should; simpl; [|by eexists _, _].
  unfold bind at 1, Add, modify. unfold bind at 1.
  destruct (hashOf_returns dbg (set_metrics
    (λ m, <[("uploadAttempts", ""):=(default 0 (m !! ("uploadAttempts", "")) + 1)%Z]> m) di1))
    as ([h herr] & di2 & Hhash).
  rewrite Hhash. pose proof (hashOf_evolves _ _ _ _ Hhash) as He2.
  destruct herr as [herr|]; [by eexists _, _|].
  unfold bind at 1, get.
  destruct (InitiateUpload _ _ _ _ _) as [initiateResp ierr] eqn:Hi.
  unfold bind at 1, modify.
  destruct ierr as [ierr|].
  { destruct (status.FromError ierr) as [code|]; [destruct (codes.eqb _ _)|]; by eexists _, _. }
  destruct initiateResp as [uploadInstructions|].
  2:{ assert (Hc : debuginfoClient di2 = debuginfoClient di).
      { rewrite (evolves_client _ _ He2). simpl. apply (evolves_client _ _ He1). }
      rewrite Hc in Hi. by apply Hinit in Hi. }
  unfold bind at 1, get.
  destruct (Reader _ _) as [r [rerr|]]; [by eexists _, _|].
  unfold bind at 1.
  destruct (uploadFile_returns uploadInstructions r (Size dbg)
              (issue (InitiateUploadCall (BuildID dbg) h (Size dbg)) di2))
    as (uerr & di4 & Hfile).
  rewrite Hfile. destruct uerr as [uerr|]; [by eexists _, _|].
  unfold bind, get, modify. destruct (MarkUploadFinished _ _ _ _); by eexists _, _.
Qed.

Lemma Upload_returns dbg di :
  (∀ calls buildID h size,
     InitiateUpload (debuginfoClient di) calls buildID h size ≠ (None, None)) →
  ∃ err di', Upload dbg di = Some (err, di').
Proof.
  intros Hinit. unfold Upload. unfold bind at 1, Add at 1, modify. unfold bind at 1, get.
  destruct (Acquire _); [by eexists _, _|].
  unfold bind at 1, Add at 1, modify. unfold bind at 1, singleflight_Do.
  destruct (uploadFlight _ _) as [r|].
  { unfold ret at 1. destruct r; by eexists _, _. }
  unfold bind at 1.
  edestruct (upload_returns dbg) as (err & di3 & Hupload); [|rewrite Hupload].
  { exact Hinit. }
  unfold ret at 1. destruct (uploadDups _ _), err; by eexists _, _.
Qed.

Lemma ExtractOrFind_returns root src di :
  (∀ path, Pool_Open (env di) path ≠ (None, None)) →
  (∀ file, Pool_NewFile (env di) file ≠ (None, None)) →
  (∀ buildID, extractFlight (env di) buildID ≠ Some (None, None)) →
  ∃ dbg err di', ExtractOrFind root src di = Some ((dbg, err), di') ∧
    (err = None → dbg ≠ None).
Proof.
  intros Hopen Hnew Hflight.
  assert (Hextract : ∀ di0, env di0 = env di →
    ∃ dbg err di', Extract src di0 = Some ((dbg, err), di') ∧ (err = None → dbg ≠ None)).
  { intros di0 Henv. unfold Extract, bind, get, ret. rewrite Henv.
    destruct (ELF _ _) as [ef [e|]]; [by eexists _, _, _|].
    destruct (stripDebuginfos di0 && hasTextSection ef); [|by eexists _, _, _].
    unfold singleflight_Do.
    destruct (extractFlight _ _) as [[val [e|]]|] eqn:Hf0.
    { by eexists _, _, _. }
    { eexists _, _, _. split; [reflexivity|]. intros _ ->. by apply (Hflight (BuildID src)). }
    unfold extract, bind, get, ret, extract_body. rewrite Henv.
    destruct (os_MkdirAll _ _); [by eexists _, _, _|].
    destruct (os_CreateTemp _ _ _) as [f [e|]]; [by eexists _, _, _|].
    destruct (Reader _ _) as [r [e|]]; [by eexists _, _, _|].
    destruct (Extractor_Extract _ _ _); [by eexists _, _, _|].
    destruct (Seek _ _); [by eexists _, _, _|].
    destruct (Pool_NewFile _ _) as [dbg [e|]] eqn:Hf;
      [destruct (extractDups _ _); by eexists _, _, _|].
    destruct (extractDups _ _);
      (eexists _, _, _; split; [reflexivity|]; intros _ ->; by apply (Hnew f)). }
  assert (Hrest : ∀ di0, env di0 = env di →
    ∃ dbg err di', bind (Extract src) (λ '(dbgInfoFile, err),
        match err with
        | Some err => ret (None, Some (wrapError "failed to strip debuginfo: " err))
        | None => ret (dbgInfoFile, None)
        end) di0 = Some ((dbg, err), di') ∧ (err = None → dbg ≠ None)).
  { intros di0 Henv. destruct (Hextract di0 Henv) as (dbg & err & di' & Hrun & Hsome).
    unfold bind. rewrite Hrun. destruct err; eexists _, _, _; (split; [reflexivity|done]). }
  unfold ExtractOrFind. unfold bind at 1, get.
  destruct (Finder_Find _ _ _) as [dbgInfoPath [e|]]; simpl.
  { unfold bind at 1. unfold bind at 1, Add, modify, ret. by apply Hrest. }
  destruct (String.eqb dbgInfoPath ""); simpl.
  { unfold bind at 1. unfold bind at 1, Add, modify, ret. by apply Hrest. }
  unfold bind at 1. unfold bind at 1, Add, modify.
  destruct (Pool_Open _ _) as [dbgInfoFile [e|]] eqn:Ho; simpl.
  { by apply Hrest. }
  unfold ret. eexists _, _, _. split; [reflexivity|]. intros _ ->. by apply (Hopen dbgInfoPath).
Qed.

(** X19 — [EnsureUploaded] returns, with or without an error, whenever
    the collaborators keep to their contracts: [InitiateUpload] answers
    with instructions or with an error, the object-file pool returns a
    file or an error, and so does an extraction in flight that the caller
    joins. *)
Theorem EnsureUploaded_returns root src di :
  (∀ calls buildID h size,
     InitiateUpload (debuginfoClient di) calls buildID h size ≠ (None, None)) →
  (∀ path, Pool_Open (env di) path ≠ (None, None)) →
  (∀ file, Pool_NewFile (env di) file ≠ (None, None)) →
  (∀ buildID, extractFlight (env di) buildID ≠ Some (None, None)) →
  ∃ err src' di', EnsureUploaded root src di = Some ((err, src'), di').
Proof.
  intros Hinit Hopen Hnew Hflight. unfold EnsureUploaded. unfold bind at 1.
  destruct (shouldInitiate_returns (BuildID src) (Path src) di) as (should & di1 & Hshould).
  rewrite Hshould. pose proof (shouldInitiate_evolves _ _ _ _ _ Hshould) as He1.
  destruct should; simpl; [|by eexists _, _, _].
  assert (Hup : ∀ dbg di0 (src0 : ObjectFile), evolves di di0 →
    ∃ r di', bind (Upload dbg) (λ err,
        match err with
        | Some err => bind (Add "ensureUploadedErrors" lvUpload 1) (λ _, ret (Some err, src0))
        | None => ret (None, src0)
        end) di0 = Some (r, di')).
  { intros dbg di0 src0 He. destruct (Upload_returns dbg di0) as (err & di' & Hrun).
    { intros cs b h s. rewrite (evolves_client _ _ He). apply Hinit. }
    unfold bind at 1. rewrite Hrun. destruct err; by eexists _, _. }
  assert (Hfin : ∀ (m : M Manager (option error * ObjectFile)) di0,
    (∃ r di', m di0 = Some (r, di')) →
    ∃ err src' di',
      bind m (λ '(err, src),
        bind (Add "ensureUploadedRequests" (if nonnil err then lvFail else lvSuccess) 1)
             (λ _, ret (err, src))) di0 = Some ((err, src'), di')).
  { intros m di0 ([err src'] & di' & Hrun). unfold bind at 1. rewrite Hrun.
    by eexists _, _, _. }
  apply Hfin.
  destruct (DebugFile src) as [dbg|].
  - unfold bind at 1, ret at 1. by apply Hup.
  - unfold bind at 1. unfold bind at 1.
    destruct (ExtractOrFind_returns root src di1) as (dbg & err & di2 & Hex & Hsome).
    { intros path. rewrite (evolves_env _ _ He1). apply Hopen. }
    { intros file. rewrite (evolves_env _ _ He1). apply Hnew. }
    { intros buildID. rewrite (evolves_env _ _ He1). apply Hflight. }
    rewrite Hex. pose proof (ExtractOrFind_evolves _ _ _ _ _ Hex) as He2.
    destruct err as [err|].
    + by eexists _, _.
    + unfold ret at 1. destruct dbg as [dbg|]; [|by destruct Hsome].
      apply Hup. by etrans.
Qed.

(** X19 on the manager of the scenario. *)
Lemma EnsureUploaded_returns_witness :
  ∃ err src' di',
    EnsureUploaded "/" UploadScenario.src UploadScenario.manager = Some ((err, src'), di').
Proof.
  apply (EnsureUploaded_returns "/" UploadScenario.src UploadScenario.manager).
  - intros cs b h s. discriminate.
  - intros path. discriminate.
  - intros file. discriminate.
  - intros buildID. discriminate.
Defined.

(** ** The debuginfo file of an object file *)

(** X20 — [EnsureUploaded] assigns [src.DebugFile] at most once and
    changes nothing else of [src].  When the build ID needs no upload,
    [src] is left as it is.  Otherwise a debuginfo file that is set
    already is uploaded as it is: nothing is searched and nothing is
    extracted.  One that is not set is set exactly when [ExtractOrFind]
    succeeds, to the file it returns, also when the upload fails
    afterwards; when [ExtractOrFind] fails, its error is returned and no
    upload is requested. *)
Theorem EnsureUploaded_assigns_DebugFile_once root src di err src' di' :
  EnsureUploaded root src di = Some ((err, src'), di') →
  (∃ dbg, src' = set_DebugFile dbg src) ∧
  ∃ should di1,
    shouldInitiate (BuildID src) (Path src) di = Some (should, di1) ∧
    if should then
      match DebugFile src with
      | Some dbg =>
          src' = src ∧
          (∀ label, counter di' "found" label = counter di "found" label) ∧
          (∀ label, counter di' "extracted" label = counter di "extracted" label)
      | None =>
          ∃ dbg eerr di2, ExtractOrFind root src di1 = Some ((dbg, eerr), di2) ∧
            match eerr with
            | Some e =>
                err = Some e ∧ src' = src ∧
                counter di' "uploadRequests" "" = counter di "uploadRequests" ""
            | None =>
                dbg ≠ None ∧ DebugFile src' = dbg ∧
                counter di' "uploadRequests" "" = (counter di "uploadRequests" "" + 1)%Z
            end
      end
    else err = None ∧ src' = src.
Proof.
  intros Hrun.
  destruct (EnsureUploaded_steps _ _ _ _ _ _ Hrun) as (should & di1 & Hshould & Hsteps).
  assert (H1 : ∀ metric l, counter di1 metric l = counter di metric l).
  { intros metric l. by eapply shouldInitiate_counter. }
  assert (Hself : src = set_DebugFile (DebugFile src) src) by (by destruct src).
  destruct should.
  2:{ destruct Hsteps as (-> & -> & Hadd). split; [by exists (DebugFile src)|].
      by exists false, di1. }
  destruct Hsteps as (di2 & label & Hadd & -> & Hsteps).
  destruct (DebugFile src) as [dbg|] eqn:Hdbg.
  - destruct Hsteps as (-> & uerr & di3 & Hup & Hcase).
    split; [by exists (Some dbg)|]. exists true, di1. split; [done|].
    assert (Hc : ∀ metric l, metric = "found" ∨ metric = "extracted" →
              counter di2 metric l = counter di metric l).
    { intros metric l Hm.
      assert (Hn : metric ∉ uploadMetrics).
      { unfold uploadMetrics. destruct Hm as [-> | ->]; not_in_names. }
      destruct uerr as [e|]; destruct Hcase as [_ Hdi2].
      - rewrite (counter_Add _ _ _ _ _ _ _ _ Hdi2), (Upload_counter _ _ _ _ _ _ Hup), H1 by done.
        destruct Hm as [-> | ->]; repeat case_decide; try done; lia.
      - subst di2. by rewrite (Upload_counter _ _ _ _ _ _ Hup), H1. }
    split_and!; try done; intros l; rewrite (counter_Add _ _ _ _ _ _ _ _ Hadd), Hc by auto;
      repeat case_decide; try done; lia.
  - destruct Hsteps as (dbg & eerr & di3 & Hex & Hcase).
    assert (Hreq3 : counter di3 "uploadRequests" "" = counter di "uploadRequests" "").
    { rewrite (ExtractOrFind_counter _ _ _ _ _ _ _ Hex), H1; [done|].
      unfold findMetrics. not_in_names. }
    destruct eerr as [e|].
    + destruct Hcase as (-> & -> & Hdi2). split; [by exists None|].
      exists true, di1. split; [done|].
      exists dbg, (Some e), di3. split_and!; try done.
      rewrite (counter_Add _ _ _ _ _ _ _ _ Hadd), (counter_Add _ _ _ _ _ _ _ _ Hdi2), Hreq3.
      repeat case_decide; try done; lia.
    + destruct Hcase as (d & uerr & di4 & -> & -> & Hup & Hcase).
      split; [by exists (Some d)|].
      exists true, di1. split; [done|].
      exists (Some d), None, di3. split_and!; try done.
      assert (Hreq4 : counter di4 "uploadRequests" "" = (counter di "uploadRequests" "" + 1)%Z).
      { by rewrite (Upload_counts_request _ _ _ _ Hup), Hreq3. }
      destruct uerr as [e|]; destruct Hcase as [_ Hdi2].
      * rewrite (counter_Add _ _ _ _ _ _ _ _ Hadd), (counter_Add _ _ _ _ _ _ _ _ Hdi2), Hreq4.
        repeat case_decide; try done; lia.
      * subst di2. rewrite (counter_Add _ _ _ _ _ _ _ _ Hadd), Hreq4.
        repeat case_decide; try done; lia.
Qed.

(** ** The hash cache *)

Lemma GetIfPresent_fresh_access {K V} `{Countable K} d (entries : gmap K (burrow.entry V))
    (k : K) (en : burrow.entry V) now :
  entries !! k = Some en → (now - burrow.accessTime en ≤ d)%Z →
  (burrow.GetIfPresent now (burrow.LocalCache (burrow.ExpireAfterAccess d) entries) k).1 =
    Some (burrow.value en).
Proof.
  intros Hk Hd.
  assert (Hnot : burrow.isExpired (burrow.ExpireAfterAccess d) en now = false).
  { simpl. destruct (0 <? d)%Z; [|done]. simpl. apply Z.ltb_ge. lia. }
  unfold burrow.GetIfPresent. by rewrite Hk, Hnot.
Qed.

(** After [hashOf] has returned a hash, the cache holds it, accessed at
    the time of the call. *)
Lemma hashOf_entry dbg di h di1 d entries :
  hashCache di = burrow.LocalCache (burrow.ExpireAfterAccess d) entries →
  hashOf dbg di = Some ((h, None), di1) →
  ∃ entries1 en,
    hashCache di1 = burrow.LocalCache (burrow.ExpireAfterAccess d) entries1 ∧
    entries1 !! (BuildID dbg, time.Unix (Modtime dbg)) = Some en ∧
    burrow.value en = h ∧ burrow.accessTime en = clock di1.
Proof.
  intros Hcache. unfold hashOf, bind, get, modify, ret. rewrite Hcache.
  unfold burrow.GetIfPresent.
  destruct (entries !! _) as [en|] eqn:Hen.
  - destruct (burrow.isExpired _ en _) eqn:Hexp.
    + destruct (Reader _ _) as [r [e|]]; [done|].
      destruct (hash_Reader _ _) as [h' [e|]]; [done|].
      intros [= <- <-]. simpl. eexists _, _. split; [reflexivity|].
      by rewrite lookup_insert_eq.
    + intros [= <- <-]. simpl. eexists _, _. split; [reflexivity|].
      by rewrite lookup_insert_eq.
  - destruct (Reader _ _) as [r [e|]]; [done|].
    destruct (hash_Reader _ _) as [h' [e|]]; [done|].
    intros [= <- <-]. simpl. eexists _, _. split; [reflexivity|].
    by rewrite lookup_insert_eq.
Qed.

(** X21 — a hash that [hashOf] has computed or found is reused for as
    long as the entry is accessed within the expiry time of the cache:
    the next [hashOf] for a file with the same build ID and the same
    modification time in seconds returns that hash without reading the
    file, whatever the file is by then. *)
Theorem hashOf_reuses_cached_hash dbg di h di1 d entries :
  hashCache di = burrow.LocalCache (burrow.ExpireAfterAccess d) entries →
  hashOf dbg di = Some ((h, None), di1) →
  ∀ dbg' st,
    BuildID dbg' = BuildID dbg →
    time.Unix (Modtime dbg') = time.Unix (Modtime dbg) →
    hashCache st = hashCache di1 → (clock st - clock di1 ≤ d)%Z →
    ∃ st', hashOf dbg' st = Some ((h, None), st') ∧
           env st' = env st ∧ calls st' = calls st ∧ clock st' = clock st.
Proof.
  intros Hcache Hrun dbg' st Hid Hmod Hst Hclock.
  destruct (hashOf_entry _ _ _ _ _ _ Hcache Hrun) as (entries1 & en & Hc1 & Hen & Hv & Ha).
  pose proof (GetIfPresent_fresh_access d entries1 _ en (clock st) Hen) as Hget.
  rewrite Ha in Hget. specialize (Hget Hclock).
  unfold hashOf, bind, get, modify, ret. rewrite Hid, Hmod, Hst, Hc1.
  destruct (burrow.GetIfPresent _ _ _) as [v cache]. simpl in Hget. subst v.
  rewrite Hv. by eexists.
Qed.

(** X21 on the manager of the scenario: the first call computes the
    hash [5f1d7a]; every later call within five minutes finds it. *)
Lemma hashOf_reuses_cached_hash_witness :
  ∃ di1, hashOf UploadScenario.dbg UploadScenario.manager = Some (("5f1d7a", None), di1) ∧
    ∀ st, hashCache st = hashCache di1 → (clock st - clock di1 ≤ 5 * Minute)%Z →
      ∃ st', hashOf UploadScenario.dbg st = Some (("5f1d7a", None), st') ∧
             env st' = env st ∧ calls st' = calls st ∧ clock st' = clock st.
Proof.
  eexists. split; [reflexivity|]. intros st Hst Hclock.
  eapply (hashOf_reuses_cached_hash UploadScenario.dbg UploadScenario.manager);
    [reflexivity|reflexivity|reflexivity|reflexivity|exact Hst|exact Hclock].
Defined.


(** X18 on the manager of the scenario: the call goes on to upload and
    succeeds. *)
Lemma EnsureUploaded_counts_one_outcome_witness :
  ∃ src' di',
    EnsureUploaded "/" UploadScenario.src UploadScenario.manager = Some ((None, src'), di') ∧
    counter di' "ensureUploadedRequests" lvSuccess = 1%Z ∧
    counter di' "ensureUploadedRequests" lvShared = 0%Z ∧
    counter di' "ensureUploadedRequests" lvFail = 0%Z ∧
    ∀ l, counter di' "ensureUploadedErrors" l = 0%Z.
Proof.
  destruct (EnsureUploaded "/" UploadScenario.src UploadScenario.manager)
    as [[[err src'] di']|] eqn:Hrun.
  - assert (Herr : (λ r, r.1.1) <$> EnsureUploaded "/" UploadScenario.src UploadScenario.manager
                   = Some None) by (vm_compute; reflexivity).
    rewrite Hrun in Herr. injection Herr as ->.
    destruct (EnsureUploaded_counts_one_outcome "/" UploadScenario.src UploadScenario.manager
                None src' di' Hrun) as (should & di1 & stage & Hshould & Hreq & Herr & Hcase).
    assert (Hs : fst <$> shouldInitiate (BuildID UploadScenario.src) (Path UploadScenario.src)
                          UploadScenario.manager = Some true) by (vm_compute; reflexivity).
    rewrite Hshould in Hs. injection Hs as ->.
    assert (stage = None) as ->.
    { simpl in Hcase. destruct Hcase as (dbg & eerr & di2 & _ & Hcase).
      destruct eerr as [e|]; [by destruct Hcase|]. by destruct Hcase as (? & ? & _ & _ & ->). }
    exists src', di'. split; [reflexivity|].
    split; [exact (Hreq lvSuccess)|]. split; [exact (Hreq lvShared)|].
    split; [exact (Hreq lvFail)|]. intros l. rewrite Herr. reflexivity.
  - assert (Hret : nonnil (EnsureUploaded "/" UploadScenario.src UploadScenario.manager) = true)
      by (vm_compute; reflexivity).
    by rewrite Hrun in Hret.
Defined.

(** X20 on the manager of the scenario: the debuginfo file is the
    executable itself, which has no debuginfo installed and is not
    stripped by the extractor of the scenario. *)
Lemma EnsureUploaded_assigns_DebugFile_once_witness :
  ∃ src' di',
    EnsureUploaded "/" UploadScenario.src UploadScenario.manager = Some ((None, src'), di') ∧
    (∃ dbg, src' = set_DebugFile dbg UploadScenario.src) ∧
    DebugFile src' ≠ None.
Proof.
  destruct (EnsureUploaded "/" UploadScenario.src UploadScenario.manager)
    as [[[err src'] di']|] eqn:Hrun.
  - assert (Herr : (λ r, (r.1.1, nonnil (DebugFile r.1.2))) <$>
                     EnsureUploaded "/" UploadScenario.src UploadScenario.manager
                   = Some (None, true)) by (vm_compute; reflexivity).
    rewrite Hrun in Herr. injection Herr as -> Hdbg.
    destruct (EnsureUploaded_assigns_DebugFile_once "/" UploadScenario.src UploadScenario.manager
                None src' di' Hrun) as (Hsrc & _).
    exists src', di'. split; [reflexivity|]. split; [exact Hsrc|]. by destruct (DebugFile src').
  - assert (Hret : nonnil (EnsureUploaded "/" UploadScenario.src UploadScenario.manager) = true)
      by (vm_compute; reflexivity).
    by rewrite Hrun in Hret.
Defined.

Import RecheckSpec.

(** ** The second check of the backend *)

#[global] Instance sameBackend_refl : Reflexive sameBackend.
Proof. by intros di. Qed.

#[global] Instance sameBackend_trans : Transitive sameBackend.
Proof. intros d1 d2 d3 [] []. split; congruence. Qed.

Lemma Add_sameBackend metric label n : tracks sameBackend (Add metric label n).
Proof. apply tracks_modify. by intros di. Qed.

Lemma ExtractOrFind_sameBackend root src : tracks sameBackend (ExtractOrFind root src).
Proof.
  unfold ExtractOrFind, Extract, singleflight_Do, extract.
  repeat first [ apply Add_sameBackend | tracks_step ].
Qed.

(** After [shouldInitiate] has answered to go on, the cache has no entry
    for the build ID. *)
Lemma shouldInitiate_true_misses buildID filepath di di1 :
  shouldInitiate buildID filepath di = Some (true, di1) →
  calls di1 = calls di ++ [ShouldInitiateUploadCall buildID] ∧ misses di1 buildID.
Proof.
  intros Hrun. split; [by destruct (shouldInitiate_true _ _ _ _ Hrun)|].
  revert Hrun. unfold shouldInitiate, bind, get, modify, ret, misses.
  destruct (burrow.GetIfPresent _ _ _) as [v cache] eqn:Hget.
  assert (Hmiss : v = None → ∀ now, (burrow.GetIfPresent now cache buildID).1 = None).
  { intros -> now. unfold burrow.GetIfPresent in *.
    destruct (shouldInitiateCache di) as [|policy entries].
    - by injection Hget as <-.
    - destruct (entries !! buildID) as [en|] eqn:Hen.
      + destruct (burrow.isExpired _ en _); [|done].
        injection Hget as <-. by rewrite lookup_delete_eq.
      + injection Hget as <-. by rewrite Hen. }
  destruct v; simpl; [done|].
  destruct (ShouldInitiateUpload _ _ _) as [resp [e|]]; simpl.
  - intros [= <-]. simpl. by apply Hmiss.
  - destruct resp; simpl; [|done]. intros [= <-]. simpl. by apply Hmiss.
Qed.

(** On a miss, [shouldInitiate] asks the backend. *)
Lemma shouldInitiate_miss_asks buildID filepath di r di1 :
  misses di buildID →
  shouldInitiate buildID filepath di = Some (r, di1) →
  calls di1 = calls di ++ [ShouldInitiateUploadCall buildID].
Proof.
  intros Hmiss. specialize (Hmiss (clock di)).
  unfold shouldInitiate, bind, get, modify, ret.
  destruct (burrow.GetIfPresent _ _ _) as [v cache]. simpl in Hmiss. subst v. simpl.
  destruct (ShouldInitiateUpload _ _ _) as [resp [e|]]; simpl; [by intros [= <- <-]|].
  destruct resp; simpl; by intros [= <- <-].
Qed.

(** [upload] starts with [shouldInitiate] and only appends calls after
    it. *)
Lemma upload_starts_with_shouldInitiate dbg di err di' :
  upload dbg di = Some (err, di') →
  ∃ should di1, shouldInitiate (BuildID dbg) (Path dbg) di = Some (should, di1) ∧
                calls di1 `prefix_of` calls di'.
Proof.
  unfold upload. unfold bind at 1.
  destruct (shouldInitiate _ _ di) as [[should di1]|]; [|done].
  intros Hrest. exists should, di1. split; [done|].
  apply evolves_calls. revert Hrest.
  generalize di1 err di'.
  match goal with
  | |- ∀ s a s', ?k s = Some (a, s') → _ => change (tracks evolves k)
  end.
  repeat first [ apply hashOf_evolves | apply uploadFile_evolves | evolves_step ].
Qed.

Lemma Add_calls metric label n di a di' :
  Add metric label n di = Some (a, di') → calls di' = calls di.
Proof. intros H. by destruct (Add_frame _ _ _ _ _ _ H) as (_ & ? & _). Qed.

(** [Upload] of a file whose build ID the cache misses, with a token:
    a caller that starts the flight asks the backend first; one that
    joins a flight makes no call. *)
Lemma Upload_miss_asks dbg di err di' :
  Acquire (env di) = None → misses di (BuildID dbg) →
  Upload dbg di = Some (err, di') →
  match uploadFlight (env di) (BuildID dbg) with
  | None => ∃ rest, calls di' = calls di ++ ShouldInitiateUploadCall (BuildID dbg) :: rest
  | Some r => err = r ∧ calls di' = calls di
  end.
Proof.
  intros Hacq Hmiss Hrun.
  destruct (uploadFlight (env di) (BuildID dbg)) as [r|] eqn:Hflight.
  { by apply (Upload_joined dbg di err di' r). }
  destruct (Upload_steps _ _ _ _ Hrun) as (di1 & H1 & Hcase). rewrite Hacq, Hflight in Hcase.
  destruct Hcase as (di2 & di3 & di4 & di5 & H2 & H3 & H4 & H5 & ->).
  destruct (upload_starts_with_shouldInitiate _ _ _ _ H3) as (should & di1s & Hshould & Hpre).
  assert (Hmiss2 : misses di2 (BuildID dbg)).
  { intros now. specialize (Hmiss now).
    destruct (Add_frame _ _ _ _ _ _ H1) as (_ & _ & _ & _ & Hc1 & _).
    destruct (Add_frame _ _ _ _ _ _ H2) as (_ & _ & _ & _ & Hc2 & _).
    by rewrite Hc2, Hc1. }
  pose proof (shouldInitiate_miss_asks _ _ _ _ _ Hmiss2 Hshould) as Hcalls.
  rewrite (Add_calls _ _ _ _ _ _ H2), (Add_calls _ _ _ _ _ _ H1) in Hcalls.
  destruct Hpre as [rest Hrest].
  assert (Hc4 : calls di4 = calls di3).
  { destruct (sharedFlight _ _); [by eapply Add_calls|by subst]. }
  exists rest. simpl. rewrite (Add_calls _ _ _ _ _ _ H5), Hc4, Hrest, Hcalls.
  by rewrite <- app_assoc.
Qed.

(** [upload] of a build ID that the cache holds returns nil without a
    call. *)
Lemma upload_hit dbg st r st' :
  (burrow.GetIfPresent (clock st) (shouldInitiateCache st) (BuildID dbg)).1 = Some tt →
  upload dbg st = Some (r, st') → r = None ∧ calls st' = calls st.
Proof.
  intros Hhit. unfold upload, shouldInitiate, bind, get, modify, ret.
  destruct (burrow.GetIfPresent _ _ _) as [v cache]. simpl in Hhit. subst v. simpl.
  by intros [= <- <-].
Qed.

(** X22 — an [EnsureUploaded] that goes on to upload checks twice
    whether to initiate: once itself and once more in [upload].  When
    its own check says to go on, a debuginfo file with the build ID of
    the executable is at hand and the upload gets its token, then: a
    caller that starts the upload flight itself makes two
    [ShouldInitiateUpload] calls for the build ID before any other call;
    a caller that joins a flight in progress makes the first of them
    only and returns the error of the flight.  The second check reads
    the cache again: an [upload] that starts in a state whose cache holds
    the build ID, as another upload may have left it in between, returns
    nil without a call. *)
Theorem EnsureUploaded_asks_twice root src di err src' di' di1 dbg :
  EnsureUploaded root src di = Some ((err, src'), di') →
  shouldInitiate (BuildID src) (Path src) di = Some (true, di1) →
  DebugFile src' = Some dbg → BuildID dbg = BuildID src →
  Acquire (env di) = None →
  match uploadFlight (env di) (BuildID dbg) with
  | None =>
      ∃ rest,
        calls di' = calls di ++ ShouldInitiateUploadCall (BuildID src) ::
                                ShouldInitiateUploadCall (BuildID src) :: rest
  | Some r => err = r ∧ calls di' = calls di ++ [ShouldInitiateUploadCall (BuildID src)]
  end ∧
  ∀ st r st',
    (burrow.GetIfPresent (clock st) (shouldInitiateCache st) (BuildID dbg)).1 = Some tt →
    upload dbg st = Some (r, st') → r = None ∧ calls st' = calls st.
Proof.
  intros Hrun Hshould Hdbg Hid Hacq. split; [|by apply upload_hit].
  destruct (EnsureUploaded_steps _ _ _ _ _ _ Hrun) as (should & di1' & Hshould' & Hsteps).
  rewrite Hshould in Hshould'. injection Hshould' as <- <-.
  destruct (shouldInitiate_true_misses _ _ _ _ Hshould) as [Hcalls1 Hmiss1].
  pose proof (shouldInitiate_evolves _ _ _ _ _ Hshould) as He1.
  destruct Hsteps as (di2 & label & Hadd & _ & Hsteps).
  assert (Hgoal : ∀ di3 uerr di4,
    sameBackend di1 di3 → env di3 = env di →
    Upload dbg di3 = Some (uerr, di4) → calls di2 = calls di4 → err = uerr →
    match uploadFlight (env di) (BuildID dbg) with
    | None =>
        ∃ rest,
          calls di' = calls di ++ ShouldInitiateUploadCall (BuildID src) ::
                                  ShouldInitiateUploadCall (BuildID src) :: rest
    | Some r => err = r ∧ calls di' = calls di ++ [ShouldInitiateUploadCall (BuildID src)]
    end).
  { intros di3 uerr di4 [Hc3 Hcache3] Henv3 Hup Hc2 ->.
    pose proof (Upload_miss_asks dbg di3 uerr di4) as Hasks. rewrite Henv3 in Hasks.
    specialize (Hasks Hacq).
    destruct (uploadFlight (env di) (BuildID dbg)) as [r|].
    - destruct Hasks as [-> Hc4]; [|done|].
      { intros now. unfold misses in Hmiss1. rewrite Hid, Hcache3. apply Hmiss1. }
      split; [done|]. by rewrite (Add_calls _ _ _ _ _ _ Hadd), Hc2, Hc4, Hc3, Hcalls1.
    - destruct Hasks as [rest Hrest]; [|done|].
      { intros now. unfold misses in Hmiss1. rewrite Hid, Hcache3. apply Hmiss1. }
      exists rest. rewrite (Add_calls _ _ _ _ _ _ Hadd), Hc2, Hrest, Hc3, Hcalls1, Hid.
      by rewrite <- app_assoc. }
  destruct (DebugFile src) as [d|] eqn:Hsrc.
  - destruct Hsteps as (-> & uerr & di3 & Hup & Hcase).
    assert (d = dbg) as -> by congruence.
    apply (Hgoal di1 uerr di3); [done|apply (evolves_env _ _ He1)|done| |].
    + destruct uerr as [e|]; destruct Hcase as [_ Hdi2].
      * by rewrite (Add_calls _ _ _ _ _ _ Hdi2).
      * by subst.
    + by destruct uerr as [e|]; destruct Hcase as [-> _].
  - destruct Hsteps as (dbg0 & eerr & di3 & Hex & Hcase).
    destruct eerr as [e|].
    { destruct Hcase as (_ & -> & _). congruence. }
    destruct Hcase as (d & uerr & di4 & -> & -> & Hup & Hcase).
    simpl in Hdbg. injection Hdbg as ->.
    apply (Hgoal di3 uerr di4).
    + by apply (ExtractOrFind_sameBackend _ _ _ _ _ Hex).
    + rewrite (evolves_env _ _ (ExtractOrFind_evolves _ _ _ _ _ Hex)).
      apply (evolves_env _ _ He1).
    + done.
    + destruct uerr as [e|]; destruct Hcase as [_ Hdi2].
      * by rewrite (Add_calls _ _ _ _ _ _ Hdi2).
      * by subst.
    + by destruct uerr as [e|]; destruct Hcase as [-> _].
Qed.

(** X22 on the manager of the scenario, where no flight is in progress. *)
Lemma EnsureUploaded_asks_twice_witness :
  ∃ src' di' rest,
    EnsureUploaded "/" UploadScenario.src UploadScenario.manager = Some ((None, src'), di') ∧
    calls di' = calls UploadScenario.manager ++
                ShouldInitiateUploadCall "2d3a" :: ShouldInitiateUploadCall "2d3a" :: rest.
Proof.
  destruct (EnsureUploaded "/" UploadScenario.src UploadScenario.manager)
    as [[[err src'] di']|] eqn:Hrun.
  - assert (Herr : (λ r, (r.1.1, BuildID <$> DebugFile r.1.2)) <$>
                     EnsureUploaded "/" UploadScenario.src UploadScenario.manager
                   = Some (None, Some "2d3a")) by (vm_compute; reflexivity).
    rewrite Hrun in Herr. injection Herr as -> Hdbg.
    destruct (DebugFile src') as [dbg|] eqn:Hsrc'; [|done]. injection Hdbg as Hid.
    destruct (shouldInitiate "2d3a" "/usr/bin/app" UploadScenario.manager)
      as [[should di1]|] eqn:Hshould; [|by vm_compute in Hshould].
    assert (Hs : fst <$> shouldInitiate "2d3a" "/usr/bin/app" UploadScenario.manager = Some true)
      by (vm_compute; reflexivity).
    rewrite Hshould in Hs. injection Hs as ->.
    destruct (EnsureUploaded_asks_twice "/" UploadScenario.src UploadScenario.manager
                None src' di' di1 dbg Hrun Hshould Hsrc' Hid eq_refl) as [[rest Hcalls] _].
    by exists src', di', rest.
  - assert (Hret : nonnil (EnsureUploaded "/" UploadScenario.src UploadScenario.manager) = true)
      by (vm_compute; reflexivity).
    by rewrite Hrun in Hret.
Defined.

Import PolicySpec.

(** ** The caches keep their policy *)

#[global] Instance samePolicies_refl : Reflexive samePolicies.
Proof. by intros di. Qed.

#[global] Instance samePolicies_trans : Transitive samePolicies.
Proof. intros d1 d2 d3 [] []. split; congruence. Qed.

Lemma policyOf_GetIfPresent {K V} `{Countable K} now (c : burrow.Cache K V) k :
  policyOf (burrow.GetIfPresent now c k).2 = policyOf c.
Proof.
  destruct c as [|policy entries]; [done|]. simpl.
  destruct (entries !! k) as [en|]; [|done]. by destruct (burrow.isExpired _ _ _).
Qed.

Lemma policyOf_Put {K V} `{Countable K} now (c : burrow.Cache K V) k v :
  policyOf (burrow.Put now c k v) = policyOf c.
Proof. by destruct c. Qed.

Lemma Add_samePolicies metric label n : tracks samePolicies (Add metric label n).
Proof. apply tracks_modify. by intros di. Qed.

Lemma issue_samePolicies c : tracks samePolicies (modify (issue c)).
Proof. apply tracks_modify. by intros di. Qed.

Lemma set_finishing_samePolicies n : tracks samePolicies (modify (set_finishing n)).
Proof. apply tracks_modify. by intros di. Qed.

(** [di.shouldInitiateCache.Put(buildID, struct{}{})]. *)
Lemma Put_samePolicies {A} buildID (a : A) :
  tracks samePolicies
    (let* di := get in
     let* _ := modify (set_shouldInitiateCache
                         (burrow.Put (clock di) (shouldInitiateCache di) buildID tt)) in
     ret a).
Proof.
  intros di r di'. unfold bind, get, modify, ret. intros [= <- <-].
  split; simpl; [apply policyOf_Put|done].
Qed.

Lemma shouldInitiate_samePolicies buildID filepath :
  tracks samePolicies (shouldInitiate buildID filepath).
Proof.
  intros di r di'. unfold shouldInitiate, bind, get, modify, ret.
  pose proof (policyOf_GetIfPresent (clock di) (shouldInitiateCache di) buildID) as Hget.
  destruct (burrow.GetIfPresent _ _ _) as [v cache]. simpl in Hget.
  destruct v; simpl; [by intros [= <- <-]|].
  destruct (ShouldInitiateUpload _ _ _) as [resp [e|]]; simpl; [by intros [= <- <-]|].
  destruct resp; simpl; intros [= <- <-]; split; simpl; try done.
  by rewrite policyOf_Put.
Qed.

Lemma hashOf_samePolicies dbg : tracks samePolicies (hashOf dbg).
Proof.
  intros di r di'. unfold hashOf, bind, get, modify, ret.
  pose proof (policyOf_GetIfPresent (clock di) (hashCache di)
                (BuildID dbg, time.Unix (Modtime dbg))) as Hget.
  destruct (burrow.GetIfPresent _ _ _) as [v cache]. simpl in Hget.
  destruct v; simpl; [by intros [= <- <-]|].
  destruct (Reader _ _) as [rd [e|]]; [by intros [= <- <-]|].
  destruct (hash_Reader _ _) as [h [e|]]; intros [= <- <-]; split; simpl; try done.
  by rewrite policyOf_Put.
Qed.

Ltac samePolicies_step :=
  first
    [ apply Add_samePolicies
    | apply issue_samePolicies
    | apply set_finishing_samePolicies
    | apply Put_samePolicies
    | apply shouldInitiate_samePolicies
    | apply hashOf_samePolicies
    | tracks_step ].

Lemma EnsureUploaded_samePolicies root src : tracks samePolicies (EnsureUploaded root src).
Proof.
  unfold EnsureUploaded, ExtractOrFind, Extract, extract, Upload, singleflight_Do, upload,
    uploadFile, uploadViaGRPC, uploadViaSignedURL.
  repeat samePolicies_step.
Qed.

Lemma EnsureUploaded_starts_with_shouldInitiate root src di r di' :
  EnsureUploaded root src di = Some (r, di') →
  ∃ should di1, shouldInitiate (BuildID src) (Path src) di = Some (should, di1) ∧
                calls di1 `prefix_of` calls di'.
Proof.
  destruct r as [err src']. intros Hrun.
  destruct (EnsureUploaded_steps _ _ _ _ _ _ Hrun) as (should & di1 & Hshould & Hsteps).
  exists should, di1. split; [done|].
  destruct should.
  2:{ destruct Hsteps as (_ & _ & Hadd). by rewrite (Add_calls _ _ _ _ _ _ Hadd). }
  destruct Hsteps as (di2 & label & Hadd & _ & Hsteps).
  rewrite (Add_calls _ _ _ _ _ _ Hadd).
  assert (Hup : ∀ dbg di3 uerr di4, calls di1 `prefix_of` calls di3 →
    Upload dbg di3 = Some (uerr, di4) →
    match uerr with
    | Some e => err = Some e ∧ Add "ensureUploadedErrors" lvUpload 1 di4 = Some (tt, di2)
    | None => err = None ∧ di2 = di4
    end → calls di1 `prefix_of` calls di2).
  { intros dbg di3 uerr di4 Hpre Hup Hcase.
    pose proof (evolves_calls _ _ (Upload_evolves _ _ _ _ Hup)) as Hpre'.
    destruct uerr as [e|]; destruct Hcase as [_ Hdi2].
    - rewrite (Add_calls _ _ _ _ _ _ Hdi2). by etrans.
    - subst di2. by etrans. }
  destruct (DebugFile src) as [dbg|].
  - destruct Hsteps as (_ & uerr & di3 & Hrun' & Hcase). by eapply Hup.
  - destruct Hsteps as (dbg & eerr & di3 & Hex & Hcase).
    pose proof (evolves_calls _ _ (ExtractOrFind_evolves _ _ _ _ _ Hex)) as Hpre.
    destruct eerr as [e|].
    + destruct Hcase as (_ & _ & Hdi2). by rewrite (Add_calls _ _ _ _ _ _ Hdi2).
    + destruct Hcase as (d & uerr & di4 & _ & _ & Hrun' & Hcase). by eapply Hup.
Qed.

(** X23 — [New] gives the should-initiate cache the configured TTL,
    counted from the write, and the hash cache five minutes, counted from
    the last access; with the cache disabled both are no-op caches.
    [EnsureUploaded] never changes these policies.  A manager built with
    the cache disabled therefore remembers no answer: every
    [EnsureUploaded] on it starts by asking the backend. *)
Theorem New_sets_cache_policies env client uploadTimeout cacheDisabled cacheTTL
    stripDebuginfos tempDir now :
  let di0 := New env client uploadTimeout cacheDisabled cacheTTL stripDebuginfos tempDir now in
  policyOf (shouldInitiateCache di0) =
    (if cacheDisabled then None else Some (burrow.ExpireAfterWrite cacheTTL)) ∧
  policyOf (hashCache di0) =
    (if cacheDisabled then None else Some (burrow.ExpireAfterAccess (5 * Minute))) ∧
  ∀ di root src r di',
    EnsureUploaded root src di = Some (r, di') →
    samePolicies di di' ∧
    (policyOf (shouldInitiateCache di) = None →
     ∃ rest, calls di' = calls di ++ ShouldInitiateUploadCall (BuildID src) :: rest).
Proof.
  intros di0. split; [by destruct cacheDisabled|]. split; [by destruct cacheDisabled|].
  intros di root src r di' Hrun. split.
  - by apply (EnsureUploaded_samePolicies root src di r di').
  - intros Hnone.
    destruct (EnsureUploaded_starts_with_shouldInitiate _ _ _ _ _ Hrun)
      as (should & di1 & Hshould & [rest Hrest]).
    exists rest. rewrite Hrest.
    assert (Hmiss : misses di (BuildID src)).
    { intros now'. by destruct (shouldInitiateCache di). }
    rewrite (shouldInitiate_miss_asks _ _ _ _ _ Hmiss Hshould). by rewrite <- app_assoc.
Qed.
